(** * Healr: the safe mutation engine, the issue ranker and the fix loop

    A shallow embedding of [src/code_editor.py] (class [CodeEditor]),
    of [IssueDetector.get_issue_priority] in [src/issue_detector.py] and
    of the fix loop of [SelfHealingOrchestrator.fix_repository] in
    [src/main.py], with the properties the specification states about
    them.

    Modelling conventions.
    - A Python [str] is a [string], a Python [int] is [Z].
    - A file holds text: the value that
      [open(p, 'r', encoding='utf-8').read()] returns and that [f.write]
      stores.  The file system is a finite map from paths to contents;
      a path is a key, directories are not represented and
      [os.makedirs] has no effect on the map.  Paths follow [posixpath].
    - [compare_with_backup] reads the two files back, and what it
      reports depends on how Python reads: there the content of a file
      is its bytes, one character per byte, and a read ([TextIO])
      decodes them as UTF-8, raising [UnicodeDecodeError] on other
      bytes, and turns every line end into a line feed.
    - A raised exception is a value of [exn]; [try ... except] is a
      match on a sum.
    - A dictionary with a fixed set of keys is a record; a key that may
      be absent is an [option] field.
    - What the code cannot decide by itself is read from an environment:
      the CPython parser behind [ast.parse], the clock, and whether the
      write of [apply_edit] and the restoring copy of its handler raise
      ([env]); the answers of the embedding index, of the language model
      and of the logger during a fix run ([Orchestrator.world]).
    - The disk of a fix run holds the files the editor reads and
      writes.  The log file, which every call of the logger rewrites,
      and what the commit step writes under [.git] after the loop are
      other files and are not on it: a statement about the disk after a
      run is a statement about the files of the analysis, their backups
      and the Python files of the repository.
    - Console output and the progress display are left out.

    Around this core the development covers the code that feeds it and
    that it feeds: [analyze_file], [_analyze_complexity] and the line
    count of [_calculate_metrics] in [src/issue_detector.py],
    [analyze_repository] in [src/main.py], [_matches_pattern] in
    [src/repo_parser.py], [chunk_code] and [get_file_context] in
    [src/embedding_index.py], [stage_files], [create_commit] and
    [commit_batch_fixes] in [src/commit_manager.py], the code entry of
    [_parse_response] in [src/llm_agent.py] and [_extract_function] in
    [src/test_generator.py].  There, too, what an external tool answers
    is an argument: the lists of pylint and radon, the matches of
    [re.findall], the stored chunks of the collection, and what each
    call into Git does: it returns, raises [GitCommandError], or raises
    something else.  A loop that need not end ([chunk_code]) takes a
    number of iterations it may use and returns [None] when they do not
    suffice.

    The definitions come first, in the order of the source; the facts
    about them follow. *)

From Stdlib Require Import ZArith Lia Ascii String List Sorted Permutation.
From stdpp Require Import base option list gmap strings pretty.

Local Open Scope Z_scope.

(* ===================================================================== *)
(** * Python string primitives *)
(* ===================================================================== *)

Module PyStr.

(** The line feed character and the one-character string ["\n"]. *)
Definition nl : ascii := "010"%char.
Definition LF : string := String nl EmptyString.

Definition len (s : string) : nat := String.length s.

(** [s.startswith(p)] *)
Fixpoint startswith (p s : string) : bool :=
  match p, s with
  | EmptyString, _ => true
  | String a p', String b s' => if Ascii.eqb a b then startswith p' s' else false
  | String _ _, EmptyString => false
  end.

(** [s[n:]] for [0 <= n] *)
Fixpoint drop_chars (n : nat) (s : string) : string :=
  match n, s with
  | O, _ => s
  | S n', String _ s' => drop_chars n' s'
  | S _, EmptyString => EmptyString
  end.

(** [s[:n]] for [0 <= n] *)
Fixpoint take_chars (n : nat) (s : string) : string :=
  match n, s with
  | O, _ => EmptyString
  | S n', String c s' => String c (take_chars n' s')
  | S _, EmptyString => EmptyString
  end.

(** [s.endswith(suf)] *)
Definition endswith (suf s : string) : bool :=
  (len suf <=? len s)%nat && String.eqb (drop_chars (len s - len suf) s) suf.

(** [s.find(sub)]: the lowest index at which [sub] occurs, if any. *)
Fixpoint find (sub s : string) : option nat :=
  if startswith sub s then Some O
  else match s with
       | EmptyString => None
       | String _ s' => S <$> find sub s'
       end.

(** [sub in s] *)
Definition contains (sub s : string) : bool :=
  match find sub s with Some _ => true | None => false end.

(** [s.replace(old, new, 1)] *)
Fixpoint replace_first (old new s : string) : string :=
  if startswith old s then new +:+ drop_chars (len old) s
  else match s with
       | EmptyString => EmptyString
       | String c s' => String c (replace_first old new s')
       end.

(** [s.replace(c, r)] for a one-character pattern [c]: every occurrence. *)
Fixpoint replace_char (c : ascii) (r : string) (s : string) : string :=
  match s with
  | EmptyString => EmptyString
  | String a s' =>
      if Ascii.eqb a c then r +:+ replace_char c r s'
      else String a (replace_char c r s')
  end.

(** [s.split('\n')]: never empty; [cur] is the field read so far. *)
Fixpoint split_from (cur : string) (s : string) : list string :=
  match s with
  | EmptyString => [cur]
  | String c s' =>
      if Ascii.eqb c nl then cur :: split_from EmptyString s'
      else split_from (cur +:+ String c EmptyString) s'
  end.
Definition split_nl (s : string) : list string := split_from EmptyString s.

(** [sep.join(l)] *)
Fixpoint join (sep : string) (l : list string) : string :=
  match l with
  | [] => EmptyString
  | [x] => x
  | x :: rest => x +:+ sep +:+ join sep rest
  end.

(** [f.readlines()] on the text [s]: lines keep their terminator; the
    last line has one only if the text ends with it. *)
Fixpoint lines_from (cur : string) (s : string) : list string :=
  match s with
  | EmptyString => if String.eqb cur EmptyString then [] else [cur]
  | String c s' =>
      if Ascii.eqb c nl then (cur +:+ LF) :: lines_from EmptyString s'
      else lines_from (cur +:+ String c EmptyString) s'
  end.
Definition readlines (s : string) : list string := lines_from EmptyString s.

(** [a] and [b] frame the first occurrence of [old] in [s]. *)
Definition first_occurrence (old s a b : string) : Prop :=
  s = a +:+ old +:+ b /\
  forall a' b', s = a' +:+ old +:+ b' -> (len a <= len a')%nat.

(** Truth value of a string: non-empty. *)
Definition truthy (s : string) : bool := negb (String.eqb s EmptyString).

(** Python slices [l[:i]] and [l[i:]] with their clamping of negative
    and too large indices. *)
Definition slice_to {A} (i : Z) (l : list A) : list A :=
  if i <? 0 then firstn (Z.to_nat (Z.of_nat (length l) + i)) l
  else firstn (Z.to_nat i) l.
Definition slice_from {A} (i : Z) (l : list A) : list A :=
  if i <? 0 then skipn (Z.to_nat (Z.of_nat (length l) + i)) l
  else skipn (Z.to_nat i) l.

End PyStr.

(* ===================================================================== *)
(** * [os.path] (posixpath) *)
(* ===================================================================== *)

Module PosixPath.
Import PyStr.

Definition slash : ascii := "/"%char.

(** [(p[:i], p[i:])] with [i = p.rfind('/') + 1]. *)
Fixpoint split_at_last_slash (p : string) : string * string :=
  match p with
  | EmptyString => (EmptyString, EmptyString)
  | String c rest =>
      let '(h, t) := split_at_last_slash rest in
      if truthy h then (String c h, t)
      else if Ascii.eqb c slash then (String c EmptyString, rest)
      else (EmptyString, String c rest)
  end.

(** [s.rstrip('/')] *)
Fixpoint rstrip_slash (s : string) : string :=
  match s with
  | EmptyString => EmptyString
  | String c s' =>
      let r := rstrip_slash s' in
      if truthy r then String c r
      else if Ascii.eqb c slash then EmptyString
      else String c EmptyString
  end.

(** [head == '/' * len(head)] *)
Fixpoint all_slashes (s : string) : bool :=
  match s with
  | EmptyString => true
  | String c s' => Ascii.eqb c slash && all_slashes s'
  end.

(** ['/' in s] *)
Fixpoint has_slash (s : string) : bool :=
  match s with
  | EmptyString => false
  | String c s' => Ascii.eqb c slash || has_slash s'
  end.

Definition basename (p : string) : string := snd (split_at_last_slash p).

Definition dirname (p : string) : string :=
  let head := fst (split_at_last_slash p) in
  if truthy head && negb (all_slashes head) then rstrip_slash head else head.

(** [os.path.join(a, b)] *)
Definition join (a b : string) : string :=
  if startswith "/" b then b
  else if negb (truthy a) || endswith "/" a then a +:+ b
  else a +:+ "/" +:+ b.

End PosixPath.

(* ===================================================================== *)
(** * The syntax tree of [ast.parse] *)
(* ===================================================================== *)

(** Only the node classes the editor tells apart are kept; every other
    class ([arguments], [Return], [Expr], ...) is [Other].  A definition
    carries its [name], [lineno] and [end_lineno]. *)
Inductive node_class : Type :=
  | Module_
  | FunctionDef (name : string) (lineno end_lineno : Z)
  | AsyncFunctionDef (name : string) (lineno end_lineno : Z)
  | ClassDef (name : string) (lineno end_lineno : Z)
  | Other.

#[warnings="-register-all"]
Inductive ast : Type :=
  | Node (cls : node_class) (children : list ast).

Definition cls_of (n : ast) : node_class := let 'Node c _ := n in c.

(** [ast.iter_child_nodes(node)] *)
Definition iter_child_nodes (n : ast) : list ast := let 'Node _ ch := n in ch.

Fixpoint size (n : ast) : nat :=
  let 'Node _ ch := n in
  S ((fix sizes (l : list ast) : nat :=
        match l with [] => O | c :: l' => (size c + sizes l')%nat end) ch).

Definition forest_size (l : list ast) : nat := list_sum (map size l).

(** [ast.walk]:
<<
    todo = deque([node])
    while todo:
        node = todo.popleft()
        todo.extend(iter_child_nodes(node))
        yield node
>>
    The loop runs once per node of the forest in [todo]; [fuel] bounds
    it, and [walk] gives it the size of the tree. *)
Fixpoint walk_queue (fuel : nat) (todo : list ast) : list ast :=
  match fuel, todo with
  | S fuel', node :: rest => node :: walk_queue fuel' (rest ++ iter_child_nodes node)
  | _, _ => []
  end.

Definition walk (tree : ast) : list ast := walk_queue (size tree) [tree].

(** The nodes in document order (depth first, parents before children). *)
Fixpoint preorder (n : ast) : list ast :=
  let 'Node _ ch := n in
  n :: (fix pre (l : list ast) : list ast :=
          match l with [] => [] | c :: l' => preorder c ++ pre l' end) ch.

Definition preorder_forest (l : list ast) : list ast := flat_map preorder l.

(** What [ast.parse] does with a source text. *)
Inductive parse_outcome : Type :=
  | Parsed (tree : ast)
  | RaisesSyntaxError (msg : string) (lineno offset : option Z)
  | RaisesOther (msg : string).

(* ===================================================================== *)
(** * Files, exceptions and the environment *)
(* ===================================================================== *)

(** The exception classes the code can meet, with their [str(e)]. *)
Inductive exn : Type :=
  | FileNotFoundError (msg : string)
  | OSError (msg : string)
  | UnicodeError (msg : string).

Definition str_exn (e : exn) : string :=
  match e with
  | FileNotFoundError m | OSError m | UnicodeError m => m
  end.

(** A file system: path to text. *)
Abbreviation filesystem := (gmap string string).

(** [os.path.exists(p)] *)
Definition path_exists (fs : filesystem) (p : string) : bool :=
  match fs !! p with Some _ => true | None => false end.

(** [open(p, 'r', encoding='utf-8').read()] *)
Definition read_text (fs : filesystem) (p : string) : exn + string :=
  match fs !! p with
  | Some c => inr c
  | None =>
      inl (FileNotFoundError ("[Errno 2] No such file or directory: '" +:+ p +:+ "'"))
  end.

(** [shutil.copy2(src, dst)] *)
Definition copy2 (fs : filesystem) (src dst : string) : exn + filesystem :=
  match fs !! src with
  | Some c => inr (<[dst := c]> fs)
  | None =>
      inl (FileNotFoundError ("[Errno 2] No such file or directory: '" +:+ src +:+ "'"))
  end.

(** A write that raises: the exception, and what the interrupted write
    left in the file ([None]: [open] itself raised and the file was not
    touched; [Some EmptyString]: truncated, nothing written; ...). *)
Record write_failure : Type := WriteFailure {
  wf_exn : exn;
  wf_left : option string
}.

(** [datetime.now()] *)
Record datetime : Type := DateTime {
  year : nat; month : nat; day : nat;
  hour : nat; minute : nat; second : nat
}.

Definition digit (n : nat) : ascii := ascii_of_nat (48 + n mod 10).
Definition pad2 (n : nat) : string :=
  String (digit (n / 10)) (String (digit n) EmptyString).
Definition pad4 (n : nat) : string :=
  String (digit (n / 1000)) (String (digit (n / 100)) (pad2 n)).

(** [d.strftime("%Y%m%d_%H%M%S")] *)
Definition strftime (d : datetime) : string :=
  pad4 (year d) +:+ pad2 (month d) +:+ pad2 (day d) +:+ "_"
  +:+ pad2 (hour d) +:+ pad2 (minute d) +:+ pad2 (second d).

Record env : Type := Env {
  (** [ast.parse] *)
  parse : string -> parse_outcome;
  (** [self.backup_dir] *)
  backup_dir : string;
  (** [datetime.now()] *)
  now : datetime;
  (** does the write of [apply_edit] raise? *)
  write_fault : option write_failure;
  (** does the restoring copy of the handler of [apply_edit] raise? *)
  restore_fault : option exn;
  (** [str(e)] of the [UnicodeDecodeError] that reading bytes which are
      not UTF-8 raises *)
  decode_error : string -> string
}.

(* ===================================================================== *)
(** * Reading a file back *)
(* ===================================================================== *)

(** [read_text] is the read of a method that edits what it reads; there
    the stored value stands for the text that [read()] returns.
    [compare_with_backup] reads files that were copied or written
    before.  For it the stored value is the bytes of the file, a text is
    represented by its UTF-8 bytes, and reading is what
    [open(p, 'r', encoding='utf-8').read()] does with bytes: it decodes
    them, which fails on bytes that are not UTF-8, and turns every line
    end into a line feed.  Writing stores the bytes of the text; the
    line feed is the line separator, as on POSIX. *)
Module TextIO.

Definition byte_in (lo hi : nat) (b : ascii) : bool :=
((lo <=? nat_of_ascii b) && (nat_of_ascii b <=? hi))%nat.

(** A byte [10xxxxxx]. *)
Definition is_continuation (b : ascii) : bool := byte_in 128 191 b.

(** The second byte of a sequence of three or four: it excludes the
  overlong forms, the surrogates and what lies above U+10FFFF. *)
Definition second_of_three (b b2 : ascii) : bool :=
if (nat_of_ascii b =? 224)%nat then byte_in 160 191 b2
else if (nat_of_ascii b =? 237)%nat then byte_in 128 159 b2
else is_continuation b2.
Definition second_of_four (b b2 : ascii) : bool :=
if (nat_of_ascii b =? 240)%nat then byte_in 144 191 b2
else if (nat_of_ascii b =? 244)%nat then byte_in 128 143 b2
else is_continuation b2.

(** The bytes are UTF-8: the strict decoder accepts them. *)
Fixpoint utf8_valid (s : string) : bool :=
match s with
| EmptyString => true
| String b r =>
    if byte_in 0 127 b then utf8_valid r
    else if byte_in 194 223 b then
      match r with
      | String b2 r2 => is_continuation b2 && utf8_valid r2
      | _ => false
      end
    else if byte_in 224 239 b then
      match r with
      | String b2 (String b3 r3) =>
          second_of_three b b2 && is_continuation b3 && utf8_valid r3
      | _ => false
      end
    else if byte_in 240 244 b then
      match r with
      | String b2 (String b3 (String b4 r4)) =>
          second_of_four b b2 && is_continuation b3 && is_continuation b4
          && utf8_valid r4
      | _ => false
      end
    else false
end.

Definition CR : ascii := ascii_of_nat 13.

(** The universal newlines of text mode: a carriage return followed by
  a line feed, and a carriage return alone, are read as one line
  feed. *)
Fixpoint universal_newlines (s : string) : string :=
match s with
| EmptyString => EmptyString
| String c r =>
    if Ascii.eqb c CR then
      match r with
      | String c2 r2 =>
          if Ascii.eqb c2 PyStr.nl then String PyStr.nl (universal_newlines r2)
          else String PyStr.nl (universal_newlines r)
      | EmptyString => String PyStr.nl EmptyString
      end
    else String c (universal_newlines r)
end.

(** [len(text)]: the number of code points, each of which begins with
  a byte that is not a continuation byte. *)
Fixpoint code_points (s : string) : nat :=
match s with
| EmptyString => O
| String b r => ((if is_continuation b then 0 else 1) + code_points r)%nat
end.

(** [open(p, 'r', encoding='utf-8').read()] on the bytes of a file. *)
Definition read_utf8 (E : env) (fs : filesystem) (p : string) : exn + string :=
match fs !! p with
| Some bytes =>
    if utf8_valid bytes then inr (universal_newlines bytes)
    else inl (UnicodeError (decode_error E bytes))
| None =>
    inl (FileNotFoundError ("[Errno 2] No such file or directory: '" +:+ p +:+ "'"))
end.

End TextIO.

(* ===================================================================== *)
(** * [CodeEditor] *)
(* ===================================================================== *)

(** The dictionary of [validate_python_syntax]. *)
Record validation : Type := Validation {
  valid : bool;
  v_error : option string;
  v_line : option Z;
  v_offset : option Z
}.

(** The dictionary the edit methods return.  [restored] and
    [changes_made] are [false] where the dictionary has no such key. *)
Record edit_result : Type := EditResult {
  success : bool;
  backup_path : option string;
  error : option string;
  validation_ : option validation;
  restored : bool;
  changes_made : bool
}.

Definition initial_result : edit_result :=
  {| success := false; backup_path := None; error := None;
     validation_ := None; restored := false; changes_made := false |}.

Definition set_success (b : bool) (r : edit_result) : edit_result :=
  {| success := b; backup_path := backup_path r; error := error r;
     validation_ := validation_ r; restored := restored r;
     changes_made := changes_made r |}.
Definition set_backup_path (p : option string) (r : edit_result) : edit_result :=
  {| success := success r; backup_path := p; error := error r;
     validation_ := validation_ r; restored := restored r;
     changes_made := changes_made r |}.
Definition set_error (e : option string) (r : edit_result) : edit_result :=
  {| success := success r; backup_path := backup_path r; error := e;
     validation_ := validation_ r; restored := restored r;
     changes_made := changes_made r |}.
Definition set_validation (v : option validation) (r : edit_result) : edit_result :=
  {| success := success r; backup_path := backup_path r; error := error r;
     validation_ := v; restored := restored r;
     changes_made := changes_made r |}.
Definition set_restored (b : bool) (r : edit_result) : edit_result :=
  {| success := success r; backup_path := backup_path r; error := error r;
     validation_ := validation_ r; restored := b;
     changes_made := changes_made r |}.
Definition set_changes_made (b : bool) (r : edit_result) : edit_result :=
  {| success := success r; backup_path := backup_path r; error := error r;
     validation_ := validation_ r; restored := restored r;
     changes_made := b |}.

(** [result.update(edit_result)]: the keys of [apply_edit]'s dictionary
    ([success], [backup_path], [error], [validation], and [restored] when
    set) overwrite those of [result]; [changes_made] is not among them. *)
Definition update (result edit : edit_result) : edit_result :=
  {| success := success edit; backup_path := backup_path edit;
     error := error edit; validation_ := validation_ edit;
     restored := restored edit;
     changes_made := changes_made result |}.

Module CodeEditor.
Import PyStr.

Definition colon : ascii := ascii_of_nat 58.
Definition backslash : ascii := ascii_of_nat 92.

(** The path [create_backup] writes to; the directory of the file
    loses its colons and has its backslashes turned into underscores. *)
Definition backup_path_for (E : env) (file_path : string) : string :=
  let timestamp := strftime (now E) in
  let file_name := PosixPath.basename file_path in
  let backup_name := file_name +:+ "." +:+ timestamp +:+ ".bak" in
  let rel_path := PosixPath.dirname file_path in
  let backup_subdir :=
    PosixPath.join (backup_dir E)
      (replace_char backslash "_" (replace_char colon EmptyString rel_path)) in
  PosixPath.join backup_subdir backup_name.

Definition create_backup (E : env) (fs : filesystem) (file_path : string)
  : exn + (string * filesystem) :=
  if negb (path_exists fs file_path) then
    inl (FileNotFoundError ("File not found: " +:+ file_path))
  else
    let backup_path := backup_path_for E file_path in
    match copy2 fs file_path backup_path with
    | inl e => inl e
    | inr fs' => inr (backup_path, fs')
    end.

Definition validate_python_syntax (E : env) (code : string) : validation :=
  match parse E code with
  | Parsed _ =>
      {| valid := true; v_error := None; v_line := None; v_offset := None |}
  | RaisesSyntaxError msg line offset =>
      {| valid := false; v_error := Some msg; v_line := line; v_offset := offset |}
  | RaisesOther msg =>
      {| valid := false; v_error := Some msg; v_line := None; v_offset := None |}
  end.

(** [str(e)] for the [SyntaxError] of [ast.parse(code)], whose file
    name is ["<unknown>"]. *)
Definition str_syntax_error (msg : string) (lineno : option Z) : string :=
  match lineno with
  | Some n => msg +:+ " (<unknown>, line " +:+ pretty n +:+ ")"
  | None => msg +:+ " (<unknown>)"
  end.

(** [f"{x}"] for an optional string. *)
Definition fmt_opt (o : option string) : string := default "None" o.

(** The [except Exception as e] block of [apply_edit]. *)
Definition apply_edit_handler (E : env) (fs : filesystem) (file_path : string)
    (result : edit_result) (e : exn) : filesystem * edit_result :=
  let result := set_error (Some (str_exn e)) result in
  match backup_path result with
  | Some bp =>
      if truthy bp && path_exists fs bp then
        match restore_fault E with
        | Some _ => (fs, result)
        | None =>
            match copy2 fs bp file_path with
            | inr fs' => (fs', set_restored true result)
            | inl _ => (fs, result)
            end
        end
      else (fs, result)
  | None => (fs, result)
  end.

(** [with open(file_path, 'w', encoding='utf-8') as f: f.write(new_content)] *)
Definition write_text (E : env) (fs : filesystem) (file_path new_content : string)
  : (exn * filesystem) + filesystem :=
  match write_fault E with
  | None => inr (<[file_path := new_content]> fs)
  | Some w =>
      inl (wf_exn w,
           match wf_left w with
           | Some c => <[file_path := c]> fs
           | None => fs
           end)
  end.

Definition apply_edit (E : env) (fs : filesystem) (file_path new_content : string)
    (validate create_backup_ : bool) : filesystem * edit_result :=
  let result := initial_result in
  match (if create_backup_ then
           match create_backup E fs file_path with
           | inl e => inl e
           | inr (bp, fs1) => inr (Some bp, fs1)
           end
         else inr (None, fs)) with
  | inl e => apply_edit_handler E fs file_path result e
  | inr (bp, fs1) =>
      let result := set_backup_path bp result in
      let write_step (result : edit_result) :=
        match write_text E fs1 file_path new_content with
        | inr fs2 => (fs2, set_success true result)
        | inl (e, fs2) => apply_edit_handler E fs2 file_path result e
        end in
      if validate && endswith ".py" file_path then
        let v := validate_python_syntax E new_content in
        let result := set_validation (Some v) result in
        if negb (valid v) then
          (fs1, set_error
                  (Some ("Syntax validation failed: " +:+ fmt_opt (v_error v)))
                  result)
        else write_step result
      else write_step result
  end.

(** The validation gate of [apply_edit]: validation is asked for, the
    file is a Python file, and the content does not parse. *)
Definition gate_rejects (E : env) (file_path new_content : string)
    (validate : bool) : bool :=
  validate && endswith ".py" file_path
  && negb (valid (validate_python_syntax E new_content)).

Definition apply_partial_edit (E : env) (fs : filesystem)
    (file_path old_code new_code : string) (validate create_backup_ : bool)
  : filesystem * edit_result :=
  let result := initial_result in
  match read_text fs file_path with
  | inl e => (fs, set_error (Some (str_exn e)) result)
  | inr current_content =>
      if negb (contains old_code current_content) then
        (fs, set_error (Some "Old code not found in file") result)
      else
        let new_content := replace_first old_code new_code current_content in
        if String.eqb new_content current_content then
          (fs, set_error (Some "No changes were made") result)
        else
          let result := set_changes_made true result in
          let '(fs', edit) :=
            apply_edit E fs file_path new_content validate create_backup_ in
          (fs', update result edit)
  end.

(** The replacement line of [apply_line_edit]. *)
Definition terminated (new_line : string) : string :=
  if endswith LF new_line then new_line else new_line +:+ LF.

Definition apply_line_edit (E : env) (fs : filesystem) (file_path : string)
    (line_number : Z) (new_line : string) (validate create_backup_ : bool)
  : filesystem * edit_result :=
  let result := initial_result in
  match read_text fs file_path with
  | inl e => (fs, set_error (Some (str_exn e)) result)
  | inr content =>
      let lines := readlines content in
      if (line_number <? 1) || (Z.of_nat (length lines) <? line_number) then
        (fs, set_error
               (Some ("Invalid line number: " +:+ pretty line_number
                      +:+ " (file has " +:+ pretty (length lines) +:+ " lines)"))
               result)
      else
        let lines := <[Z.to_nat (line_number - 1) := terminated new_line]> lines in
        let new_content := join EmptyString lines in
        let '(fs', edit) :=
          apply_edit E fs file_path new_content validate create_backup_ in
        (fs', update result edit)
  end.

(** [isinstance(node, ast.FunctionDef) and node.name == function_name] *)
Definition is_target (function_name : string) (node : ast) : bool :=
  match cls_of node with
  | FunctionDef name _ _ => String.eqb name function_name
  | _ => false
  end.

(** The [for node in ast.walk(tree): if ...: function_node = node; break]
    loop. *)
Definition locate (tree : ast) (function_name : string) : option ast :=
  List.find (is_target function_name) (walk tree).

(** A definition (function, coroutine or class) that bears the name. *)
Definition defines (name : string) (node : ast) : bool :=
  match cls_of node with
  | FunctionDef f _ _ | AsyncFunctionDef f _ _ | ClassDef f _ _ =>
      String.eqb f name
  | _ => false
  end.

Definition is_async (node : ast) : bool :=
  match cls_of node with
  | AsyncFunctionDef _ _ _ => true
  | _ => false
  end.

(** The first match in document order: the node the specification
    names, to compare [locate] with. *)
Definition locate_document_order (tree : ast) (function_name : string)
  : option ast :=
  List.find (is_target function_name) (preorder tree).

Definition span (node : ast) : Z * Z :=
  match cls_of node with
  | FunctionDef _ l e | AsyncFunctionDef _ l e | ClassDef _ l e => (l, e)
  | _ => (0, 0)
  end.

(** [lines[:start_line - 1] + [new_function_code] + lines[end_line:]] *)
Definition splice (lines : list string) (start_line end_line : Z)
    (new_function_code : string) : list string :=
  slice_to (start_line - 1) lines ++ [new_function_code] ++ slice_from end_line lines.

Definition apply_function_edit (E : env) (fs : filesystem)
    (file_path function_name new_function_code : string)
    (validate create_backup_ : bool) : filesystem * edit_result :=
  let result := initial_result in
  match read_text fs file_path with
  | inl e => (fs, set_error (Some (str_exn e)) result)
  | inr content =>
      match parse E content with
      | RaisesSyntaxError msg lineno _ =>
          (fs, set_error (Some (str_syntax_error msg lineno)) result)
      | RaisesOther msg =>
          (fs, set_error (Some msg) result)
      | Parsed tree =>
          match locate tree function_name with
          | None =>
              (fs, set_error
                     (Some ("Function '" +:+ function_name +:+ "' not found in file"))
                     result)
          | Some function_node =>
              let '(start_line, end_line) := span function_node in
              let lines := split_nl content in
              let new_lines := splice lines start_line end_line new_function_code in
              let new_content := join LF new_lines in
              let '(fs', edit) :=
                apply_edit E fs file_path new_content validate create_backup_ in
              (fs', update result edit)
          end
      end
  end.

Definition restore_from_backup (E : env) (fs : filesystem)
    (file_path backup_path : string) : filesystem * bool :=
  if negb (path_exists fs backup_path) then (fs, false)
  else match copy2 fs backup_path file_path with
       | inr fs' => (fs', true)
       | inl _ => (fs, false)
       end.

(** The dictionary of [compare_with_backup]. *)
Record comparison : Type := Comparison {
  identical : bool;
  current_lines : Z;
  backup_lines : Z;
  size_difference : Z;
  cmp_error : option string
}.

Definition compare_with_backup (E : env) (fs : filesystem)
    (file_path backup_path : string) : comparison :=
  let result := {| identical := false; current_lines := 0; backup_lines := 0;
                   size_difference := 0; cmp_error := None |} in
  match TextIO.read_utf8 E fs file_path with
  | inl e => {| identical := false; current_lines := 0; backup_lines := 0;
                size_difference := 0; cmp_error := Some (str_exn e) |}
  | inr current_content =>
      match TextIO.read_utf8 E fs backup_path with
      | inl e => {| identical := false; current_lines := 0; backup_lines := 0;
                    size_difference := 0; cmp_error := Some (str_exn e) |}
      | inr backup_content =>
          {| identical := String.eqb current_content backup_content;
             current_lines := Z.of_nat (length (split_nl current_content));
             backup_lines := Z.of_nat (length (split_nl backup_content));
             size_difference :=
               Z.of_nat (TextIO.code_points current_content)
               - Z.of_nat (TextIO.code_points backup_content);
             cmp_error := None |}
      end
  end.

End CodeEditor.

(* ===================================================================== *)
(** * [IssueDetector.get_issue_priority] *)
(* ===================================================================== *)

Module IssueDetector.

(** An issue dictionary: the keys the ranking and the fix loop read.
    [None] is an absent key. *)
Record issue : Type := Issue {
  type_ : string;
  message : option string;
  line : option Z;
  severity : option string
}.

(** The dictionary of [analyze_file]; an absent list is [[]]. *)
Record issues_dict : Type := IssuesDict {
  pylint_issues : list issue;
  complexity_issues : list issue;
  maintainability_issues : list issue
}.

(** [{**issue, 'priority': priority}] *)
Record ranked : Type := Ranked {
  issue_of : issue;
  priority : Z
}.

(** [lambda x: (-x['priority'], x.get('line', 0))] *)
Definition sort_key (x : ranked) : Z * Z :=
  (- priority x, default 0 (line (issue_of x))).

(** [a < b] on tuples of two integers. *)
Definition tuple_lt (a b : Z * Z) : bool :=
  (a.1 <? b.1) || ((a.1 =? b.1) && (a.2 <? b.2)).

(** [list.sort(key=key)]: a stable sort that compares keys with [<].
    [x] comes from the left of [l] in the list being sorted, so it is
    placed before every element whose key is not smaller. *)
Fixpoint insert_by {A} (key : A -> Z * Z) (x : A) (l : list A) : list A :=
  match l with
  | [] => [x]
  | y :: l' =>
      if tuple_lt (key y) (key x) then y :: insert_by key x l'
      else x :: y :: l'
  end.

Definition list_sort {A} (key : A -> Z * Z) (l : list A) : list A :=
  foldr (insert_by key) [] l.

(** [x] is not after [y] in a list sorted by [key]: the key of [y] is
    not smaller. *)
Definition key_le {A} (key : A -> Z * Z) (x y : A) : Prop :=
  tuple_lt (key y) (key x) = false.

(** The key of [x] is [k]. *)
Definition same_key {A} (key : A -> Z * Z) (k : Z * Z) (x : A) : bool :=
  ((key x).1 =? k.1) && ((key x).2 =? k.2).

(** The order the ranking promises: higher priority first, then lower
    line; [x] may stand before [y]. *)
Definition line_of (x : ranked) : Z := default 0 (line (issue_of x)).
Definition may_precede (x y : ranked) : Prop :=
  priority y < priority x \/ (priority x = priority y /\ line_of x <= line_of y).

(** [x] has priority [p] and line [l]. *)
Definition at_rank (p l : Z) (x : ranked) : bool :=
  (priority x =? p) && (line_of x =? l).

Definition pylint_priority (i : issue) : Z :=
  if bool_decide (severity i = Some "error") then 3 else 2.

(** The list before the sort. *)
Definition collect (issues : issues_dict) : list ranked :=
  let all_issues := [] in
  let all_issues :=
    all_issues ++ map (fun i => Ranked i (pylint_priority i)) (pylint_issues issues) in
  let all_issues :=
    all_issues ++ map (fun i => Ranked i 2) (complexity_issues issues) in
  let all_issues :=
    all_issues ++ map (fun i => Ranked i 1) (maintainability_issues issues) in
  all_issues.

Definition get_issue_priority (issues : issues_dict) : list ranked :=
  list_sort sort_key (collect issues).

End IssueDetector.

(* ===================================================================== *)
(** * The fix loop of [SelfHealingOrchestrator.fix_repository] *)
(* ===================================================================== *)

Module Orchestrator.
Import IssueDetector.

(** The dictionary of [LLMAgent.improve_code]. *)
Record llm_response : Type := LlmResponse {
  code : option string;
  explanation : option string
}.

(** What the collaborators answer during one iteration of the loop:
    each call returns or raises. *)
Record step_world : Type := StepWorld {
  sw_context : exn + string;       (** [embedding_index.get_file_context] *)
  sw_llm : exn + llm_response;     (** [llm_agent.improve_code] *)
  sw_log_llm : option exn;         (** [logger.log_llm_interaction] raises? *)
  sw_log_edit : option exn;        (** [logger.log_code_edit] raises? *)
  sw_log_summary : option exn;     (** [logger.log_fix_summary] raises? *)
  sw_env : env                     (** the editor's environment *)
}.

(** The world of a run: the answers at the n-th iteration, and
    [str(issue)]. *)
Record world : Type := World {
  at_step : nat -> step_world;
  str_issue : ranked -> string
}.

(** One entry of [analysis['issues']]. *)
Record file_issues : Type := FileIssues {
  file : string;
  issues : list ranked
}.

Record applied_fix : Type := AppliedFix {
  af_file : string;
  af_issue : string;
  af_backup : option string
}.

Record failed_fix : Type := FailedFix {
  ff_file : string;
  ff_issue : string;
  ff_error : option string
}.

(** The variables of the loop; [progress] counts [progress.advance]. *)
Record loop_state : Type := LoopState {
  disk : filesystem;
  fixes_applied : list applied_fix;
  fixes_failed : list failed_fix;
  progress : nat
}.

Definition with_disk (fs : filesystem) (st : loop_state) : loop_state :=
  {| disk := fs; fixes_applied := fixes_applied st;
     fixes_failed := fixes_failed st; progress := progress st |}.
Definition append_applied (a : applied_fix) (st : loop_state) : loop_state :=
  {| disk := disk st; fixes_applied := fixes_applied st ++ [a];
     fixes_failed := fixes_failed st; progress := progress st |}.
Definition append_failed (f : failed_fix) (st : loop_state) : loop_state :=
  {| disk := disk st; fixes_applied := fixes_applied st;
     fixes_failed := fixes_failed st ++ [f]; progress := progress st |}.
Definition advance (st : loop_state) : loop_state :=
  {| disk := disk st; fixes_applied := fixes_applied st;
     fixes_failed := fixes_failed st; progress := S (progress st) |}.

(** The [try] block of one iteration: the state it reaches, and the
    exception that left it, if one did. *)
Definition try_fix (sw : step_world) (W : world) (dry_run : bool)
    (file_path : string) (issue : ranked) (st : loop_state)
  : loop_state * option exn :=
  match read_text (disk st) file_path with
  | inl e => (st, Some e)
  | inr _ =>
  match sw_context sw with
  | inl e => (st, Some e)
  | inr _ =>
  let issue_desc := default (str_issue W issue) (message (issue_of issue)) in
  match sw_llm sw with
  | inl e => (st, Some e)
  | inr llm_response =>
  match sw_log_llm sw with
  | Some e => (st, Some e)
  | None =>
  match (if dry_run then None else code llm_response) with
  | Some c =>
      if PyStr.truthy c then
        let '(fs', edit_result) :=
          CodeEditor.apply_edit (sw_env sw) (disk st) file_path c true true in
        let st := with_disk fs' st in
        match sw_log_edit sw with
        | Some e => (st, Some e)
        | None =>
            if success edit_result then
              let st :=
                append_applied
                  {| af_file := file_path; af_issue := issue_desc;
                     af_backup := backup_path edit_result |} st in
              match sw_log_summary sw with
              | Some e => (st, Some e)
              | None => (st, None)
              end
            else
              (append_failed
                 {| ff_file := file_path; ff_issue := issue_desc;
                    ff_error := error edit_result |} st, None)
        end
      else (st, None)
  | None => (st, None)
  end end end end end.

(** One iteration: the [try], its [except], and [progress.advance]. *)
Definition fix_issue (W : world) (dry_run : bool) (file_path : string)
    (st : loop_state) (issue : ranked) : loop_state :=
  let '(st', raised) :=
    try_fix (at_step W (progress st)) W dry_run file_path issue st in
  let st' :=
    match raised with
    | Some e =>
        append_failed
          {| ff_file := file_path;
             ff_issue := default "Unknown" (message (issue_of issue));
             ff_error := Some (str_exn e) |} st'
    | None => st'
    end in
  advance st'.

(** [for issue in file_issues['issues'][:5]: ...] *)
Definition fix_file (W : world) (dry_run : bool) (st : loop_state)
    (fi : file_issues) : loop_state :=
  foldl (fix_issue W dry_run (file fi)) st (PyStr.slice_to 5 (issues fi)).

(** [for file_issues in analysis['issues']: ...] *)
Definition fix_loop (W : world) (dry_run : bool) (st : loop_state)
    (analysis : list file_issues) : loop_state :=
  foldl (fix_file W dry_run) st analysis.

(** The [apply_edit] call the iteration for [issue] makes from [st],
    and what it returns; [None] if the iteration makes none (a step
    before it raised, the run is a dry run, or the generator gave no
    code). *)
Definition attempted_edit (W : world) (dry_run : bool) (file_path : string)
    (st : loop_state) (issue : ranked) : option (filesystem * edit_result) :=
  let sw := at_step W (progress st) in
  match read_text (disk st) file_path, sw_context sw, sw_llm sw, sw_log_llm sw with
  | inr _, inr _, inr llm_response, None =>
      match (if dry_run then None else code llm_response) with
      | Some c =>
          if PyStr.truthy c then
            Some (CodeEditor.apply_edit (sw_env sw) (disk st) file_path c true true)
          else None
      | None => None
      end
  | _, _, _, _ => None
  end.

(** The exception that leaves the [try] block of the iteration, if
    one does, read off the calls in their order: the read of the file,
    the index, the generator and the logger of its answer before the
    edit; [log_code_edit] after every edit and [log_fix_summary] after
    a successful one. *)
Definition raised_in_iteration (W : world) (dry_run : bool)
    (file_path : string) (st : loop_state) (issue : ranked) : option exn :=
  let sw := at_step W (progress st) in
  match read_text (disk st) file_path with
  | inl e => Some e
  | inr _ =>
  match sw_context sw with
  | inl e => Some e
  | inr _ =>
  match sw_llm sw with
  | inl e => Some e
  | inr _ =>
  match sw_log_llm sw with
  | Some e => Some e
  | None =>
      match attempted_edit W dry_run file_path st issue with
      | Some (_, edit_result) =>
          match sw_log_edit sw with
          | Some e => Some e
          | None => if success edit_result then sw_log_summary sw else None
          end
      | None => None
      end
  end end end end.

(** The iteration made a mutation and it failed: [apply_edit] was
    called and returned [success = False]. *)
Definition mutation_failed (W : world) (dry_run : bool) (file_path : string)
    (st : loop_state) (issue : ranked) : bool :=
  match attempted_edit W dry_run file_path st issue with
  | Some (_, edit_result) => negb (success edit_result)
  | None => false
  end.

(** What the iteration appends to [fixes_failed]: the entry of the
    [except] branch if an exception left the [try] block, else the
    entry of the [else] branch if the mutation failed, else nothing. *)
Definition recorded_failures (W : world) (dry_run : bool) (file_path : string)
    (st : loop_state) (issue : ranked) : list failed_fix :=
  match raised_in_iteration W dry_run file_path st issue with
  | Some e =>
      [ {| ff_file := file_path;
           ff_issue := default "Unknown" (message (issue_of issue));
           ff_error := Some (str_exn e) |} ]
  | None =>
      match attempted_edit W dry_run file_path st issue with
      | Some (_, edit_result) =>
          if success edit_result then []
          else [ {| ff_file := file_path;
                    ff_issue :=
                      default (str_issue W issue) (message (issue_of issue));
                    ff_error := error edit_result |} ]
      | None => []
      end
  end.

(** The iterations of [fix_loop] in order: file and issue. *)
Definition schedule (analysis : list file_issues) : list (string * ranked) :=
  flat_map (fun fi => map (pair (file fi)) (PyStr.slice_to 5 (issues fi))) analysis.

(** The loop over a list of iterations. *)
Definition run (W : world) (dry_run : bool) (st : loop_state)
    (sched : list (string * ranked)) : loop_state :=
  foldl (fun st '(path, issue) => fix_issue W dry_run path st issue) st sched.

(** No iteration of the run over [sched] from [st] appends to
    [fixes_failed]. *)
Fixpoint no_failure (W : world) (dry_run : bool) (st : loop_state)
    (sched : list (string * ranked)) : Prop :=
  match sched with
  | [] => True
  | (path, issue) :: rest =>
      fixes_failed (fix_issue W dry_run path st issue) = fixes_failed st /\
      no_failure W dry_run (fix_issue W dry_run path st issue) rest
  end.

(** No mutation of the run over [sched] from [st] failed. *)
Fixpoint zero_mutations_failed (W : world) (dry_run : bool) (st : loop_state)
    (sched : list (string * ranked)) : Prop :=
  match sched with
  | [] => True
  | (path, issue) :: rest =>
      mutation_failed W dry_run path st issue = false /\
      zero_mutations_failed W dry_run (fix_issue W dry_run path st issue) rest
  end.

(** No exception left the [try] block of an iteration of the run. *)
Fixpoint nothing_raised (W : world) (dry_run : bool) (st : loop_state)
    (sched : list (string * ranked)) : Prop :=
  match sched with
  | [] => True
  | (path, issue) :: rest =>
      raised_in_iteration W dry_run path st issue = None /\
      nothing_raised W dry_run (fix_issue W dry_run path st issue) rest
  end.

(** The entries the iterations of the run append to [fixes_failed],
    in their order. *)
Fixpoint failures_of_run (W : world) (dry_run : bool) (st : loop_state)
    (sched : list (string * ranked)) : list failed_fix :=
  match sched with
  | [] => []
  | (path, issue) :: rest =>
      recorded_failures W dry_run path st issue
      ++ failures_of_run W dry_run (fix_issue W dry_run path st issue) rest
  end.

(** The dictionary [fix_repository] returns; the early return has no
    [fixes_failed] key. *)
Record fix_report : Type := FixReport {
  r_fixes_applied : Z;
  r_fixes_failed : option Z;
  r_success : bool
}.

(** [analysis['total_issues']] *)
Definition total_issues (analysis : list file_issues) : nat :=
  list_sum (map (fun f => length (issues f)) analysis).

(** [analysis['issues']] from what [analyze_file] found in each file. *)
Definition analysis_of (found : list (string * issues_dict)) : list file_issues :=
  omap (fun '(path, d) =>
          let prioritized := get_issue_priority d in
          match prioritized with
          | [] => None
          | _ => Some {| file := path; issues := prioritized |}
          end) found.

(** [fix_repository] after the analysis; the commit hand-off, which
    does not enter the report, is left out. *)
Definition fix_repository (W : world) (dry_run : bool) (fs : filesystem)
    (analysis : list file_issues) : loop_state * fix_report :=
  let st0 := {| disk := fs; fixes_applied := []; fixes_failed := [];
                progress := O |} in
  if (total_issues analysis =? 0)%nat then
    (st0, {| r_fixes_applied := 0; r_fixes_failed := None; r_success := true |})
  else
    let st := fix_loop W dry_run st0 analysis in
    (st, {| r_fixes_applied := Z.of_nat (length (fixes_applied st));
            r_fixes_failed := Some (Z.of_nat (length (fixes_failed st)));
            r_success := (length (fixes_failed st) =? 0)%nat |}).

End Orchestrator.

(* ===================================================================== *)
(** * Concrete files, trees and environments used in the examples *)
(* ===================================================================== *)

Module Examples.
Import PyStr.

Definition text (lines : list string) : string := join LF lines.

(** [x = 1] and what the edits below make of it. *)
Definition src_assign : string := text ["x = 1"; EmptyString].
Definition src_assign_two : string := text ["x = 2"; EmptyString].
Definition src_unclosed : string := text ["x = ("; EmptyString].

(** A class with a method [f], followed by a function [f]. *)
Definition src_two_f : string :=
  text ["class A:";
        "    def f(self):";
        "        return 1";
        "def f():";
        "    return 2";
        EmptyString].
Definition new_f : string := text ["def f():"; "    return 3"].
Definition src_two_f_edited : string :=
  text ["class A:";
        "    def f(self):";
        "        return 1";
        "def f():";
        "    return 3";
        EmptyString].

Definition leaf : ast := Node Other [].
(** [arguments(args=[arg('self')])], [arguments()], [Return(Constant)] *)
Definition args_self : ast := Node Other [leaf].
Definition args_none : ast := Node Other [].
Definition return_const : ast := Node Other [leaf].

Definition method_f : ast := Node (FunctionDef "f" 2 3) [args_self; return_const].
Definition function_f : ast := Node (FunctionDef "f" 4 5) [args_none; return_const].
Definition tree_two_f : ast :=
  Node Module_ [Node (ClassDef "A" 1 3) [method_f]; function_f].

(** [async def f(): return 1] next to a function [g]. *)
Definition src_async : string :=
  text ["async def f():";
        "    return 1";
        "def g():";
        "    return 2";
        EmptyString].
Definition tree_async : ast :=
  Node Module_ [Node (AsyncFunctionDef "f" 1 2) [args_none; return_const];
                Node (FunctionDef "g" 3 4) [args_none; return_const]].

(** [ast.parse] on the texts above; no other text is parsed in the
    examples. *)
Definition parse_table : list (string * parse_outcome) :=
  [ (src_assign, Parsed (Node Module_ [Node Other [Node Other [leaf]; leaf]]));
    (src_assign_two, Parsed (Node Module_ [Node Other [Node Other [leaf]; leaf]]));
    (src_unclosed, RaisesSyntaxError "'(' was never closed" (Some 1) (Some 5));
    (src_two_f, Parsed tree_two_f);
    (src_two_f_edited, Parsed tree_two_f);
    (src_async, Parsed tree_async) ].

Fixpoint lookup_text (s : string) (t : list (string * parse_outcome))
  : parse_outcome :=
  match t with
  | [] => RaisesOther "text outside the table"
  | (k, o) :: t' => if String.eqb k s then o else lookup_text s t'
  end.

Definition example_parse (s : string) : parse_outcome := lookup_text s parse_table.

Definition noon : datetime :=
  {| year := 2024; month := 1; day := 15; hour := 12; minute := 0; second := 0 |}.

(** The string of a list of bytes. *)
Definition of_bytes (l : list nat) : string :=
  fold_right (fun n s => String (ascii_of_nat n) s) EmptyString l.

(** [x = 1] with a carriage return before the line feed. *)
Definition src_assign_crlf : string := "x = 1" +:+ String TextIO.CR LF.

(** A file that is not UTF-8: it begins with the byte [0xff].  The
    codec's message for it, the one undecodable file of the
    examples. *)
Definition latin_file : string := String (ascii_of_nat 255) "x = 1".
Definition invalid_start_byte : string :=
  "'utf-8' codec can't decode byte 0xff in position 0: invalid start byte".

(** Nothing raises. *)
Definition calm : env :=
  {| parse := example_parse; backup_dir := "backups"; now := noon;
     write_fault := None; restore_fault := None;
     decode_error := fun _ => invalid_start_byte |}.

(** The write raises after truncating the file. *)
Definition disk_full : env :=
  {| parse := example_parse; backup_dir := "backups"; now := noon;
     write_fault :=
       Some {| wf_exn := OSError "[Errno 28] No space left on device";
               wf_left := Some EmptyString |};
     restore_fault := None;
     decode_error := fun _ => invalid_start_byte |}.

Definition one_file (path content : string) : filesystem := {[ path := content ]}.

(** Issues as the analyzers report them. *)
Definition style_error_5 : IssueDetector.issue :=
  {| IssueDetector.type_ := "pylint";
     IssueDetector.message := Some "undefined variable";
     IssueDetector.line := Some 5;
     IssueDetector.severity := Some "error" |}.
Definition complexity_5 : IssueDetector.issue :=
  {| IssueDetector.type_ := "complexity";
     IssueDetector.message := Some "too complex";
     IssueDetector.line := Some 5;
     IssueDetector.severity := Some "warning" |}.
Definition style_warning_3 : IssueDetector.issue :=
  {| IssueDetector.type_ := "pylint";
     IssueDetector.message := Some "unused import";
     IssueDetector.line := Some 3;
     IssueDetector.severity := Some "warning" |}.
Definition style_warning_5 : IssueDetector.issue :=
  {| IssueDetector.type_ := "pylint";
     IssueDetector.message := Some "unused variable";
     IssueDetector.line := Some 5;
     IssueDetector.severity := Some "warning" |}.
Definition maintainability_1 : IssueDetector.issue :=
  {| IssueDetector.type_ := "maintainability";
     IssueDetector.message := Some "low index";
     IssueDetector.line := Some 1;
     IssueDetector.severity := Some "warning" |}.

(** A run in which the generator first answers with text that does
    not parse and then with text that does. *)
Definition answers (c : string) : Orchestrator.step_world :=
  {| Orchestrator.sw_context := inr EmptyString;
     Orchestrator.sw_llm :=
       inr {| Orchestrator.code := Some c;
              Orchestrator.explanation := Some EmptyString |};
     Orchestrator.sw_log_llm := None;
     Orchestrator.sw_log_edit := None;
     Orchestrator.sw_log_summary := None;
     Orchestrator.sw_env := calm |}.

Definition one_bad_answer : Orchestrator.world :=
  {| Orchestrator.at_step :=
       fun n => match n with
                | O => answers src_unclosed
                | _ => answers src_assign_two
                end;
     Orchestrator.str_issue := fun _ => "{...}" |}.

(** A run in which the generator cannot be reached. *)
Definition generator_down : Orchestrator.world :=
  {| Orchestrator.at_step :=
       fun _ =>
         {| Orchestrator.sw_context := inr EmptyString;
            Orchestrator.sw_llm := inl (OSError "Connection refused");
            Orchestrator.sw_log_llm := None;
            Orchestrator.sw_log_edit := None;
            Orchestrator.sw_log_summary := None;
            Orchestrator.sw_env := calm |};
     Orchestrator.str_issue := fun _ => "{...}" |}.

Definition seven_issues : list IssueDetector.ranked :=
  map (fun n => IssueDetector.Ranked
                  {| IssueDetector.type_ := "pylint";
                     IssueDetector.message := Some "unused import";
                     IssueDetector.line := Some (Z.of_nat n);
                     IssueDetector.severity := Some "warning" |} 2)
      (seq 1 7).

Definition analysis_m : list Orchestrator.file_issues :=
  [ {| Orchestrator.file := "m.py"; Orchestrator.issues := seven_issues |} ].

End Examples.

(* ===================================================================== *)
(** * Further code of the three files and of what they call *)
(* ===================================================================== *)

(** [get_backups] in [src/code_editor.py]: where it looks and which
    entries of that directory it keeps.  The listing itself
    ([os.listdir], [getmtime], [getsize]) is not represented. *)
Module BackupStore.
Import PyStr.

(** [backup_subdir], computed by [get_backups] as by [create_backup]. *)
Definition backup_subdir (E : env) (file_path : string) : string :=
  let rel_path := PosixPath.dirname file_path in
  PosixPath.join (backup_dir E)
    (replace_char CodeEditor.backslash "_"
       (replace_char CodeEditor.colon EmptyString rel_path)).

(** [backup_file.startswith(file_name) and backup_file.endswith('.bak')] *)
Definition selected (file_name backup_file : string) : bool :=
  startswith file_name backup_file && endswith ".bak" backup_file.

(** The ['path'] of the entry [get_backups] builds for [backup_file]. *)
Definition listed_path (E : env) (file_path backup_file : string) : string :=
  PosixPath.join (backup_subdir E file_path) backup_file.

End BackupStore.

(** An environment with another parser. *)
Definition with_parse (p : string -> parse_outcome) (E : env) : env :=
  {| parse := p; backup_dir := backup_dir E; now := now E;
     write_fault := write_fault E; restore_fault := restore_fault E;
     decode_error := decode_error E |}.

(** [RepoParser._matches_pattern] in [src/repo_parser.py], which decides
    the files [analyze_repository] gets to see. *)
Module RepoParser.
Import PyStr.

Definition star : ascii := "*"%char.

(** [s.split(sep)] for a one-character [sep]; [cur] is the field read
    so far. *)
Fixpoint split_char_from (sep : ascii) (cur : string) (s : string)
  : list string :=
  match s with
  | EmptyString => [cur]
  | String c s' =>
      if Ascii.eqb c sep then cur :: split_char_from sep EmptyString s'
      else split_char_from sep (cur +:+ String c EmptyString) s'
  end.
Definition split_char (sep : ascii) (s : string) : list string :=
  split_char_from sep EmptyString s.

(** [s.count(c)] for a character [c]. *)
Fixpoint count_char (c : ascii) (s : string) : nat :=
  match s with
  | EmptyString => O
  | String a s' => ((if Ascii.eqb a c then 1 else 0) + count_char c s')%nat
  end.

Definition matches_pattern (filename pattern : string) : bool :=
  if contains "*" pattern then
    match split_char star pattern with
    | [prefix; suffix] => startswith prefix filename && endswith suffix filename
    | _ => String.eqb filename pattern
    end
  else String.eqb filename pattern.

End RepoParser.

(** [_analyze_complexity], the line count of [_calculate_metrics] and
    [analyze_file] in [src/issue_detector.py]. *)
Module Detector.
Import PyStr IssueDetector.

(** A block of [cc_visit(code)]: the attributes the detector reads. *)
Record cc_result : Type := CcResult {
  cc_name : string;
  cc_lineno : Z;
  cc_complexity : Z
}.

(** A dictionary of [_analyze_complexity]; the entry for a failed
    analysis has the keys [type], [message] and [severity] only. *)
Record complexity_issue : Type := ComplexityIssue {
  ci_function : option string;
  ci_line : option Z;
  ci_complexity : option Z;
  ci_max_allowed : option Z;
  ci_message : string;
  ci_severity : string
}.

Definition complexity_issue_of (max_complexity : Z) (result : cc_result)
  : complexity_issue :=
  {| ci_function := Some (cc_name result);
     ci_line := Some (cc_lineno result);
     ci_complexity := Some (cc_complexity result);
     ci_max_allowed := Some max_complexity;
     ci_message :=
       "Function '" +:+ cc_name result +:+ "' has complexity "
       +:+ pretty (cc_complexity result) +:+ " (max allowed: "
       +:+ pretty max_complexity +:+ ")";
     ci_severity :=
       if cc_complexity result <=? max_complexity + 5 then "warning"
       else "error" |}.

(** [_analyze_complexity]; [visited] is what reading the file and
    [cc_visit] give: the blocks, or the exception one of them raises. *)
Definition analyze_complexity (max_complexity : Z)
    (visited : exn + list cc_result) : list complexity_issue :=
  match visited with
  | inr complexity_results =>
      map (complexity_issue_of max_complexity)
        (List.filter (fun result => max_complexity <? cc_complexity result)
           complexity_results)
  | inl e =>
      [ {| ci_function := None; ci_line := None; ci_complexity := None;
           ci_max_allowed := None;
           ci_message := "Complexity analysis error: " +:+ str_exn e;
           ci_severity := "error" |} ]
  end.

(** The keys of a complexity dictionary that the ranking and the fix
    loop read. *)
Definition as_issue (c : complexity_issue) : issue :=
  {| type_ := "complexity"; message := Some (ci_message c);
     line := ci_line c; severity := Some (ci_severity c) |}.

(** [c.isspace()] for a character below 256. *)
Definition is_space (c : ascii) : bool :=
  let n := nat_of_ascii c in
  ((9 <=? n) && (n <=? 13))%nat || ((28 <=? n) && (n <=? 32))%nat
  || (n =? 133)%nat || (n =? 160)%nat.

(** [s.lstrip()], [s.rstrip()], [s.strip()] *)
Fixpoint lstrip (s : string) : string :=
  match s with
  | EmptyString => EmptyString
  | String c s' => if is_space c then lstrip s' else s
  end.
Fixpoint rstrip (s : string) : string :=
  match s with
  | EmptyString => EmptyString
  | String c s' =>
      let r := rstrip s' in
      if truthy r then String c r
      else if is_space c then EmptyString
      else String c EmptyString
  end.
Definition strip (s : string) : string := rstrip (lstrip s).

(** Every character of [s] is white space. *)
Fixpoint blank (s : string) : bool :=
  match s with
  | EmptyString => true
  | String c s' => is_space c && blank s'
  end.

(** [line.strip() and not line.strip().startswith('#')] *)
Definition is_code_line (line : string) : bool :=
  truthy (strip line) && negb (startswith "#" (strip line)).

(** [metrics['lines_of_code']] of [_calculate_metrics]. *)
Definition lines_of_code (code : string) : nat :=
  length (List.filter is_code_line (split_nl code)).

(** What the analyzers find in a file.  [_run_pylint] and
    [_analyze_maintainability] run external tools and return a list in
    every case; [cc_visit_of] is the reading and visiting step of
    [_analyze_complexity]. *)
Record detectors : Type := Detectors {
  max_complexity : Z;
  pylint_of : string -> list issue;
  cc_visit_of : string -> exn + list cc_result;
  maintainability_of : string -> list issue
}.

(** The number of issues the three analyzers report for a file. *)
Definition issue_count (d : issues_dict) : nat :=
  (length (pylint_issues d) + length (complexity_issues d)
   + length (maintainability_issues d))%nat.

(** [analyze_file]: the three lists of the dictionary it returns. *)
Definition analyze_file (D : detectors) (file_path : string) : issues_dict :=
  if negb (endswith ".py" file_path) then
    {| pylint_issues := []; complexity_issues := [];
       maintainability_issues := [] |}
  else
    {| pylint_issues := pylint_of D file_path;
       complexity_issues :=
         map as_issue
           (analyze_complexity (max_complexity D) (cc_visit_of D file_path));
       maintainability_issues := maintainability_of D file_path |}.

End Detector.

(** [SelfHealingOrchestrator.analyze_repository] in [src/main.py], after
    the repository was parsed: [files] are the paths of the parsed
    files.  The calls of the index and of the logger, which are outside
    every [try] here, are taken to return. *)
Module Analysis.
Import IssueDetector Orchestrator.

(** The dictionary [analyze_repository] returns. *)
Record analysis_report : Type := AnalysisReport {
  files_analyzed : nat;
  files_with_issues : nat;
  total_issues_found : nat;
  all_issues : list file_issues
}.

Definition analyze_repository (D : Detector.detectors) (files : list string)
  : analysis_report :=
  let all_issues :=
    analysis_of (map (fun path => (path, Detector.analyze_file D path)) files) in
  {| files_analyzed := length files;
     files_with_issues := length all_issues;
     total_issues_found := total_issues all_issues;
     all_issues := all_issues |}.

End Analysis.

(** Concrete analyzers and worlds used in the examples of the analysis
    and of the fix loop. *)
Module MoreExamples.
Import PyStr.

Definition three_blocks : list Detector.cc_result :=
  [ Detector.CcResult "f" 1 11; Detector.CcResult "g" 5 16;
    Detector.CcResult "h" 9 10 ].

(** Pylint reports something for [a.py] only; radon reports nothing. *)
Definition quiet : Detector.detectors :=
  {| Detector.max_complexity := 10;
     Detector.pylint_of :=
       fun path => if String.eqb path "a.py"
                   then [Examples.style_error_5; Examples.style_warning_3]
                   else [];
     Detector.cc_visit_of := fun _ => inr [];
     Detector.maintainability_of := fun _ => [] |}.

Definition seven_found : IssueDetector.issues_dict :=
  {| IssueDetector.pylint_issues :=
       [Examples.style_warning_5; Examples.style_warning_3;
        Examples.style_error_5; Examples.style_warning_5;
        Examples.style_warning_3];
     IssueDetector.complexity_issues := [Examples.complexity_5];
     IssueDetector.maintainability_issues := [Examples.maintainability_1] |}.

(** The generator answers without code. *)
Definition no_code : Orchestrator.world :=
  {| Orchestrator.at_step :=
       fun _ =>
         {| Orchestrator.sw_context := inr EmptyString;
            Orchestrator.sw_llm :=
              inr {| Orchestrator.code := None;
                     Orchestrator.explanation := None |};
            Orchestrator.sw_log_llm := None;
            Orchestrator.sw_log_edit := None;
            Orchestrator.sw_log_summary := None;
            Orchestrator.sw_env := Examples.calm |};
     Orchestrator.str_issue := fun _ => "{...}" |}.

(** The generator answers with good code and one of the loggers
    cannot write its log. *)
Definition log_full : exn := OSError "[Errno 28] No space left on device".
Definition edit_log_fails : Orchestrator.world :=
  {| Orchestrator.at_step :=
       fun _ =>
         {| Orchestrator.sw_context := inr EmptyString;
            Orchestrator.sw_llm :=
              inr {| Orchestrator.code := Some Examples.src_assign_two;
                     Orchestrator.explanation := None |};
            Orchestrator.sw_log_llm := None;
            Orchestrator.sw_log_edit := Some log_full;
            Orchestrator.sw_log_summary := None;
            Orchestrator.sw_env := Examples.calm |};
     Orchestrator.str_issue := fun _ => "{...}" |}.

Definition two_files : filesystem :=
  <["notes.txt" := "keep"]> (Examples.one_file "m.py" Examples.src_assign).

End MoreExamples.

(* ===================================================================== *)
(** * Code the analysis and the fix loop hand their data to *)
(* ===================================================================== *)

(** Python's [range] and list slices. *)
Module PySeq.

(** The length of [range(start, stop, step)] for a non-zero step. *)
Definition range_len (start stop step : Z) : nat :=
  if (0 <? step) && (start <? stop) then
    Z.to_nat (1 + (stop - 1 - start) / step)
  else if (step <? 0) && (stop <? start) then
    Z.to_nat (1 + (start - 1 - stop) / (- step))
  else O.

(** [list(range(start, stop, step))]; [None] is the [ValueError] for a
    zero step. *)
Definition range (start stop step : Z) : option (list Z) :=
  if step =? 0 then None
  else Some (map (fun j => start + Z.of_nat j * step)
               (seq 0 (range_len start stop step))).

(** An index of a slice, brought into [0 .. n]. *)
Definition clamp (n : nat) (k : Z) : nat :=
  if k <? 0 then Z.to_nat (Z.max 0 (Z.of_nat n + k))
  else Nat.min (Z.to_nat k) n.

(** [l[i:j]] *)
Definition slice {A} (i j : Z) (l : list A) : list A :=
  let a := clamp (length l) i in
  let b := clamp (length l) j in
  firstn (b - a) (skipn a l).

End PySeq.

(** [EmbeddingIndex.chunk_code] and [get_file_context] in
    [src/embedding_index.py]: how [analyze_repository] cuts a file into
    chunks and what the fix loop gets back as the context of a line. *)
Module EmbeddingIndex.
Import PyStr.

Record chunk : Type := Chunk {
  ch_id : string;
  ch_text : string;
  ch_file_path : string;
  ch_start_line : Z;
  ch_end_line : Z;
  ch_chunk_id : Z
}.

(** The [while i < len(lines)] loop of [chunk_code]; [None] when the
    loop is still running after [fuel] iterations. *)
Fixpoint chunk_loop (fuel : nat) (chunk_size chunk_overlap : Z)
    (file_path : string) (lines : list string) (i chunk_id : Z)
    (chunks : list chunk) : option (list chunk) :=
  match fuel with
  | O => None
  | S fuel' =>
      if i <? Z.of_nat (length lines) then
        let chunk_end := Z.min (i + chunk_size) (Z.of_nat (length lines)) in
        let chunk_lines := PySeq.slice i chunk_end lines in
        let chunk_text := join LF chunk_lines in
        let chunks :=
          chunks ++ [ {| ch_id := file_path +:+ ":chunk_" +:+ pretty chunk_id;
                         ch_text := chunk_text;
                         ch_file_path := file_path;
                         ch_start_line := i + 1;
                         ch_end_line := chunk_end;
                         ch_chunk_id := chunk_id |} ] in
        chunk_loop fuel' chunk_size chunk_overlap file_path lines
          (i + (chunk_size - chunk_overlap)) (chunk_id + 1) chunks
      else Some chunks
  end.

Definition chunk_code (fuel : nat) (chunk_size chunk_overlap : Z)
    (content file_path : string) : option (list chunk) :=
  let lines := split_nl content in
  chunk_loop fuel chunk_size chunk_overlap file_path lines 0 0 [].

(** What a chunk made from a position after [i] looks like: its
    lines, the text of these lines, and its identifier. *)
Definition well_formed (size : Z) (path : string) (lines : list string)
    (i : Z) (c : chunk) : Prop :=
  i < ch_start_line c /\
  ch_start_line c <= ch_end_line c <= Z.of_nat (length lines) /\
  ch_end_line c - ch_start_line c < size /\
  ch_text c
  = join LF (PySeq.slice (ch_start_line c - 1) (ch_end_line c) lines) /\
  ch_file_path c = path /\
  ch_id c = path +:+ ":chunk_" +:+ pretty (ch_chunk_id c).

Definition contains_line (line_number : Z) (c : chunk) : bool :=
  (ch_start_line c <=? line_number) && (line_number <=? ch_end_line c).

(** [get_file_context]; [stored] is what the collection returns for
    the file.  The parameter [context_lines] is not used by the code. *)
Definition get_file_context (stored : list chunk) (line_number : Z)
    (context_lines : Z) : string :=
  match stored with
  | [] => EmptyString
  | _ =>
      let relevant_chunks := List.filter (contains_line line_number) stored in
      match relevant_chunks with
      | [] => EmptyString
      | _ =>
          let sorted :=
            IssueDetector.list_sort (fun c => (ch_start_line c, 0))
              relevant_chunks in
          join LF (map ch_text sorted)
      end
  end.

End EmbeddingIndex.

(** [CommitManager.stage_file], [stage_files], [create_commit],
    [generate_commit_message] and [commit_batch_fixes] in
    [src/commit_manager.py], which [fix_repository] hands the applied
    fixes to.  The two [try] blocks catch [GitCommandError] only; the
    message template is taken to format. *)
Module CommitManager.
Import PyStr.

(** A dictionary of the list [fix_repository] builds. *)
Record fix_entry : Type := FixEntry {
  fix_file_path : string;
  fix_action : option string;
  fix_description : option string
}.

(** What a call into GitPython does: it returns, it raises the
    [GitCommandError] that [stage_file] and [create_commit] catch, or
    it raises another exception, which they let through. *)
Inductive git_call (A : Type) : Type :=
  | Returned (a : A)
  | GitCommandError (message : string)
  | Raised (e : exn).
#[global] Arguments Returned {A} a.
#[global] Arguments GitCommandError {A} message.
#[global] Arguments Raised {A} e.

(** The repository as the loop of [commit_batch_fixes] meets it:
    [repo.index.add] for the j-th file of the n-th batch and, for the
    commit of the n-th batch, whether there is something to commit
    ([repo.is_dirty()] or untracked files) and the [hexsha] of
    [repo.index.commit]. *)
Record git : Type := Git {
  index_add : nat -> nat -> git_call unit;
  has_changes : nat -> git_call bool;
  index_commit : nat -> git_call string
}.

(** The dictionary [stage_files] returns. *)
Record stage_result : Type := StageResult {
  sr_success : bool;
  staged_files : list string;
  failed_files : list string;
  sr_error : option string
}.

(** The dictionary [create_commit] returns. *)
Record commit_result : Type := CommitResult {
  cr_success : bool;
  commit_hash : option string;
  cr_error : option string;
  commit_message : option string
}.

(** An entry of the list [commit_batch_fixes] returns: the stage
    result of a batch that could not be staged, or the result of
    [create_commit]. *)
Inductive batch_result : Type :=
  | Staging (r : stage_result)
  | Commit (r : commit_result).

(** How [commit_batch_fixes] ends without a list: the [ValueError] of
    [range] for a step of 0, or the exception of a call into GitPython
    that neither [stage_file] nor [create_commit] catches. *)
Inductive batch_exit : Type :=
  | RangeStepZero
  | Propagated (e : exn).

Definition footer : string :=
  LF +:+ LF +:+ "Generated with Healr - AI-Powered Code Self-Healing System".

(** [generate_commit_message]; [template] is
    [commit_message_template.format]. *)
Definition generate_commit_message (template : string -> string -> string)
    (file_path action : string) (details : option string) : string :=
  let file_name := PosixPath.basename file_path in
  let message := template action file_name in
  let message :=
    match details with
    | Some d => if truthy d then message +:+ LF +:+ LF +:+ d else message
    | None => message
    end in
  message +:+ footer.

(** The message of a batch. *)
Definition batch_message (template : string -> string -> string)
    (batch : list fix_entry) : string :=
  match batch with
  | [f] =>
      generate_commit_message template (fix_file_path f)
        (default "Improve code" (fix_action f)) (fix_description f)
  | _ =>
      let message :=
        "Fix " +:+ pretty (Z.of_nat (length batch))
        +:+ " code quality issues" +:+ LF +:+ LF in
      let message :=
        foldl (fun message f =>
                 message +:+ "- " +:+ PosixPath.basename (fix_file_path f)
                 +:+ ": " +:+ default "Improved" (fix_description f) +:+ LF)
          message batch in
      message +:+ LF
      +:+ "Generated with Healr - AI-Powered Code Self-Healing System"
  end.

(** The batches [fixes[i:i + max_changes_per_commit]] of the loop;
    [None] is the [ValueError] of [range]. *)
Definition batches {A} (max_changes_per_commit : Z) (fixes : list A)
  : option (list (list A)) :=
  match PySeq.range 0 (Z.of_nat (length fixes)) max_changes_per_commit with
  | None => None
  | Some starts =>
      Some (map (fun i => PySeq.slice i (i + max_changes_per_commit) fixes)
              starts)
  end.

(** [stage_file]: success and error of its result. *)
Definition stage_file (G : git) (n j : nat) : exn + (bool * option string) :=
  match index_add G n j with
  | Returned _ => inr (true, None)
  | GitCommandError message => inr (false, Some message)
  | Raised e => inl e
  end.

(** The loop of [stage_files] from the j-th file on. *)
Fixpoint stage_loop (G : git) (n j : nat) (file_paths : list string)
    (staged failed : list string) : exn + (list string * list string) :=
  match file_paths with
  | [] => inr (staged, failed)
  | file_path :: rest =>
      match stage_file G n j with
      | inl e => inl e
      | inr (true, _) =>
          stage_loop G n (S j) rest (staged ++ [file_path]) failed
      | inr (false, _) =>
          stage_loop G n (S j) rest staged (failed ++ [file_path])
      end
  end.

Definition stage_files (G : git) (n : nat) (file_paths : list string)
  : exn + stage_result :=
  match stage_loop G n 0 file_paths [] [] with
  | inl e => inl e
  | inr (staged, failed) =>
      inr {| sr_success := (length failed =? 0)%nat;
             staged_files := staged;
             failed_files := failed;
             sr_error := None |}
  end.

Definition create_commit (G : git) (n : nat) (message : string)
  : exn + commit_result :=
  match has_changes G n with
  | Raised e => inl e
  | GitCommandError error =>
      inr {| cr_success := false; commit_hash := None;
             cr_error := Some error; commit_message := None |}
  | Returned false =>
      inr {| cr_success := false; commit_hash := None;
             cr_error := Some "No changes to commit";
             commit_message := None |}
  | Returned true =>
      match index_commit G n with
      | Raised e => inl e
      | GitCommandError error =>
          inr {| cr_success := false; commit_hash := None;
                 cr_error := Some error; commit_message := None |}
      | Returned hexsha =>
          inr {| cr_success := true; commit_hash := Some hexsha;
                 cr_error := None; commit_message := Some message |}
      end
  end.

(** The loop of [commit_batch_fixes] from the n-th batch on. *)
Fixpoint commit_loop (G : git) (template : string -> string -> string)
    (n : nat) (bs : list (list fix_entry)) (results : list batch_result)
  : exn + list batch_result :=
  match bs with
  | [] => inr results
  | batch :: rest =>
      let file_paths := map fix_file_path batch in
      match stage_files G n file_paths with
      | inl e => inl e
      | inr stage_result =>
          if negb (sr_success stage_result) then
            commit_loop G template (S n) rest
              (results ++ [Staging stage_result])
          else
            match create_commit G n (batch_message template batch) with
            | inl e => inl e
            | inr commit_result =>
                commit_loop G template (S n) rest
                  (results ++ [Commit commit_result])
            end
      end
  end.

Definition commit_batch_fixes (G : git)
    (template : string -> string -> string) (max_changes_per_commit : Z)
    (fixes : list fix_entry) : batch_exit + list batch_result :=
  match batches max_changes_per_commit fixes with
  | None => inl RangeStepZero
  | Some bs =>
      match commit_loop G template O bs [] with
      | inl e => inl (Propagated e)
      | inr results => inr results
      end
  end.

(** For the statements about the loop: the entries of a list whose
    position, counted from [j], satisfies [keep]; whether
    [repo.index.add] returned for a file; and a repository none of
    whose calls raises anything but [GitCommandError]. *)
Fixpoint entries_where {A} (keep : nat -> bool) (j : nat) (l : list A)
  : list A :=
  match l with
  | [] => []
  | x :: rest =>
      if keep j then x :: entries_where keep (S j) rest
      else entries_where keep (S j) rest
  end.

Definition is_added (G : git) (n j : nat) : bool :=
  match index_add G n j with Returned _ => true | _ => false end.

Definition raises_git_errors_only (G : git) : Prop :=
  (forall n j e, index_add G n j <> Raised e) /\
  (forall n e, has_changes G n <> Raised e) /\
  (forall n e, index_commit G n <> Raised e).

(** The list [fix_repository] makes of [fixes_applied]. *)
Definition commit_fixes (fixes_applied : list Orchestrator.applied_fix)
  : list fix_entry :=
  map (fun a => {| fix_file_path := Orchestrator.af_file a;
                   fix_action := Some "Fix code quality issue";
                   fix_description := Some (Orchestrator.af_issue a) |})
    fixes_applied.

End CommitManager.

(** The code entry of [LLMAgent._parse_response] in [src/llm_agent.py]:
    [code_blocks] is what [re.findall] finds in the response. *)
Module LLMAgent.

Definition parse_response_code (code_blocks : list string) : string :=
  match code_blocks with
  | block :: _ => Detector.strip block
  | [] => EmptyString
  end.

End LLMAgent.

(** [TestGenerator._extract_function] in [src/test_generator.py]. *)
Module TestGenerator.
Import PyStr.

Definition extract_function (E : env) (fs : filesystem)
    (file_path function_name : string) : option string :=
  match read_text fs file_path with
  | inl _ => None
  | inr content =>
      match parse E content with
      | Parsed tree =>
          match CodeEditor.locate tree function_name with
          | Some node =>
              let lines := split_nl content in
              let function_lines :=
                PySeq.slice ((CodeEditor.span node).1 - 1)
                  (CodeEditor.span node).2 lines in
              Some (join LF function_lines)
          | None => None
          end
      | _ => None
      end
  end.

End TestGenerator.

(** A file of five lines, cut into chunks of two lines that overlap by
    one. *)
Module ChunkExamples.

Definition five_lines : string := Examples.text ["a"; "b"; "c"; "d"; "e"].

Definition chunks_2_1 : list EmbeddingIndex.chunk :=
  default [] (EmbeddingIndex.chunk_code 6 2 1 five_lines "m.py").

End ChunkExamples.

(** Three applied fixes, committed two at a time by a repository in
    which Git refuses the files of the first batch. *)
Module CommitExamples.

Definition three_fixes : list CommitManager.fix_entry :=
  CommitManager.commit_fixes
    [ {| Orchestrator.af_file := "src/a.py";
         Orchestrator.af_issue := "unused import";
         Orchestrator.af_backup := Some "backups/a.py.bak" |};
      {| Orchestrator.af_file := "src/b.py";
         Orchestrator.af_issue := "unused variable";
         Orchestrator.af_backup := Some "backups/b.py.bak" |};
      {| Orchestrator.af_file := "src/c.py";
         Orchestrator.af_issue := "too complex";
         Orchestrator.af_backup := Some "backups/c.py.bak" |} ].

Definition refused : string :=
  "Cmd('git') failed due to: exit code(128)".

Definition first_stage_fails : CommitManager.git :=
  {| CommitManager.index_add :=
       fun n _ =>
         match n with
         | O => CommitManager.GitCommandError refused
         | _ => CommitManager.Returned tt
         end;
     CommitManager.has_changes := fun _ => CommitManager.Returned true;
     CommitManager.index_commit :=
       fun _ => CommitManager.Returned "0a1b2c3" |}.

(** A repository in which the first file to stage is not there. *)
Definition no_such_file : exn :=
  FileNotFoundError "[Errno 2] No such file or directory: 'src/a.py'".

Definition first_file_missing : CommitManager.git :=
  {| CommitManager.index_add :=
       fun n j =>
         match n, j with
         | O, O => CommitManager.Raised no_such_file
         | _, _ => CommitManager.Returned tt
         end;
     CommitManager.has_changes := fun _ => CommitManager.Returned true;
     CommitManager.index_commit :=
       fun _ => CommitManager.Returned "0a1b2c3" |}.

Definition template (action file : string) : string :=
  "[Healr] " +:+ action +:+ " in " +:+ file.

End CommitExamples.

(** A generator whose response has one fenced block, and a parser that
    accepts every text. *)
Module ResponseExamples.

Definition block : string := Examples.text ["x = 1"; "y = 2"; EmptyString].

Definition lenient : env :=
  with_parse (fun _ => Parsed (Node Module_ [])) Examples.calm.

Definition fenced_answer : Orchestrator.world :=
  {| Orchestrator.at_step :=
       fun _ =>
         {| Orchestrator.sw_context := inr EmptyString;
            Orchestrator.sw_llm :=
              inr {| Orchestrator.code :=
                       Some (LLMAgent.parse_response_code [block]);
                     Orchestrator.explanation := Some EmptyString |};
            Orchestrator.sw_log_llm := None;
            Orchestrator.sw_log_edit := None;
            Orchestrator.sw_log_summary := None;
            Orchestrator.sw_env := lenient |};
     Orchestrator.str_issue := fun _ => "{...}" |}.

End ResponseExamples.

(* ===================================================================== *)
(** * Facts about the string primitives *)
(* ===================================================================== *)

Module PyStrFacts.
Import PyStr.

#[local] Arguments String.append !_ _ / : simpl nomatch.

Lemma app_nil_r (s : string) : s +:+ EmptyString = s.
Proof. induction s as [|c s IH]; simpl; [reflexivity | now rewrite IH]. Qed.

Lemma app_assoc (a b c : string) : (a +:+ b) +:+ c = a +:+ (b +:+ c).
Proof. induction a as [|x a IH]; simpl; [reflexivity | now rewrite IH]. Qed.

Lemma len_app (a b : string) : len (a +:+ b) = (len a + len b)%nat.
Proof. unfold len. induction a as [|x a IH]; simpl; [reflexivity | now rewrite IH]. Qed.

Lemma app_inv_tail (a b c : string) : a +:+ c = b +:+ c -> a = b.
Proof.
  revert b. induction a as [|x a IH]; intros [|y b] H; simpl in *.
  - reflexivity.
  - apply (f_equal len) in H. simpl in H. rewrite len_app in H.
    unfold len in H. simpl in H. lia.
  - apply (f_equal len) in H. simpl in H. rewrite len_app in H.
    unfold len in H. simpl in H. lia.
  - injection H as -> H. f_equal. now apply IH.
Qed.

Lemma drop_chars_app (a b : string) : drop_chars (len a) (a +:+ b) = b.
Proof. induction a as [|x a IH]; simpl; [reflexivity | exact IH]. Qed.

Lemma startswith_app (p t : string) : startswith p (p +:+ t) = true.
Proof.
  induction p as [|c p IH]; simpl; [reflexivity |].
  now rewrite Ascii.eqb_refl.
Qed.

Lemma startswith_inv (p s : string) :
  startswith p s = true -> s = p +:+ drop_chars (len p) s.
Proof.
  revert s. induction p as [|c p IH]; intros s H; simpl in *; [reflexivity |].
  destruct s as [|d s]; [discriminate |].
  destruct (Ascii.eqb_spec c d) as [->|]; [| discriminate].
  simpl. f_equal. now apply IH.
Qed.

Lemma startswith_false (p s t : string) :
  startswith p s = false -> s <> p +:+ t.
Proof. intros H ->. rewrite startswith_app in H. discriminate. Qed.

Lemma contains_false (old s : string) :
  contains old s = false -> forall a b, s <> a +:+ old +:+ b.
Proof.
  unfold contains. induction s as [|c s IH]; simpl.
  - destruct (startswith old EmptyString) eqn:Hp; [discriminate |].
    intros _ [|x a] b H; simpl in H; [| discriminate].
    now apply (startswith_false _ _ _ Hp) in H.
  - destruct (startswith old (String c s)) eqn:Hp; [discriminate |].
    destruct (find old s) eqn:Hf; simpl; [discriminate |].
    intros _ [|x a] b H; simpl in H.
    + now apply (startswith_false _ _ _ Hp) in H.
    + injection H as _ H. now apply (IH eq_refl a b).
Qed.

Lemma contains_true (old new s : string) :
  contains old s = true ->
  exists a b, first_occurrence old s a b /\
              replace_first old new s = a +:+ new +:+ b.
Proof.
  unfold contains. induction s as [|c s IH]; simpl.
  - destruct (startswith old EmptyString) eqn:Hp; [| discriminate].
    intros _. exists EmptyString, (drop_chars (len old) EmptyString). split; [split |].
    + simpl. now apply startswith_inv.
    + intros. simpl. lia.
    + reflexivity.
  - destruct (startswith old (String c s)) eqn:Hp.
    + intros _. exists EmptyString, (drop_chars (len old) (String c s)). split; [split |].
      * simpl. now apply startswith_inv.
      * intros. simpl. lia.
      * reflexivity.
    + destruct (find old s) eqn:Hf; simpl; [| discriminate].
      intros _. destruct (IH eq_refl) as (a & b & [Hs Hmin] & Hr).
      exists (String c a), b. split; [split |].
      * simpl. now rewrite <- Hs.
      * intros [|x a'] b' H; simpl in H.
        -- now apply (startswith_false _ _ _ Hp) in H.
        -- injection H as _ H. specialize (Hmin _ _ H). simpl. lia.
      * simpl. now rewrite Hr.
Qed.

Lemma contains_iff (old s : string) :
  contains old s = true <-> exists a b, s = a +:+ old +:+ b.
Proof.
  split.
  - intros H. destruct (contains_true old old s H) as (a & b & [Hs _] & _).
    now exists a, b.
  - intros (a & b & Hs). destruct (contains old s) eqn:Hc; [reflexivity |].
    now destruct (contains_false old s Hc a b).
Qed.

(** Replacing the first occurrence changes the text unless [new = old]. *)
Lemma replace_first_noop (old new s : string) :
  contains old s = true ->
  (replace_first old new s = s <-> new = old).
Proof.
  intros Hc. destruct (contains_true old new s Hc) as (a & b & [Hs _] & Hr).
  rewrite Hr. split.
  - intros H. rewrite Hs in H.
    apply String.app_inj in H. now apply app_inv_tail in H.
  - intros ->. now rewrite <- Hs.
Qed.

Lemma endswith_app (a suf : string) : endswith suf (a +:+ suf) = true.
Proof.
  unfold endswith. rewrite len_app.
  replace (len a + len suf - len suf)%nat with (len a) by lia.
  rewrite drop_chars_app, String.eqb_refl.
  rewrite andb_true_r. apply Nat.leb_le. lia.
Qed.

Lemma terminated_endswith (s : string) :
  endswith LF (CodeEditor.terminated s) = true.
Proof.
  unfold CodeEditor.terminated. destruct (endswith LF s) eqn:H; [exact H |].
  apply endswith_app.
Qed.

(** [''.join] of a list whose last item is [x]. *)
Lemma join_empty_snoc (l : list string) (x : string) :
  join EmptyString (l ++ [x]) = join EmptyString l +:+ x.
Proof.
  induction l as [|y l IH]; simpl; [reflexivity |].
  destruct l as [|z l]; simpl in *; [reflexivity |].
  rewrite IH. now rewrite !app_assoc.
Qed.

End PyStrFacts.

(* ===================================================================== *)
(** * Facts about paths: a backup never lands on the file it copies *)
(* ===================================================================== *)

Module PathFacts.
Import PyStr PyStrFacts PosixPath.

#[local] Arguments String.append !_ _ / : simpl nomatch.

Lemma take_drop_chars (n : nat) (s : string) : take_chars n s +:+ drop_chars n s = s.
Proof.
  revert s. induction n as [|n IH]; intros [|c s]; simpl; try reflexivity.
  now rewrite IH.
Qed.

Lemma endswith_inv (suf s : string) :
  endswith suf s = true -> exists a, s = a +:+ suf.
Proof.
  unfold endswith. intros H. apply andb_true_iff in H as [_ H].
  apply String.eqb_eq in H. exists (take_chars (len s - len suf) s).
  pose proof (take_drop_chars (len s - len suf) s) as Htd.
  rewrite H in Htd. now symmetry.
Qed.

Lemma endswith_app_r (suf a b : string) :
  endswith suf b = true -> endswith suf (a +:+ b) = true.
Proof.
  intros H. destruct (endswith_inv _ _ H) as [b' ->].
  rewrite <- app_assoc. apply endswith_app.
Qed.

Lemma truthy_false (s : string) : truthy s = false -> s = EmptyString.
Proof.
  unfold truthy. intros H. apply negb_false_iff in H. now apply String.eqb_eq in H.
Qed.

Lemma truthy_len (s : string) : (0 < len s)%nat -> truthy s = true.
Proof. destruct s; simpl; [lia | reflexivity]. Qed.

Lemma has_slash_app (a b : string) :
  has_slash (a +:+ b) = has_slash a || has_slash b.
Proof.
  induction a as [|c a IH]; simpl; [reflexivity |].
  now rewrite IH, orb_assoc.
Qed.

Lemma split_no_slash (s : string) :
  has_slash s = false -> split_at_last_slash s = (EmptyString, s).
Proof.
  induction s as [|c s IH]; simpl; [reflexivity |].
  intros H. apply orb_false_iff in H as [Hc Hs].
  rewrite (IH Hs). simpl. now rewrite Hc.
Qed.

Lemma split_fst_empty (s : string) :
  fst (split_at_last_slash s) = EmptyString -> has_slash s = false.
Proof.
  induction s as [|c s IH]; simpl; [reflexivity |].
  destruct (split_at_last_slash s) as [h t] eqn:Hsp. simpl in IH.
  destruct (truthy h) eqn:Hh; simpl; [discriminate |].
  destruct (Ascii.eqb c slash) eqn:Hc; simpl; [discriminate |].
  intros _. apply IH. now apply truthy_false.
Qed.

Lemma basename_no_slash (s : string) : has_slash (basename s) = false.
Proof.
  unfold basename. induction s as [|c s IH]; simpl; [reflexivity |].
  destruct (split_at_last_slash s) as [h t] eqn:Hsp. simpl in IH.
  destruct (truthy h) eqn:Hh; simpl; [exact IH |].
  assert (Hs : has_slash s = false).
  { apply split_fst_empty. rewrite Hsp. simpl. now apply truthy_false. }
  destruct (Ascii.eqb c slash) eqn:Hc; simpl; [exact Hs |].
  now rewrite Hc, Hs.
Qed.

(** The last component of [x/b] is [b]. *)
Lemma basename_app_slash (x b : string) :
  has_slash b = false -> basename (x +:+ "/" +:+ b) = b.
Proof.
  intros Hb. unfold basename.
  change ("/" +:+ b) with (String slash b).
  induction x as [|c x IH]; simpl.
  - rewrite (split_no_slash _ Hb). reflexivity.
  - destruct (split_at_last_slash (x +:+ String slash b)) as [h t] eqn:Hsp.
    simpl in IH.
    destruct (truthy h) eqn:Hh; simpl; [exact IH |].
    exfalso. apply truthy_false in Hh. subst h.
    pose proof (split_fst_empty (x +:+ String slash b)) as Hno.
    rewrite Hsp in Hno. specialize (Hno eq_refl).
    rewrite has_slash_app in Hno. simpl in Hno.
    rewrite orb_true_r in Hno. discriminate.
Qed.

Lemma startswith_slash (b : string) :
  has_slash b = false -> startswith "/" b = false.
Proof.
  destruct b as [|c b]; [reflexivity |].
  intros H. simpl in H. apply orb_false_iff in H as [Hc _].
  change (startswith "/" (String c b))
    with (if Ascii.eqb slash c then startswith EmptyString b else false).
  now rewrite Ascii.eqb_sym, Hc.
Qed.

Lemma basename_join (a b : string) :
  has_slash b = false -> basename (join a b) = b.
Proof.
  intros Hb. unfold join. rewrite (startswith_slash _ Hb).
  destruct (truthy a) eqn:Ha; simpl.
  - destruct (endswith "/" a) eqn:He.
    + destruct (endswith_inv _ _ He) as [a' ->].
      rewrite app_assoc. now apply basename_app_slash.
    + now apply basename_app_slash.
  - apply truthy_false in Ha. subst a. simpl.
    unfold basename. now rewrite (split_no_slash _ Hb).
Qed.

Lemma digit_not_slash (n : nat) : Ascii.eqb (digit n) slash = false.
Proof.
  unfold digit. pose proof (Nat.mod_upper_bound n 10 ltac:(lia)) as Hlt.
  destruct (n mod 10)%nat as [|[|[|[|[|[|[|[|[|[|k]]]]]]]]]];
    try reflexivity; lia.
Qed.

Lemma pad2_no_slash (n : nat) : has_slash (pad2 n) = false.
Proof. unfold pad2. cbn [has_slash]. now rewrite !digit_not_slash. Qed.

Lemma strftime_no_slash (d : datetime) : has_slash (strftime d) = false.
Proof.
  unfold strftime, pad4. rewrite !has_slash_app. cbn [has_slash].
  rewrite !digit_not_slash, !pad2_no_slash. reflexivity.
Qed.

Lemma backup_name_no_slash (d : datetime) (p : string) :
  has_slash (basename p +:+ "." +:+ strftime d +:+ ".bak") = false.
Proof.
  rewrite !has_slash_app, basename_no_slash, strftime_no_slash. reflexivity.
Qed.

Lemma basename_backup_path (E : env) (p : string) :
  basename (CodeEditor.backup_path_for E p)
  = basename p +:+ "." +:+ strftime (now E) +:+ ".bak".
Proof.
  unfold CodeEditor.backup_path_for. apply basename_join, backup_name_no_slash.
Qed.

(** The backup of a file is another file. *)
Lemma backup_path_neq (E : env) (p : string) :
  CodeEditor.backup_path_for E p <> p.
Proof.
  intros H. pose proof (basename_backup_path E p) as Hb.
  rewrite H in Hb. apply (f_equal len) in Hb.
  rewrite !len_app in Hb. simpl in Hb. lia.
Qed.

Lemma backup_path_truthy (E : env) (p : string) :
  truthy (CodeEditor.backup_path_for E p) = true.
Proof.
  destruct (CodeEditor.backup_path_for E p) as [|c s] eqn:Hbp; [| reflexivity].
  pose proof (basename_backup_path E p) as Hb. rewrite Hbp in Hb.
  apply (f_equal len) in Hb. rewrite !len_app in Hb. simpl in Hb. lia.
Qed.

End PathFacts.
(* ===================================================================== *)
(** * Reading a file back: the decoder and the line ends at known bytes *)
(* ===================================================================== *)

Module TextIOFacts.
Import TextIO.

(** The empty text, [x], U+00E9, U+20AC, U+1F600, U+D7FF and U+10FFFF
    are accepted. *)
Example utf8_valid_accepts :
  Forall (fun l => utf8_valid (Examples.of_bytes l) = true)
    [ []; [120]; [195; 169]; [226; 130; 172]; [240; 159; 152; 128];
      [237; 159; 191]; [244; 143; 191; 191] ]%nat.
Proof. repeat constructor. Qed.

(** A byte that starts no sequence, a continuation byte alone,
    overlong forms, a surrogate, a code point above U+10FFFF and
    sequences cut short are rejected. *)
Example utf8_valid_rejects :
  Forall (fun l => utf8_valid (Examples.of_bytes l) = false)
    [ [255]; [128]; [192; 128]; [193; 191]; [224; 128; 128];
      [237; 160; 128]; [240; 128; 128; 128]; [244; 144; 128; 128];
      [245; 128; 128; 128]; [226; 130]; [195]; [195; 40] ]%nat.
Proof. repeat constructor. Qed.

(** [a\r\nb\rc\n] is read as [a\nb\nc\n], and [x], U+00E9, U+20AC are
    three characters in six bytes. *)
Example universal_newlines_example :
  universal_newlines (Examples.of_bytes [97; 13; 10; 98; 13; 99; 10]%nat)
  = Examples.of_bytes [97; 10; 98; 10; 99; 10]%nat /\
  code_points (Examples.of_bytes [120; 195; 169; 226; 130; 172]%nat) = 3%nat.
Proof. split; reflexivity. Qed.

Lemma read_utf8_missing (E : env) (fs : filesystem) (p : string) :
  fs !! p = None ->
  exists msg, read_utf8 E fs p = inl (FileNotFoundError msg).
Proof. intros H. unfold read_utf8. rewrite H. eauto. Qed.

End TextIOFacts.


(* ===================================================================== *)
(** * The core apply routine: backup, validation gate, write, rollback *)
(* ===================================================================== *)

Module ApplyEditFacts.
Import PyStr PyStrFacts PathFacts CodeEditor.

Lemma create_backup_found (E : env) (fs : filesystem) (p c : string) :
  fs !! p = Some c ->
  create_backup E fs p
  = inr (backup_path_for E p, <[backup_path_for E p := c]> fs).
Proof.
  intros H. unfold create_backup, path_exists, copy2. now rewrite H.
Qed.

Lemma create_backup_missing (E : env) (fs : filesystem) (p : string) :
  fs !! p = None ->
  create_backup E fs p = inl (FileNotFoundError ("File not found: " +:+ p)).
Proof. intros H. unfold create_backup, path_exists. now rewrite H. Qed.

Lemma invalid_has_message (E : env) (content : string) :
  valid (validate_python_syntax E content) = false ->
  exists msg, v_error (validate_python_syntax E content) = Some msg.
Proof.
  unfold validate_python_syntax. destruct (parse E content); simpl; eauto.
  discriminate.
Qed.

Lemma not_parsed_invalid (E : env) (content : string) :
  (forall tree, parse E content <> Parsed tree) ->
  valid (validate_python_syntax E content) = false.
Proof.
  intros H. unfold validate_python_syntax.
  destruct (parse E content) eqn:Hp; simpl; try reflexivity.
  now destruct (H tree).
Qed.

(** [apply_edit] when the gate rejects the content. *)
Lemma apply_edit_rejected (E : env) (fs : filesystem) (p content : string)
    (validate cb : bool) :
  gate_rejects E p content validate = true ->
  apply_edit E fs p content validate cb
  = match (if cb then fs !! p else Some content) with
    | None =>
        (fs, set_error (Some ("File not found: " +:+ p)) initial_result)
    | Some c =>
        let v := validate_python_syntax E content in
        ((if cb then <[backup_path_for E p := c]> fs else fs),
         set_error (Some ("Syntax validation failed: " +:+ fmt_opt (v_error v)))
           (set_validation (Some v)
              (set_backup_path
                 (if cb then Some (backup_path_for E p) else None)
                 initial_result)))
    end.
Proof.
  unfold gate_rejects. intros H.
  apply andb_true_iff in H as [H Hv]. unfold apply_edit. rewrite H, Hv.
  destruct cb; [| reflexivity].
  destruct (fs !! p) as [c|] eqn:Hp.
  - now rewrite (create_backup_found E fs p c Hp).
  - now rewrite (create_backup_missing E fs p Hp).
Qed.

(** [apply_edit] when the gate lets the content through. *)
Lemma apply_edit_admitted (E : env) (fs : filesystem) (p content : string)
    (validate cb : bool) :
  gate_rejects E p content validate = false ->
  apply_edit E fs p content validate cb
  = match (if cb then fs !! p else Some content) with
    | None =>
        (fs, set_error (Some ("File not found: " +:+ p)) initial_result)
    | Some c =>
        let fs1 := if cb then <[backup_path_for E p := c]> fs else fs in
        let result :=
          (if validate && endswith ".py" p
           then set_validation (Some (validate_python_syntax E content))
           else fun r => r)
            (set_backup_path
               (if cb then Some (backup_path_for E p) else None)
               initial_result) in
        match write_text E fs1 p content with
        | inr fs2 => (fs2, set_success true result)
        | inl (e, fs2) => apply_edit_handler E fs2 p result e
        end
    end.
Proof.
  unfold gate_rejects. intros H. unfold apply_edit.
  destruct cb.
  - destruct (fs !! p) as [c|] eqn:Hp.
    + rewrite (create_backup_found E fs p c Hp).
      destruct (validate && endswith ".py" p); simpl in *; [| reflexivity].
      now rewrite H.
    + now rewrite (create_backup_missing E fs p Hp).
  - destruct (validate && endswith ".py" p); simpl in *; [| reflexivity].
    now rewrite H.
Qed.

(** A successful edit wrote the new content and touched no file but
    the target and, when asked to, the backup. *)
Lemma apply_edit_success (E : env) (fs : filesystem) (p content : string)
    (validate cb : bool) :
  success (apply_edit E fs p content validate cb).2 = true ->
  (apply_edit E fs p content validate cb).1 !! p = Some content /\
  gate_rejects E p content validate = false /\
  write_fault E = None /\
  forall q, q <> p -> q <> backup_path_for E p ->
            (apply_edit E fs p content validate cb).1 !! q = fs !! q.
Proof.
  destruct (gate_rejects E p content validate) eqn:Hg.
  - rewrite (apply_edit_rejected _ _ _ _ _ _ Hg).
    destruct (if cb then fs !! p else Some content); simpl; discriminate.
  - rewrite (apply_edit_admitted _ _ _ _ _ _ Hg).
    destruct (if cb then fs !! p else Some content) as [c|]; simpl;
      [| discriminate].
    unfold write_text. destruct (write_fault E) as [w|]; simpl.
    + unfold apply_edit_handler.
      repeat (match goal with
              | |- context [match ?x with _ => _ end] => destruct x; simpl
              end); discriminate.
    + intros _. rewrite lookup_insert_eq. repeat split; try reflexivity.
      intros q Hq Hb. rewrite lookup_insert_ne by congruence.
      destruct cb; [| reflexivity]. now rewrite lookup_insert_ne by congruence.
Qed.

(** The edit goes through when the backup can be made, the gate lets
    the content pass and the write does not raise. *)
Lemma apply_edit_succeeds (E : env) (fs : filesystem) (p content : string)
    (validate cb : bool) :
  (cb = true -> is_Some (fs !! p)) ->
  gate_rejects E p content validate = false ->
  write_fault E = None ->
  success (apply_edit E fs p content validate cb).2 = true.
Proof.
  intros Hex Hg Hw. rewrite (apply_edit_admitted _ _ _ _ _ _ Hg).
  unfold write_text. rewrite Hw. destruct cb; simpl; [| reflexivity].
  destruct (Hex eq_refl) as [c ->]. reflexivity.
Qed.

(** A rejected edit leaves the target as it was. *)
Lemma apply_edit_rejected_unchanged (E : env) (fs : filesystem)
    (p content : string) (validate cb : bool) :
  gate_rejects E p content validate = true ->
  success (apply_edit E fs p content validate cb).2 = false /\
  (apply_edit E fs p content validate cb).1 !! p = fs !! p.
Proof.
  intros Hg. rewrite (apply_edit_rejected _ _ _ _ _ _ Hg).
  destruct cb; simpl; [| now split].
  destruct (fs !! p) as [c|] eqn:Hp; simpl; [| now split].
  split; [reflexivity |].
  rewrite lookup_insert_ne; [exact Hp | apply backup_path_neq].
Qed.

End ApplyEditFacts.

(* ===================================================================== *)
(** * Properties of [apply_edit] and of the backup store *)
(* ===================================================================== *)

Module ApplyEdit.
Import PyStr PyStrFacts PathFacts CodeEditor ApplyEditFacts.

(** C1.  An [apply_edit] call on a [.py] file with [validate=True]
    whose new content does not parse returns a failure, does not write
    the target (its content is what it was before the call; only the
    backup file, if one was asked for, is new), and restores nothing.
    When the backup step did not itself raise (no backup asked for, or
    the target exists) the result carries the syntax error: the
    validation dictionary with [valid = False] and the parser's message,
    line and offset, and the error text built from that message. *)
Theorem apply_edit_invalid_python_not_written
    (E : env) (fs : filesystem) (file_path new_content : string)
    (create_backup_ : bool) :
  endswith ".py" file_path = true ->
  (forall tree, parse E new_content <> Parsed tree) ->
  let res := apply_edit E fs file_path new_content true create_backup_ in
  let v := validate_python_syntax E new_content in
  success res.2 = false /\
  restored res.2 = false /\
  res.1 !! file_path = fs !! file_path /\
  (forall q, q <> backup_path_for E file_path -> res.1 !! q = fs !! q) /\
  ((create_backup_ = true -> is_Some (fs !! file_path)) ->
   exists msg,
     v_error v = Some msg /\ valid v = false /\
     validation_ res.2 = Some v /\
     error res.2 = Some ("Syntax validation failed: " +:+ msg) /\
     forall m l o, parse E new_content = RaisesSyntaxError m l o ->
                   msg = m /\ v_line v = l /\ v_offset v = o).
Proof.
  intros Hpy Hbad res v.
  pose proof (not_parsed_invalid E new_content Hbad) as Hinv.
  assert (Hg : gate_rejects E file_path new_content true = true).
  { unfold gate_rejects. now rewrite Hpy, Hinv. }
  assert (Hdetail : exists msg,
            v_error v = Some msg /\ valid v = false /\
            forall m l o, parse E new_content = RaisesSyntaxError m l o ->
                          msg = m /\ v_line v = l /\ v_offset v = o).
  { subst v. unfold validate_python_syntax in *.
    destruct (parse E new_content) as [t|m l o|m] eqn:Hp; simpl in *.
    - discriminate.
    - exists m. repeat split; congruence.
    - exists m. repeat split; congruence. }
  destruct Hdetail as (msg & Hmsg & _ & Hsyn).
  subst res. rewrite (apply_edit_rejected _ _ _ _ _ _ Hg).
  destruct create_backup_.
  - destruct (fs !! file_path) as [c|] eqn:Hp; simpl.
    + split; [reflexivity |]. split; [reflexivity |]. split; [| split].
      * destruct (decide (backup_path_for E file_path = file_path)) as [->|Hne].
        -- now rewrite lookup_insert_eq.
        -- now rewrite lookup_insert_ne.
      * intros q Hq. now rewrite lookup_insert_ne.
      * intros _. exists msg. fold v. rewrite Hmsg. simpl.
        split; [reflexivity |]. split; [exact Hinv |]. split; [reflexivity |].
        split; [reflexivity | exact Hsyn].
    + split; [reflexivity |]. split; [reflexivity |].
      split; [congruence |]. split; [reflexivity |].
      intros Hex. destruct (Hex eq_refl) as [c Hc]. discriminate.
  - simpl. split; [reflexivity |]. split; [reflexivity |].
    split; [reflexivity |]. split; [reflexivity |].
    intros _. exists msg. fold v. rewrite Hmsg. simpl.
        split; [reflexivity |]. split; [exact Hinv |]. split; [reflexivity |].
        split; [reflexivity | exact Hsyn].
Qed.

(** C6.  With [create_backup=True] on an existing file the backup is
    made before the syntax check: when the validation gate rejects the
    edit, the result still names a backup, that backup exists and holds
    the content the file had, and the edit was not applied. *)
Theorem backup_made_before_validation
    (E : env) (fs : filesystem) (file_path new_content c : string) :
  fs !! file_path = Some c ->
  endswith ".py" file_path = true ->
  (forall tree, parse E new_content <> Parsed tree) ->
  let res := apply_edit E fs file_path new_content true true in
  let bp := backup_path_for E file_path in
  backup_path res.2 = Some bp /\
  bp <> file_path /\
  res.1 !! bp = Some c /\
  success res.2 = false /\
  res.1 !! file_path = Some c /\
  exists v, validation_ res.2 = Some v /\ valid v = false.
Proof.
  intros Hp Hpy Hbad res bp.
  pose proof (not_parsed_invalid E new_content Hbad) as Hinv.
  assert (Hg : gate_rejects E file_path new_content true = true).
  { unfold gate_rejects. now rewrite Hpy, Hinv. }
  subst res. rewrite (apply_edit_rejected _ _ _ _ _ _ Hg), Hp. simpl.
  pose proof (backup_path_neq E file_path) as Hne. fold bp in Hne |- *.
  repeat split; try assumption.
  - apply lookup_insert_eq.
  - now rewrite lookup_insert_ne.
  - eauto.
Qed.

(** C7.  The rollback of [apply_edit] ([restored = True]) happens only
    when the write raised after a backup was made, and then the file
    holds the content of that backup, which is its content before the
    call; a rejection by the validation gate restores nothing and
    writes nothing; and a write that raises after a backup was made is
    rolled back whenever the restoring copy does not raise as well. *)
Theorem rollback_only_after_failed_write
    (E : env) (fs : filesystem) (file_path new_content : string)
    (validate create_backup_ : bool) :
  let res := apply_edit E fs file_path new_content validate create_backup_ in
  let bp := backup_path_for E file_path in
  (restored res.2 = true ->
     create_backup_ = true /\
     gate_rejects E file_path new_content validate = false /\
     exists c w,
       fs !! file_path = Some c /\
       create_backup E fs file_path = inr (bp, <[bp := c]> fs) /\
       backup_path res.2 = Some bp /\
       write_fault E = Some w /\
       success res.2 = false /\
       error res.2 = Some (str_exn (wf_exn w)) /\
       res.1 !! bp = Some c /\
       res.1 !! file_path = Some c) /\
  (gate_rejects E file_path new_content validate = true ->
     restored res.2 = false /\ success res.2 = false /\
     res.1 !! file_path = fs !! file_path) /\
  (create_backup_ = true -> is_Some (fs !! file_path) ->
   gate_rejects E file_path new_content validate = false ->
   is_Some (write_fault E) -> restore_fault E = None ->
     restored res.2 = true).
Proof.
  intros res bp. subst res bp.
  pose proof (backup_path_neq E file_path) as Hne.
  pose proof (backup_path_truthy E file_path) as Ht.
  pose proof (create_backup_found E fs file_path) as Hcb.
  destruct (gate_rejects E file_path new_content validate) eqn:Hg.
  - rewrite (apply_edit_rejected _ _ _ _ _ _ Hg).
    set (bp := backup_path_for E file_path) in *. clearbody bp.
    split; [| split]; try discriminate.
    + destruct create_backup_; simpl; [| discriminate].
      destruct (fs !! file_path); simpl; discriminate.
    + intros _. destruct create_backup_; simpl; [| now repeat split].
      destruct (fs !! file_path) as [c|] eqn:Hp; simpl; [| now repeat split].
      repeat split. now rewrite lookup_insert_ne.
  - rewrite (apply_edit_admitted _ _ _ _ _ _ Hg).
    set (bp := backup_path_for E file_path) in *. clearbody bp.
    assert (Hleft : forall c w,
              (match wf_left w with
               | Some c0 => <[file_path := c0]> (<[bp := c]> fs)
               | None => <[bp := c]> fs
               end) !! bp = Some c).
    { intros c w. destruct (wf_left w).
      - rewrite lookup_insert_ne by congruence. apply lookup_insert_eq.
      - apply lookup_insert_eq. }
    split; [| split]; try discriminate.
    + destruct create_backup_.
      * destruct (fs !! file_path) as [c|] eqn:Hp; simpl; [| discriminate].
        unfold write_text. destruct (write_fault E) as [w|] eqn:Hw;
          [| destruct (validate && endswith ".py" file_path); discriminate].
        unfold apply_edit_handler, path_exists, copy2.
        destruct (validate && endswith ".py" file_path); simpl;
          rewrite (Hleft c w), Ht; simpl;
          (destruct (restore_fault E); simpl; [discriminate |]);
          intros _; (split; [reflexivity |]); (split; [reflexivity |]);
          exists c, w; rewrite (Hcb c eq_refl);
          (split; [reflexivity |]); (split; [reflexivity |]);
          (split; [reflexivity |]); (split; [reflexivity |]);
          (split; [reflexivity |]); (split; [reflexivity |]);
          (split; [rewrite lookup_insert_ne by congruence; apply Hleft
                  | apply lookup_insert_eq]).
      * simpl. unfold write_text.
        destruct (write_fault E) as [w|];
          destruct (validate && endswith ".py" file_path); simpl; discriminate.
    + intros -> [c Hp] _ [w Hw] Hr. rewrite Hp. simpl.
      unfold write_text. rewrite Hw.
      unfold apply_edit_handler, path_exists, copy2.
      destruct (validate && endswith ".py" file_path); simpl;
        rewrite (Hleft c w), Ht, Hr; reflexivity.
Qed.

(** C8.  For a path whose file exists, [create_backup] returns a
    backup path other than the path of the file, and the backup holds
    the bytes of the file; no other file changes.  If these bytes are
    UTF-8, [compare_with_backup] of the file with that backup, right
    after, reports [identical = True], a size difference of 0, equal
    line counts and no error.  If they are not, it reports
    [identical = False] and the error of the decoder, although the
    backup is the same, byte for byte.  For a path that does not
    exist [create_backup] raises [FileNotFoundError]. *)
Theorem backup_identical_on_creation
    (E : env) (fs : filesystem) (file_path : string) :
  (forall c, fs !! file_path = Some c ->
     exists bp fs',
       create_backup E fs file_path = inr (bp, fs') /\
       bp <> file_path /\
       fs' !! bp = Some c /\ fs' !! file_path = Some c /\
       (forall q, q <> bp -> fs' !! q = fs !! q) /\
       let cmp := compare_with_backup E fs' file_path bp in
       (TextIO.utf8_valid c = true ->
          identical cmp = true /\
          size_difference cmp = 0 /\
          current_lines cmp = backup_lines cmp /\
          cmp_error cmp = None) /\
       (TextIO.utf8_valid c = false ->
          identical cmp = false /\
          cmp_error cmp = Some (decode_error E c))) /\
  (fs !! file_path = None ->
     create_backup E fs file_path
     = inl (FileNotFoundError ("File not found: " +:+ file_path))).
Proof.
  split.
  - intros c Hp. pose proof (backup_path_neq E file_path) as Hne.
    exists (backup_path_for E file_path),
           (<[backup_path_for E file_path := c]> fs).
    assert (H1 : <[backup_path_for E file_path := c]> fs
                   !! backup_path_for E file_path = Some c)
      by apply lookup_insert_eq.
    assert (H2 : <[backup_path_for E file_path := c]> fs !! file_path = Some c)
      by now rewrite lookup_insert_ne.
    split; [now apply create_backup_found |].
    split; [exact Hne |]. split; [exact H1 |]. split; [exact H2 |].
    split; [intros q Hq; now rewrite lookup_insert_ne |].
    unfold compare_with_backup, TextIO.read_utf8. rewrite H1, H2.
    split; intros Hv; rewrite Hv; cbn.
    + rewrite String.eqb_refl. repeat split; lia.
    + split; reflexivity.
  - apply create_backup_missing.
Qed.

(** ** The theorems at concrete inputs *)

Example backup_path_example :
  backup_path_for Examples.calm "src/m.py"
  = "backups/src/m.py.20240115_120000.bak".
Proof. vm_compute. reflexivity. Qed.

Lemma apply_edit_invalid_python_not_written_witness :
  endswith ".py" "m.py" = true /\
  (forall tree, parse Examples.calm Examples.src_unclosed <> Parsed tree) /\
  let res := apply_edit Examples.calm
               (Examples.one_file "m.py" Examples.src_assign)
               "m.py" Examples.src_unclosed true true in
  success res.2 = false /\
  res.1 !! "m.py" = Examples.one_file "m.py" Examples.src_assign !! "m.py" /\
  exists msg, error res.2 = Some ("Syntax validation failed: " +:+ msg).
Proof.
  assert (h1 : endswith ".py" "m.py" = true) by reflexivity.
  assert (h2 : forall tree,
             parse Examples.calm Examples.src_unclosed <> Parsed tree)
    by (intros tree; vm_compute; discriminate).
  split; [exact h1 |]. split; [exact h2 |].
  pose proof (apply_edit_invalid_python_not_written Examples.calm
                (Examples.one_file "m.py" Examples.src_assign)
                "m.py" Examples.src_unclosed true h1 h2) as H.
  cbv zeta in H. destruct H as (Hs & _ & Hf & _ & Hd). cbv zeta.
  split; [exact Hs |]. split; [exact Hf |].
  destruct Hd as (msg & _ & _ & _ & He & _).
  - intros _. eexists. vm_compute. reflexivity.
  - exists msg. exact He.
Defined.

Lemma backup_made_before_validation_witness :
  Examples.one_file "m.py" Examples.src_assign !! "m.py"
    = Some Examples.src_assign /\
  endswith ".py" "m.py" = true /\
  (forall tree, parse Examples.calm Examples.src_unclosed <> Parsed tree) /\
  let res := apply_edit Examples.calm
               (Examples.one_file "m.py" Examples.src_assign)
               "m.py" Examples.src_unclosed true true in
  backup_path res.2 = Some (backup_path_for Examples.calm "m.py") /\
  res.1 !! backup_path_for Examples.calm "m.py" = Some Examples.src_assign /\
  success res.2 = false.
Proof.
  assert (h0 : Examples.one_file "m.py" Examples.src_assign !! "m.py"
               = Some Examples.src_assign) by (vm_compute; reflexivity).
  assert (h1 : endswith ".py" "m.py" = true) by reflexivity.
  assert (h2 : forall tree,
             parse Examples.calm Examples.src_unclosed <> Parsed tree)
    by (intros tree; vm_compute; discriminate).
  split; [exact h0 |]. split; [exact h1 |]. split; [exact h2 |].
  pose proof (backup_made_before_validation Examples.calm _ _ _ _ h0 h1 h2) as H.
  cbv zeta in H. destruct H as (Hb & _ & Hc & Hs & _). cbv zeta.
  split; [exact Hb |]. split; [exact Hc | exact Hs].
Defined.

Lemma rollback_only_after_failed_write_witness :
  is_Some (Examples.one_file "m.py" Examples.src_assign !! "m.py") /\
  gate_rejects Examples.disk_full "m.py" Examples.src_two_f true = false /\
  is_Some (write_fault Examples.disk_full) /\
  restore_fault Examples.disk_full = None /\
  let res := apply_edit Examples.disk_full
               (Examples.one_file "m.py" Examples.src_assign)
               "m.py" Examples.src_two_f true true in
  restored res.2 = true /\
  exists c, Examples.one_file "m.py" Examples.src_assign !! "m.py" = Some c /\
            res.1 !! "m.py" = Some c.
Proof.
  assert (h0 : is_Some (Examples.one_file "m.py" Examples.src_assign !! "m.py"))
    by (eexists; vm_compute; reflexivity).
  assert (h1 : gate_rejects Examples.disk_full "m.py" Examples.src_two_f true
               = false) by (vm_compute; reflexivity).
  assert (h2 : is_Some (write_fault Examples.disk_full))
    by (eexists; reflexivity).
  assert (h3 : restore_fault Examples.disk_full = None) by reflexivity.
  split; [exact h0 |]. split; [exact h1 |]. split; [exact h2 |].
  split; [exact h3 |].
  pose proof (rollback_only_after_failed_write Examples.disk_full
                (Examples.one_file "m.py" Examples.src_assign)
                "m.py" Examples.src_two_f true true) as H.
  cbv zeta in H. destruct H as (Honly & _ & Hroll). cbv zeta.
  pose proof (Hroll eq_refl h0 h1 h2 h3) as Hr.
  split; [exact Hr |].
  destruct (Honly Hr) as (_ & _ & c & w & Hc & _ & _ & _ & _ & _ & _ & Hf).
  exists c. split; [exact Hc | exact Hf].
Defined.

Lemma backup_identical_on_creation_witness :
  Examples.one_file "src/m.py" Examples.src_assign !! "src/m.py"
    = Some Examples.src_assign /\
  TextIO.utf8_valid Examples.src_assign = true /\
  Examples.one_file "src/m.py" Examples.src_assign !! "src/n.py" = None /\
  (exists bp fs',
     create_backup Examples.calm
       (Examples.one_file "src/m.py" Examples.src_assign) "src/m.py"
     = inr (bp, fs') /\
     bp <> "src/m.py" /\
     identical (compare_with_backup Examples.calm fs' "src/m.py" bp) = true) /\
  create_backup Examples.calm
    (Examples.one_file "src/m.py" Examples.src_assign) "src/n.py"
  = inl (FileNotFoundError "File not found: src/n.py").
Proof.
  assert (h0 : Examples.one_file "src/m.py" Examples.src_assign !! "src/m.py"
               = Some Examples.src_assign) by (vm_compute; reflexivity).
  assert (h1 : Examples.one_file "src/m.py" Examples.src_assign !! "src/n.py"
               = None) by (vm_compute; reflexivity).
  assert (h2 : TextIO.utf8_valid Examples.src_assign = true) by reflexivity.
  split; [exact h0 |]. split; [exact h2 |]. split; [exact h1 |].
  destruct (backup_identical_on_creation Examples.calm
              (Examples.one_file "src/m.py" Examples.src_assign) "src/m.py")
    as [Hmade _].
  destruct (backup_identical_on_creation Examples.calm
              (Examples.one_file "src/m.py" Examples.src_assign) "src/n.py")
    as [_ Hmiss].
  split.
  - destruct (Hmade _ h0) as (bp & fs' & Hc & Hne & _ & _ & _ & Hcmp).
    cbv zeta in Hcmp. destruct Hcmp as [Hvalid _].
    destruct (Hvalid h2) as (Hi & _).
    exists bp, fs'. split; [exact Hc |]. split; [exact Hne | exact Hi].
  - exact (Hmiss h1).
Defined.

(** C8 as stated fails: the file exists, the backup is made and holds
    the bytes of the file, yet [compare_with_backup], right after,
    reports [identical = False], because the file is not UTF-8 and
    reading it raises. *)
Lemma backup_identical_on_creation_counterexample :
  let fs := Examples.one_file "src/m.py" Examples.latin_file in
  fs !! "src/m.py" = Some Examples.latin_file /\
  exists bp fs',
    create_backup Examples.calm fs "src/m.py" = inr (bp, fs') /\
    fs' !! bp = fs' !! "src/m.py" /\
    identical (compare_with_backup Examples.calm fs' "src/m.py" bp) = false /\
    cmp_error (compare_with_backup Examples.calm fs' "src/m.py" bp)
    = Some Examples.invalid_start_byte.
Proof.
  cbv zeta. split; [vm_compute; reflexivity |].
  eexists _, _. split; [vm_compute; reflexivity |].
  split; [vm_compute; reflexivity |].
  split; vm_compute; reflexivity.
Qed.

End ApplyEdit.

(* ===================================================================== *)
(** * Substring and line replacement *)
(* ===================================================================== *)

Module PartialEdits.
Import PyStr PyStrFacts PathFacts CodeEditor ApplyEditFacts.

(** C2, as the code has it.  On a readable file [apply_partial_edit]
    - fails with "Old code not found in file" when [old] does not occur;
    - fails with "No changes were made" when [old] occurs and the
      replacement equals it;
    - otherwise hands to [apply_edit] the content in which the first
      occurrence of [old], and nothing else, is replaced by [new]: the
      file holds exactly that text when the edit succeeds (it does
      when the validation gate lets the text pass and the write does
      not raise), and keeps its content when the gate rejects it. *)
Theorem apply_partial_edit_spec
    (E : env) (fs : filesystem) (file_path old_code new_code : string)
    (validate create_backup_ : bool) (content : string) :
  fs !! file_path = Some content ->
  let res :=
    apply_partial_edit E fs file_path old_code new_code validate create_backup_ in
  ((forall a b, content <> a +:+ old_code +:+ b) ->
     res = (fs, set_error (Some "Old code not found in file") initial_result)) /\
  ((exists a b, content = a +:+ old_code +:+ b) -> new_code = old_code ->
     res = (fs, set_error (Some "No changes were made") initial_result)) /\
  ((exists a b, content = a +:+ old_code +:+ b) -> new_code <> old_code ->
     let new_content := replace_first old_code new_code content in
     let edit := apply_edit E fs file_path new_content validate create_backup_ in
     (exists a b, first_occurrence old_code content a b /\
                  new_content = a +:+ new_code +:+ b) /\
     res = (edit.1, update (set_changes_made true initial_result) edit.2) /\
     (success res.2 = true -> res.1 !! file_path = Some new_content) /\
     (gate_rejects E file_path new_content validate = false ->
      write_fault E = None -> success res.2 = true) /\
     (gate_rejects E file_path new_content validate = true ->
        success res.2 = false /\ res.1 !! file_path = Some content)).
Proof.
  intros Hp res. subst res. unfold apply_partial_edit, read_text. rewrite Hp.
  split; [| split].
  - intros Habs. destruct (contains old_code content) eqn:Hc; [| reflexivity].
    apply contains_iff in Hc as (a & b & Hs). now destruct (Habs a b).
  - intros Hocc ->. apply contains_iff in Hocc. rewrite Hocc. simpl.
    assert (Hn : replace_first old_code old_code content = content)
      by now apply replace_first_noop.
    now rewrite Hn, String.eqb_refl.
  - intros Hocc Hne. apply contains_iff in Hocc. rewrite Hocc. simpl.
    assert (Hchg : String.eqb (replace_first old_code new_code content) content
                   = false).
    { apply String.eqb_neq. intros Heq.
      now apply (replace_first_noop old_code new_code content Hocc) in Heq. }
    rewrite Hchg.
    set (new_content := replace_first old_code new_code content).
    split; [exact (contains_true old_code new_code content Hocc) |].
    pose proof (apply_edit_success E fs file_path new_content
                  validate create_backup_) as Hok.
    pose proof (apply_edit_succeeds E fs file_path new_content
                  validate create_backup_) as Hgo.
    pose proof (apply_edit_rejected_unchanged E fs file_path
                  new_content validate create_backup_) as Hrej.
    destruct (apply_edit E fs file_path new_content validate create_backup_)
      as [fs' edit] eqn:Hedit.
    simpl in *. split; [reflexivity |]. split; [| split].
    + intros Hs. now destruct (Hok Hs).
    + intros Hg Hw. apply Hgo; [| exact Hg | exact Hw]. intros _. now exists content.
    + intros Hg. destruct (Hrej Hg) as [Hs Hf]. split; [exact Hs |].
      now rewrite Hf.
Qed.

(** C5, as the code has it.  On a readable file [apply_line_edit]
    - fails with "Invalid line number" when the 1-indexed line number
      is outside [[1, len(lines)]], leaving the file as it was;
    - otherwise replaces that line, and no other, by the new line, to
      which one line feed is appended unless it already ends with one,
      and hands the joined lines to [apply_edit]; when the last line is
      the one replaced the new text ends with a line feed; the file
      holds the new text when the edit succeeds, which it does when
      the validation gate lets the text pass and the write does not
      raise. *)
Theorem apply_line_edit_spec
    (E : env) (fs : filesystem) (file_path : string) (line_number : Z)
    (new_line : string) (validate create_backup_ : bool) (content : string) :
  fs !! file_path = Some content ->
  let lines := readlines content in
  let res :=
    apply_line_edit E fs file_path line_number new_line validate create_backup_ in
  ((line_number < 1 \/ Z.of_nat (length lines) < line_number) ->
     res = (fs, set_error
                  (Some ("Invalid line number: " +:+ pretty line_number
                         +:+ " (file has " +:+ pretty (length lines)
                         +:+ " lines)"))
                  initial_result)) /\
  (1 <= line_number <= Z.of_nat (length lines) ->
     let i := Z.to_nat (line_number - 1) in
     let new_lines := <[i := terminated new_line]> lines in
     let edit :=
       apply_edit E fs file_path (join EmptyString new_lines) validate create_backup_ in
     res = (edit.1, update initial_result edit.2) /\
     new_lines !! i = Some (terminated new_line) /\
     (forall j, j <> i -> new_lines !! j = lines !! j) /\
     endswith LF (terminated new_line) = true /\
     ((endswith LF new_line = true /\ terminated new_line = new_line) \/
      (endswith LF new_line = false /\ terminated new_line = new_line +:+ LF)) /\
     (line_number = Z.of_nat (length lines) ->
        endswith LF (join EmptyString new_lines) = true) /\
     (success res.2 = true -> res.1 !! file_path = Some (join EmptyString new_lines)) /\
     (gate_rejects E file_path (join EmptyString new_lines) validate = false ->
      write_fault E = None -> success res.2 = true)).
Proof.
  intros Hp lines res. subst res. unfold apply_line_edit, read_text.
  rewrite Hp. fold lines. split.
  - intros Hout.
    assert (Hb : (line_number <? 1) || (Z.of_nat (length lines) <? line_number)
                 = true).
    { apply orb_true_iff. destruct Hout; [left | right]; now apply Z.ltb_lt. }
    now rewrite Hb.
  - intros Hin. cbv zeta.
    assert (Hb : (line_number <? 1) || (Z.of_nat (length lines) <? line_number)
                 = false).
    { apply orb_false_iff. split; apply Z.ltb_ge; lia. }
    rewrite Hb.
    set (i := Z.to_nat (line_number - 1)).
    set (new_lines := <[i := terminated new_line]> lines).
    assert (Hi : (i < length lines)%nat) by (subst i; lia).
    destruct (apply_edit E fs file_path (join EmptyString new_lines) validate
                create_backup_) as [fs' edit] eqn:Hedit.
    split; [reflexivity |]. simpl.
    split; [now apply list_lookup_insert_eq |].
    split; [intros j Hj; now apply list_lookup_insert_ne |].
    split; [apply terminated_endswith |].
    split.
    { unfold terminated. destruct (endswith LF new_line); [left | right];
        now split. }
    split.
    { intros Hlast. subst new_lines.
      rewrite insert_take_drop by exact Hi.
      rewrite (drop_ge lines (S i)) by lia.
      rewrite join_empty_snoc. apply endswith_app_r, terminated_endswith. }
    pose proof (apply_edit_success E fs file_path (join EmptyString new_lines)
                  validate create_backup_) as Hok.
    pose proof (apply_edit_succeeds E fs file_path (join EmptyString new_lines)
                  validate create_backup_) as Hgo.
    rewrite Hedit in Hok, Hgo. simpl in Hok, Hgo.
    split.
    + intros Hs. now destruct (Hok Hs).
    + intros Hg Hw. apply Hgo; [| exact Hg | exact Hw]. intros _. now exists content.
Qed.

(** ** The theorems at concrete inputs *)

Example readlines_example :
  readlines ("a" +:+ LF +:+ "b") = ["a" +:+ LF; "b"]
  /\ readlines ("a" +:+ LF) = ["a" +:+ LF]
  /\ readlines EmptyString = []
  /\ split_nl ("a" +:+ LF) = ["a"; EmptyString].
Proof. vm_compute. repeat split. Qed.

Example replace_first_example :
  replace_first "ab" "X" "cababab" = "cXabab"
  /\ replace_first EmptyString "X" "abc" = "Xabc"
  /\ find "ab" "cababab" = Some 1%nat.
Proof. vm_compute. repeat split. Qed.

(** A terminator is appended only when none is there: a new line that
    ends with two line feeds is stored as it is. *)
Example terminated_example :
  terminated "y" = "y" +:+ LF
  /\ terminated ("y" +:+ LF) = "y" +:+ LF
  /\ terminated ("y" +:+ LF +:+ LF) = "y" +:+ LF +:+ LF.
Proof. vm_compute. repeat split. Qed.

Lemma apply_partial_edit_spec_witness :
  Examples.one_file "m.py" Examples.src_assign !! "m.py"
    = Some Examples.src_assign /\
  (exists a b, Examples.src_assign = a +:+ "1" +:+ b) /\
  "2" <> "1" /\
  gate_rejects Examples.calm "m.py"
    (replace_first "1" "2" Examples.src_assign) true = false /\
  write_fault Examples.calm = None /\
  let res := apply_partial_edit Examples.calm
               (Examples.one_file "m.py" Examples.src_assign)
               "m.py" "1" "2" true true in
  success res.2 = true /\ res.1 !! "m.py" = Some Examples.src_assign_two.
Proof.
  assert (h0 : Examples.one_file "m.py" Examples.src_assign !! "m.py"
               = Some Examples.src_assign) by (vm_compute; reflexivity).
  assert (h1 : exists a b, Examples.src_assign = a +:+ "1" +:+ b)
    by (exists "x = ", LF; vm_compute; reflexivity).
  assert (h2 : "2" <> "1") by discriminate.
  assert (h3 : gate_rejects Examples.calm "m.py"
                 (replace_first "1" "2" Examples.src_assign) true = false)
    by (vm_compute; reflexivity).
  assert (h4 : write_fault Examples.calm = None) by reflexivity.
  split; [exact h0 |]. split; [exact h1 |]. split; [exact h2 |].
  split; [exact h3 |]. split; [exact h4 |].
  pose proof (apply_partial_edit_spec Examples.calm _ "m.py" "1" "2"
                true true _ h0) as H.
  cbv zeta in H. destruct H as (_ & _ & H).
  destruct (H h1 h2) as (_ & _ & Hwritten & Hgo & _). cbv zeta.
  split; [exact (Hgo h3 h4) |]. exact (Hwritten (Hgo h3 h4)).
Defined.

(** C2 as stated fails: [old] occurs, [new] differs from it, yet the
    file does not hold the replaced text, because the replaced text does
    not parse and the validation gate of [apply_edit] rejects it. *)
Lemma apply_partial_edit_counterexample :
  let fs := Examples.one_file "m.py" Examples.src_assign in
  let res := apply_partial_edit Examples.calm fs "m.py" "1" "(" true true in
  contains "1" Examples.src_assign = true /\
  "(" <> "1" /\
  replace_first "1" "(" Examples.src_assign = Examples.src_unclosed /\
  success res.2 = false /\
  error res.2 = Some "Syntax validation failed: '(' was never closed" /\
  res.1 !! "m.py" = Some Examples.src_assign /\
  res.1 !! "m.py" <> Some (replace_first "1" "(" Examples.src_assign).
Proof.
  cbv zeta. split; [reflexivity |]. split; [discriminate |].
  split; [reflexivity |]. split; [vm_compute; reflexivity |].
  split; [vm_compute; reflexivity |]. split; [vm_compute; reflexivity |].
  vm_compute. discriminate.
Qed.

Lemma apply_line_edit_spec_witness :
  Examples.one_file "m.py" Examples.src_assign !! "m.py"
    = Some Examples.src_assign /\
  (0 < 1 \/ Z.of_nat (length (readlines Examples.src_assign)) < 0) /\
  (3 < 1 \/ Z.of_nat (length (readlines Examples.src_assign)) < 3) /\
  1 <= 1 <= Z.of_nat (length (readlines Examples.src_assign)) /\
  1 = Z.of_nat (length (readlines Examples.src_assign)) /\
  gate_rejects Examples.calm "m.py" Examples.src_assign_two true = false /\
  write_fault Examples.calm = None /\
  let fs := Examples.one_file "m.py" Examples.src_assign in
  success (apply_line_edit Examples.calm fs "m.py" 0 "x = 2" true true).2 = false /\
  success (apply_line_edit Examples.calm fs "m.py" 3 "x = 2" true true).2 = false /\
  success (apply_line_edit Examples.calm fs "m.py" 1 "x = 2" true true).2 = true /\
  (apply_line_edit Examples.calm fs "m.py" 1 "x = 2" true true).1 !! "m.py"
    = Some Examples.src_assign_two /\
  endswith LF Examples.src_assign_two = true.
Proof.
  assert (h0 : Examples.one_file "m.py" Examples.src_assign !! "m.py"
               = Some Examples.src_assign) by (vm_compute; reflexivity).
  assert (h1 : 0 < 1 \/ Z.of_nat (length (readlines Examples.src_assign)) < 0)
    by (left; reflexivity).
  assert (h2 : 3 < 1 \/ Z.of_nat (length (readlines Examples.src_assign)) < 3)
    by (right; vm_compute; reflexivity).
  assert (h3 : 1 <= 1 <= Z.of_nat (length (readlines Examples.src_assign)))
    by (split; vm_compute; discriminate).
  assert (h4 : 1 = Z.of_nat (length (readlines Examples.src_assign)))
    by (vm_compute; reflexivity).
  assert (h5 : gate_rejects Examples.calm "m.py" Examples.src_assign_two true
               = false) by (vm_compute; reflexivity).
  assert (h6 : write_fault Examples.calm = None) by reflexivity.
  split; [exact h0 |]. split; [exact h1 |]. split; [exact h2 |].
  split; [exact h3 |]. split; [exact h4 |]. split; [exact h5 |].
  split; [exact h6 |]. cbv zeta.
  destruct (apply_line_edit_spec Examples.calm _ "m.py" 0 "x = 2" true true
              _ h0) as [Hlow _].
  destruct (apply_line_edit_spec Examples.calm _ "m.py" 3 "x = 2" true true
              _ h0) as [Hhigh _].
  destruct (apply_line_edit_spec Examples.calm _ "m.py" 1 "x = 2" true true
              _ h0) as [_ Hin].
  cbv zeta in Hin.
  destruct (Hin h3) as (_ & _ & _ & _ & _ & Hend & Hwritten & Hgo).
  split; [now rewrite (Hlow h1) |]. split; [now rewrite (Hhigh h2) |].
  split; [exact (Hgo h5 h6) |]. split; [exact (Hwritten (Hgo h5 h6)) |].
  exact (Hend h4).
Defined.

(** C5 as stated fails: line 1 is the last valid line of the file, yet
    replacing it does not succeed, because the new text does not parse
    and the validation gate of [apply_edit] rejects it. *)
Lemma apply_line_edit_counterexample :
  let fs := Examples.one_file "m.py" Examples.src_assign in
  let res := apply_line_edit Examples.calm fs "m.py" 1 "x = (" true true in
  Z.of_nat (length (readlines Examples.src_assign)) = 1 /\
  success res.2 = false /\
  error res.2 = Some "Syntax validation failed: '(' was never closed" /\
  res.1 !! "m.py" = Some Examples.src_assign.
Proof.
  cbv zeta. split; [reflexivity |]. split; [vm_compute; reflexivity |].
  split; vm_compute; reflexivity.
Qed.

End PartialEdits.

(* ===================================================================== *)
(** * [ast.walk]: breadth first, and every node once *)
(* ===================================================================== *)

Module WalkFacts.
Import CodeEditor.

Lemma size_Node (c : node_class) (ch : list ast) :
  size (Node c ch) = S (forest_size ch).
Proof.
  unfold forest_size. simpl. f_equal.
  induction ch as [|x ch IH]; simpl; [reflexivity | now rewrite IH].
Qed.

Lemma preorder_Node (c : node_class) (ch : list ast) :
  preorder (Node c ch) = Node c ch :: preorder_forest ch.
Proof.
  unfold preorder_forest. reflexivity.
Qed.

Lemma forest_size_app (l k : list ast) :
  forest_size (l ++ k) = (forest_size l + forest_size k)%nat.
Proof.
  unfold forest_size. induction l as [|x l IH]; simpl; [reflexivity |].
  rewrite IH. lia.
Qed.

Lemma forest_size_cons (n : ast) (l : list ast) :
  forest_size (n :: l) = (size n + forest_size l)%nat.
Proof. reflexivity. Qed.

Lemma size_pos (n : ast) : (0 < size n)%nat.
Proof. destruct n as [c ch]. rewrite size_Node. lia. Qed.

Lemma preorder_forest_app (l k : list ast) :
  preorder_forest (l ++ k) = preorder_forest l ++ preorder_forest k.
Proof. unfold preorder_forest. apply flat_map_app. Qed.

(** With fuel for every node of the forest in the queue, the loop of
    [ast.walk] yields every node once. *)
Lemma walk_queue_perm (fuel : nat) (todo : list ast) :
  (forest_size todo <= fuel)%nat ->
  Permutation (walk_queue fuel todo) (preorder_forest todo).
Proof.
  revert todo. induction fuel as [|fuel IH]; intros todo Hf.
  - destruct todo as [|n rest]; [reflexivity |].
    rewrite forest_size_cons in Hf. pose proof (size_pos n). lia.
  - destruct todo as [|[c ch] rest]; [reflexivity |].
    cbn [walk_queue iter_child_nodes].
    rewrite forest_size_cons, size_Node in Hf.
    rewrite IH by (rewrite forest_size_app; lia).
    rewrite preorder_forest_app.
    change (preorder_forest (Node c ch :: rest))
      with (preorder (Node c ch) ++ preorder_forest rest).
    rewrite preorder_Node. cbn [app]. constructor.
    apply Permutation_app_comm.
Qed.

Theorem walk_visits_every_node (tree : ast) :
  Permutation (walk tree) (preorder tree).
Proof.
  unfold walk. rewrite walk_queue_perm.
  - unfold preorder_forest. simpl. now rewrite List.app_nil_r.
  - unfold forest_size. simpl. lia.
Qed.

(** The nodes waiting in the queue come out first, in order. *)
Lemma walk_queue_prefix (fuel : nat) (todo : list ast) :
  (forest_size todo <= fuel)%nat ->
  exists rest, walk_queue fuel todo = todo ++ rest.
Proof.
  revert todo. induction fuel as [|fuel IH]; intros todo Hf.
  - destruct todo as [|n rest]; [now exists [] |].
    rewrite forest_size_cons in Hf. pose proof (size_pos n). lia.
  - destruct todo as [|[c ch] rest]; [now exists [] |].
    cbn [walk_queue iter_child_nodes].
    rewrite forest_size_cons, size_Node in Hf.
    destruct (IH (rest ++ ch)) as [more Hmore];
      [rewrite forest_size_app; lia |].
    exists (ch ++ more). rewrite Hmore. now rewrite <- List.app_assoc.
Qed.

(** The root, then its children in order, then everything deeper. *)
Lemma walk_Node (c : node_class) (ch : list ast) :
  exists deeper, walk (Node c ch) = Node c ch :: ch ++ deeper.
Proof.
  unfold walk. rewrite size_Node. cbn [walk_queue iter_child_nodes app].
  destruct (walk_queue_prefix (forest_size ch) ch) as [deeper Hd]; [lia |].
  exists deeper. now rewrite Hd.
Qed.

Lemma find_first {A} (f : A -> bool) (l : list A) (x : A) :
  List.find f l = Some x ->
  exists pre post, l = pre ++ x :: post /\ f x = true /\
                   Forall (fun y => f y = false) pre.
Proof.
  induction l as [|y l IH]; simpl; [discriminate |].
  destruct (f y) eqn:Hy.
  - intros [= ->]. exists [], l. repeat split; [assumption | constructor].
  - intros H. destruct (IH H) as (pre & post & -> & Hx & Hpre).
    exists (y :: pre), post. repeat split; [assumption | now constructor].
Qed.

Lemma find_app_l {A} (f : A -> bool) (l k : list A) (x : A) :
  List.find f l = Some x -> List.find f (l ++ k) = Some x.
Proof.
  induction l as [|y l IH]; simpl; [discriminate |].
  destruct (f y); [trivial | exact IH].
Qed.

Lemma locate_none (tree : ast) (name : string) :
  locate tree name = None <->
  forall n, In n (preorder tree) -> is_target name n = false.
Proof.
  unfold locate. split.
  - intros H n Hn. apply (find_none _ _ H).
    apply (Permutation_in n (Permutation_sym (walk_visits_every_node tree))), Hn.
  - intros H. destruct (List.find (is_target name) (walk tree)) as [n|] eqn:Hf;
      [| reflexivity].
    apply find_some in Hf as [Hin Ht].
    apply (Permutation_in n (walk_visits_every_node tree)) in Hin.
    rewrite (H n Hin) in Ht. discriminate.
Qed.

(** A matching statement at the top level wins over any deeper one,
    and among those at the top level the first in document order. *)
Lemma locate_top_level (c : node_class) (body : list ast) (name : string)
    (n : ast) :
  is_target name (Node c body) = false ->
  List.find (is_target name) body = Some n ->
  locate (Node c body) name = Some n.
Proof.
  intros Hroot Hbody. unfold locate.
  destruct (walk_Node c body) as [deeper ->].
  cbn [List.find]. rewrite Hroot. now apply find_app_l.
Qed.

End WalkFacts.

(* ===================================================================== *)
(** * Function replacement *)
(* ===================================================================== *)

Module FunctionEdit.
Import PyStr PyStrFacts PathFacts CodeEditor ApplyEditFacts WalkFacts.

Lemma splice_frame (lines : list string) (s e : Z) (new : string) :
  1 <= s -> s - 1 <= Z.of_nat (length lines) -> 0 <= e ->
  take (Z.to_nat (s - 1)) (splice lines s e new)
    = take (Z.to_nat (s - 1)) lines /\
  splice lines s e new !! Z.to_nat (s - 1) = Some new /\
  drop (Z.to_nat s) (splice lines s e new) = drop (Z.to_nat e) lines.
Proof.
  intros Hs Hlen He. unfold splice, slice_to, slice_from.
  assert (H1 : (s - 1 <? 0) = false) by (apply Z.ltb_ge; lia).
  assert (H2 : (e <? 0) = false) by (apply Z.ltb_ge; lia).
  rewrite H1, H2.
  set (k := Z.to_nat (s - 1)).
  assert (Hk : length (take k lines) = k) by (rewrite length_take; lia).
  replace (Z.to_nat s) with (S k) by lia.
  split; [| split].
  - now rewrite take_app_length'.
  - rewrite lookup_app_r by lia. rewrite Hk, Nat.sub_diag. reflexivity.
  - rewrite drop_app_ge by lia. rewrite Hk.
    replace (S k - k)%nat with 1%nat by lia. reflexivity.
Qed.

(** Without a [FunctionDef] of the name anywhere in the tree nothing
    is located, and the edit fails before any backup or write. *)
Lemma apply_function_edit_not_found
    (E : env) (fs : filesystem)
    (file_path function_name new_function_code : string)
    (validate create_backup_ : bool) (content : string) (tree : ast) :
  fs !! file_path = Some content ->
  parse E content = Parsed tree ->
  (forall n, In n (preorder tree) -> is_target function_name n = false) ->
  apply_function_edit E fs file_path function_name new_function_code
    validate create_backup_
  = (fs, set_error
           (Some ("Function '" +:+ function_name +:+ "' not found in file"))
           initial_result).
Proof.
  intros Hp Hparse Hnone. unfold apply_function_edit, read_text.
  rewrite Hp, Hparse. apply locate_none in Hnone. now rewrite Hnone.
Qed.

(** C3, as the code has it.  On a readable file that parses,
    [apply_function_edit]
    - fails with "Function '...' not found in file" when no node of
      the tree is a [FunctionDef] with the name;
    - otherwise finds one, the first in the order of [ast.walk], which
      is breadth first: a matching statement of the module body
      is taken before any nested definition, and among those of the
      body the first in document order;
    - hands to [apply_edit] the lines of the file with the lines
      [lineno .. end_lineno] of that node replaced by the new text: the
      lines before the span and the lines after it are kept as they
      are; the file holds the new text when the edit succeeds, which
      it does when the validation gate lets the text pass and the
      write does not raise. *)
Theorem apply_function_edit_spec
    (E : env) (fs : filesystem)
    (file_path function_name new_function_code : string)
    (validate create_backup_ : bool) (content : string) (tree : ast) :
  fs !! file_path = Some content ->
  parse E content = Parsed tree ->
  let res :=
    apply_function_edit E fs file_path function_name new_function_code
      validate create_backup_ in
  ((forall n, In n (preorder tree) -> is_target function_name n = false) ->
     res = (fs, set_error
                  (Some ("Function '" +:+ function_name
                         +:+ "' not found in file"))
                  initial_result)) /\
  ((exists n, In n (preorder tree) /\ is_target function_name n = true) ->
     exists node, locate tree function_name = Some node) /\
  (forall c body n,
     tree = Node c body ->
     is_target function_name tree = false ->
     List.find (is_target function_name) body = Some n ->
     locate tree function_name = Some n) /\
  (forall node, locate tree function_name = Some node ->
     (exists pre post,
        walk tree = pre ++ node :: post /\
        is_target function_name node = true /\
        Forall (fun m => is_target function_name m = false) pre) /\
     let start_line := (span node).1 in
     let end_line := (span node).2 in
     let lines := split_nl content in
     let new_lines := splice lines start_line end_line new_function_code in
     let edit :=
       apply_edit E fs file_path (join LF new_lines) validate create_backup_ in
     res = (edit.1, update initial_result edit.2) /\
     (1 <= start_line -> start_line - 1 <= Z.of_nat (length lines) ->
      0 <= end_line ->
        take (Z.to_nat (start_line - 1)) new_lines
          = take (Z.to_nat (start_line - 1)) lines /\
        new_lines !! Z.to_nat (start_line - 1) = Some new_function_code /\
        drop (Z.to_nat start_line) new_lines = drop (Z.to_nat end_line) lines) /\
     (success res.2 = true -> res.1 !! file_path = Some (join LF new_lines)) /\
     (gate_rejects E file_path (join LF new_lines) validate = false ->
      write_fault E = None -> success res.2 = true)).
Proof.
  intros Hp Hparse res. subst res.
  split; [intros Hnone;
          now apply (apply_function_edit_not_found _ _ _ _ _ _ _ content tree) |].
  unfold apply_function_edit, read_text. rewrite Hp, Hparse.
  split; [| split].
  - intros (n & Hin & Ht).
    destruct (locate tree function_name) as [node|] eqn:Hl; [now exists node |].
    rewrite locate_none in Hl. rewrite (Hl n Hin) in Ht. discriminate.
  - intros c body n -> Hroot Hbody. now apply locate_top_level.
  - intros node Hl. rewrite Hl.
    split; [exact (find_first _ _ _ Hl) |].
    destruct (span node) as [s e]. cbv zeta. cbn [fst snd].
    set (new_lines := splice (split_nl content) s e new_function_code).
    pose proof (apply_edit_success E fs file_path (join LF new_lines)
                  validate create_backup_) as Hok.
    pose proof (apply_edit_succeeds E fs file_path (join LF new_lines)
                  validate create_backup_) as Hgo.
    destruct (apply_edit E fs file_path (join LF new_lines) validate
                create_backup_) as [fs' edit] eqn:Hedit.
    simpl in *. split; [reflexivity |].
    split; [intros; now apply splice_frame |].
    split.
    + intros Hs. now destruct (Hok Hs).
    + intros Hg Hw. apply Hgo; [| exact Hg | exact Hw]. intros _. now exists content.
Qed.

(** C10.  When every definition of the file that bears the target
    name is an [async def], [apply_function_edit] fails with
    "Function '...' not found in file" and leaves the file system as
    it was: the locator stops at [ast.FunctionDef] nodes only. *)
Theorem async_def_is_not_found
    (E : env) (fs : filesystem)
    (file_path function_name new_function_code : string)
    (validate create_backup_ : bool) (content : string) (tree : ast) :
  fs !! file_path = Some content ->
  parse E content = Parsed tree ->
  (forall n, In n (preorder tree) ->
             defines function_name n = true -> is_async n = true) ->
  let res :=
    apply_function_edit E fs file_path function_name new_function_code
      validate create_backup_ in
  success res.2 = false /\
  error res.2
    = Some ("Function '" +:+ function_name +:+ "' not found in file") /\
  backup_path res.2 = None /\
  res.1 = fs.
Proof.
  intros Hp Hparse Hasync res.
  assert (Hnone : forall n, In n (preorder tree) ->
                            is_target function_name n = false).
  { intros n Hin. specialize (Hasync n Hin).
    unfold is_target, defines, is_async in *.
    destruct (cls_of n); try reflexivity.
    destruct (String.eqb name function_name); [| reflexivity].
    now specialize (Hasync eq_refl). }
  subst res.
  rewrite (apply_function_edit_not_found E fs file_path function_name
             new_function_code validate create_backup_ content tree
             Hp Hparse Hnone).
  now repeat split.
Qed.

(** ** The theorems at concrete inputs *)

Example walk_example :
  map cls_of (walk Examples.tree_two_f)
  = [Module_; ClassDef "A" 1 3; FunctionDef "f" 4 5; FunctionDef "f" 2 3;
     Other; Other; Other; Other; Other; Other; Other]
  /\ map cls_of (preorder Examples.tree_two_f)
  = [Module_; ClassDef "A" 1 3; FunctionDef "f" 2 3; Other; Other; Other;
     Other; FunctionDef "f" 4 5; Other; Other; Other].
Proof. vm_compute. split; reflexivity. Qed.

Lemma apply_function_edit_spec_witness :
  Examples.one_file "m.py" Examples.src_two_f !! "m.py"
    = Some Examples.src_two_f /\
  parse Examples.calm Examples.src_two_f = Parsed Examples.tree_two_f /\
  locate Examples.tree_two_f "f" = Some Examples.function_f /\
  gate_rejects Examples.calm "m.py" Examples.src_two_f_edited true = false /\
  write_fault Examples.calm = None /\
  let res := apply_function_edit Examples.calm
               (Examples.one_file "m.py" Examples.src_two_f)
               "m.py" "f" Examples.new_f true true in
  success res.2 = true /\ res.1 !! "m.py" = Some Examples.src_two_f_edited /\
  take 3 (split_nl Examples.src_two_f_edited) = take 3 (split_nl Examples.src_two_f).
Proof.
  assert (h0 : Examples.one_file "m.py" Examples.src_two_f !! "m.py"
               = Some Examples.src_two_f) by (vm_compute; reflexivity).
  assert (h1 : parse Examples.calm Examples.src_two_f
               = Parsed Examples.tree_two_f) by (vm_compute; reflexivity).
  assert (h2 : locate Examples.tree_two_f "f" = Some Examples.function_f)
    by (vm_compute; reflexivity).
  assert (h3 : gate_rejects Examples.calm "m.py" Examples.src_two_f_edited true
               = false) by (vm_compute; reflexivity).
  assert (h4 : write_fault Examples.calm = None) by reflexivity.
  split; [exact h0 |]. split; [exact h1 |]. split; [exact h2 |].
  split; [exact h3 |]. split; [exact h4 |].
  destruct (apply_function_edit_spec Examples.calm _ "m.py" "f" Examples.new_f
              true true _ _ h0 h1) as (_ & _ & _ & Hfound).
  destruct (Hfound _ h2) as (_ & H). cbv zeta in H.
  destruct H as (_ & Hframe & Hwritten & Hgo). cbv zeta.
  split; [exact (Hgo h3 h4) |]. split; [exact (Hwritten (Hgo h3 h4)) |].
  vm_compute. reflexivity.
Defined.

(** C3 as stated fails.  The file holds a class with a method [f]
    (lines 2-3) and then a function [f] (lines 4-5).  The first [f] in
    document order is the method; [ast.walk] meets the function first,
    so the function is rewritten and the method is left as it was. *)
Lemma apply_function_edit_counterexample :
  let fs := Examples.one_file "m.py" Examples.src_two_f in
  let res :=
    apply_function_edit Examples.calm fs "m.py" "f" Examples.new_f true true in
  parse Examples.calm Examples.src_two_f = Parsed Examples.tree_two_f /\
  locate_document_order Examples.tree_two_f "f" = Some Examples.method_f /\
  span Examples.method_f = (2, 3) /\
  locate Examples.tree_two_f "f" = Some Examples.function_f /\
  span Examples.function_f = (4, 5) /\
  success res.2 = true /\
  res.1 !! "m.py" = Some Examples.src_two_f_edited /\
  res.1 !! "m.py"
    <> Some (join LF (splice (split_nl Examples.src_two_f) 2 3 Examples.new_f)).
Proof.
  cbv zeta. repeat split; try (vm_compute; reflexivity).
  vm_compute. discriminate.
Qed.

Lemma async_def_is_not_found_witness :
  Examples.one_file "m.py" Examples.src_async !! "m.py"
    = Some Examples.src_async /\
  parse Examples.calm Examples.src_async = Parsed Examples.tree_async /\
  (forall n, In n (preorder Examples.tree_async) ->
             defines "f" n = true -> is_async n = true) /\
  (exists n, In n (preorder Examples.tree_async) /\ defines "f" n = true) /\
  let res := apply_function_edit Examples.calm
               (Examples.one_file "m.py" Examples.src_async)
               "m.py" "f" Examples.new_f true true in
  success res.2 = false /\
  error res.2 = Some "Function 'f' not found in file" /\
  res.1 = Examples.one_file "m.py" Examples.src_async.
Proof.
  assert (h0 : Examples.one_file "m.py" Examples.src_async !! "m.py"
               = Some Examples.src_async) by (vm_compute; reflexivity).
  assert (h1 : parse Examples.calm Examples.src_async
               = Parsed Examples.tree_async) by (vm_compute; reflexivity).
  assert (h2 : forall n, In n (preorder Examples.tree_async) ->
                         defines "f" n = true -> is_async n = true).
  { intros n Hin. cbv [preorder Examples.tree_async Examples.args_none
                       Examples.return_const Examples.leaf app] in Hin.
    repeat (destruct Hin as [<- | Hin]; [vm_compute; intros; congruence |]).
    destruct Hin. }
  split; [exact h0 |]. split; [exact h1 |]. split; [exact h2 |].
  split.
  { exists (Node (AsyncFunctionDef "f" 1 2)
              [Examples.args_none; Examples.return_const]).
    split; [vm_compute; tauto | reflexivity]. }
  destruct (async_def_is_not_found Examples.calm _ "m.py" "f" Examples.new_f
              true true _ _ h0 h1 h2) as (Hs & He & _ & Hf).
  cbv zeta. split; [exact Hs |]. split; [exact He | exact Hf].
Defined.

End FunctionEdit.

(* ===================================================================== *)
(** * The ranking of issues *)
(* ===================================================================== *)

Module Ranking.
Import IssueDetector.

Section StableSort.
Context {A : Type} (key : A -> Z * Z).

#[local] Abbreviation key_le := (key_le key).
#[local] Abbreviation same_key := (same_key key).

Lemma tuple_lt_spec (a b : Z * Z) :
  tuple_lt a b = true <-> a.1 < b.1 \/ (a.1 = b.1 /\ a.2 < b.2).
Proof.
  unfold tuple_lt. rewrite orb_true_iff, andb_true_iff.
  rewrite !Z.ltb_lt, Z.eqb_eq. reflexivity.
Qed.

Lemma tuple_lt_false (a b : Z * Z) :
  tuple_lt a b = false <-> b.1 < a.1 \/ (a.1 = b.1 /\ b.2 <= a.2).
Proof.
  destruct (tuple_lt a b) eqn:H.
  - apply tuple_lt_spec in H. split; [discriminate | lia].
  - split; [intros _ | reflexivity].
    assert (Hn : ~ (a.1 < b.1 \/ (a.1 = b.1 /\ a.2 < b.2))).
    { intros Hc. apply tuple_lt_spec in Hc. congruence. }
    lia.
Qed.

Lemma key_le_trans (x y z : A) : key_le x y -> key_le y z -> key_le x z.
Proof. unfold key_le. rewrite !tuple_lt_false. lia. Qed.

Lemma insert_by_perm (x : A) (l : list A) :
  Permutation (insert_by key x l) (x :: l).
Proof.
  induction l as [|y l IH]; simpl; [reflexivity |].
  destruct (tuple_lt (key y) (key x)); [| reflexivity].
  rewrite IH. apply perm_swap.
Qed.

Lemma insert_by_sorted (x : A) (l : list A) :
  StronglySorted key_le l -> StronglySorted key_le (insert_by key x l).
Proof.
  induction 1 as [|y l Hl IH Hy]; simpl.
  - repeat constructor.
  - destruct (tuple_lt (key y) (key x)) eqn:Hlt.
    + constructor; [exact IH |].
      apply (Permutation_Forall (Permutation_sym (insert_by_perm x l))).
      constructor; [| exact Hy].
      unfold key_le. apply tuple_lt_false. apply tuple_lt_spec in Hlt. lia.
    + constructor; [now constructor |].
      constructor; [exact Hlt |].
      eapply List.Forall_impl; [| exact Hy]. intros z Hz.
      now apply (key_le_trans x y z).
Qed.

(** Inserting [x] does not move it past an element with its key. *)
Lemma insert_by_stable (k : Z * Z) (x : A) (l : list A) :
  List.filter (same_key k) (insert_by key x l)
  = List.filter (same_key k) (x :: l).
Proof.
  induction l as [|y l IH]; [reflexivity |].
  cbn [insert_by]. destruct (tuple_lt (key y) (key x)) eqn:Hlt;
    [| reflexivity].
  cbn [List.filter] in *. rewrite IH.
  destruct (same_key k y) eqn:Hy; destruct (same_key k x) eqn:Hx;
    try reflexivity.
  exfalso. unfold same_key in Hx, Hy. apply tuple_lt_spec in Hlt.
  apply andb_true_iff in Hx as [Hx1 Hx2]. apply andb_true_iff in Hy as [Hy1 Hy2].
  apply Z.eqb_eq in Hx1, Hx2, Hy1, Hy2. lia.
Qed.

Lemma list_sort_perm (l : list A) : Permutation (list_sort key l) l.
Proof.
  induction l as [|x l IH]; simpl; [reflexivity |].
  rewrite insert_by_perm. now constructor.
Qed.

Lemma list_sort_sorted (l : list A) : StronglySorted key_le (list_sort key l).
Proof.
  induction l as [|x l IH]; simpl; [constructor | now apply insert_by_sorted].
Qed.

Lemma list_sort_stable (k : Z * Z) (l : list A) :
  List.filter (same_key k) (list_sort key l) = List.filter (same_key k) l.
Proof.
  induction l as [|x l IH]; [reflexivity |].
  cbn [list_sort foldr]. rewrite insert_by_stable.
  cbn [List.filter]. fold (list_sort key l). now rewrite IH.
Qed.

(** A list sorted by key is determined by the order in which the
    elements of each key occur: whatever stable sort [list.sort]
    runs, its result is [list_sort key l]. *)
Lemma stable_sort_unique (l1 l2 : list A) :
  StronglySorted key_le l1 -> StronglySorted key_le l2 ->
  (forall k, List.filter (same_key k) l1 = List.filter (same_key k) l2) ->
  l1 = l2.
Proof.
  assert (Hself : forall x, same_key (key x) x = true).
  { intros x. unfold same_key. now rewrite !Z.eqb_refl. }
  assert (Hhead : forall x l y m,
            StronglySorted key_le (x :: l) -> StronglySorted key_le (y :: m) ->
            (forall k, List.filter (same_key k) (x :: l)
                       = List.filter (same_key k) (y :: m)) ->
            x = y).
  { intros x l y m Hs1 Hs2 Hf.
    destruct (same_key (key x) y) eqn:Hxy.
    - specialize (Hf (key x)). cbn [List.filter] in Hf.
      rewrite Hself, Hxy in Hf. congruence.
    - exfalso.
      assert (Hx : In x (y :: m)).
      { specialize (Hf (key x)). cbn [List.filter] in Hf.
        rewrite Hself, Hxy in Hf.
        assert (Hin : In x (List.filter (same_key (key x)) m))
          by (rewrite <- Hf; now left).
        apply filter_In in Hin as [Hin _]. now right. }
      assert (Hy : In y (x :: l)).
      { specialize (Hf (key y)). cbn [List.filter] in Hf.
        rewrite (Hself y) in Hf.
        assert (Hin : In y (List.filter (same_key (key y)) (x :: l))).
        { cbn [List.filter]. rewrite Hf. now left. }
        now apply filter_In in Hin as [Hin _]. }
      destruct Hx as [-> | Hx]; [now rewrite Hself in Hxy |].
      destruct Hy as [-> | Hy]; [now rewrite Hself in Hxy |].
      apply StronglySorted_inv in Hs1 as [_ Hs1].
      apply StronglySorted_inv in Hs2 as [_ Hs2].
      rewrite List.Forall_forall in Hs1, Hs2.
      specialize (Hs1 y Hy). specialize (Hs2 x Hx).
      unfold key_le in Hs1, Hs2. rewrite tuple_lt_false in Hs1, Hs2.
      unfold same_key in Hxy. apply andb_false_iff in Hxy.
      rewrite !Z.eqb_neq in Hxy. lia. }
  revert l2. induction l1 as [|x l1 IH]; intros l2 Hs1 Hs2 Hf.
  - destruct l2 as [|y l2]; [reflexivity |].
    specialize (Hf (key y)). cbn [List.filter] in Hf.
    rewrite Hself in Hf. discriminate.
  - destruct l2 as [|y l2].
    + specialize (Hf (key x)). cbn [List.filter] in Hf.
      rewrite Hself in Hf. discriminate.
    + assert (x = y) as <- by (eapply Hhead; eassumption).
      f_equal. apply IH.
      * now apply StronglySorted_inv in Hs1.
      * now apply StronglySorted_inv in Hs2.
      * intros k. specialize (Hf k). cbn [List.filter] in Hf.
        destruct (same_key k x); congruence.
Qed.

End StableSort.

Lemma key_le_may_precede (x y : ranked) :
  key_le sort_key x y <-> may_precede x y.
Proof.
  unfold key_le, may_precede, sort_key, line_of.
  rewrite tuple_lt_false. simpl. lia.
Qed.

Lemma same_key_at_rank (p l : Z) (x : ranked) :
  same_key sort_key (- p, l) x = at_rank p l x.
Proof.
  unfold same_key, at_rank, sort_key, line_of. simpl. f_equal.
  destruct (Z.eqb_spec (- priority x) (- p)), (Z.eqb_spec (priority x) p);
    try reflexivity; lia.
Qed.

(** C4.  [get_issue_priority] gives priority 3 to a pylint issue whose
    severity is "error" and 2 to any other, 2 to a complexity issue and
    1 to a maintainability issue, merges them in that order, and
    returns the merged list sorted by higher priority first and then
    lower line (an absent line counts as 0); the sort is stable: the
    issues of one priority and line keep the order of the merge. *)
Theorem get_issue_priority_spec (issues : issues_dict) :
  let merged :=
    map (fun i => Ranked i (if bool_decide (severity i = Some "error")
                           then 3 else 2)) (pylint_issues issues)
    ++ map (fun i => Ranked i 2) (complexity_issues issues)
    ++ map (fun i => Ranked i 1) (maintainability_issues issues) in
  let ranked := get_issue_priority issues in
  Permutation ranked merged /\
  StronglySorted may_precede ranked /\
  (forall p l, List.filter (at_rank p l) ranked = List.filter (at_rank p l) merged) /\
  (forall other,
     Permutation other merged -> StronglySorted may_precede other ->
     (forall p l, List.filter (at_rank p l) other
                  = List.filter (at_rank p l) merged) ->
     other = ranked).
Proof.
  intros merged ranked.
  assert (Hm : collect issues = merged).
  { unfold collect, merged. simpl. now rewrite List.app_assoc. }
  assert (Hsorted : forall l, StronglySorted (key_le sort_key) l
                              <-> StronglySorted may_precede l).
  { intros l. split; intros H; induction H; constructor; try assumption;
      (eapply List.Forall_impl; [| eassumption]); intros z Hz;
      now apply key_le_may_precede. }
  assert (Hstable : forall p l,
             List.filter (at_rank p l) ranked = List.filter (at_rank p l) merged).
  { intros p l. subst ranked. unfold get_issue_priority. rewrite Hm.
    rewrite <- (List.filter_ext _ _ (same_key_at_rank p l)).
    rewrite <- (List.filter_ext _ _ (same_key_at_rank p l) merged).
    apply list_sort_stable. }
  split; [| split; [| split]].
  - subst ranked. unfold get_issue_priority. rewrite Hm. apply list_sort_perm.
  - apply Hsorted. apply list_sort_sorted.
  - exact Hstable.
  - intros other _ Hso Hst.
    apply (stable_sort_unique sort_key).
    + now apply Hsorted.
    + apply list_sort_sorted.
    + intros [k1 k2]. replace k1 with (- - k1) by lia.
      rewrite (List.filter_ext _ _ (same_key_at_rank (- k1) k2)).
      rewrite (List.filter_ext _ _ (same_key_at_rank (- k1) k2) ranked).
      now rewrite Hst, Hstable.
Qed.

(** ** The ranking at a concrete input *)

(** Priority first, then line: at priority 2 the warning of line 3
    comes before the issues of line 5, and the two issues of line 5
    keep the order of the merge, pylint before complexity. *)
Example get_issue_priority_example :
  get_issue_priority
    {| pylint_issues := [Examples.style_error_5; Examples.style_warning_5; Examples.style_warning_3];
       complexity_issues := [Examples.complexity_5];
       maintainability_issues := [Examples.maintainability_1] |}
  = [Ranked Examples.style_error_5 3; Ranked Examples.style_warning_3 2;
     Ranked Examples.style_warning_5 2; Ranked Examples.complexity_5 2;
     Ranked Examples.maintainability_1 1].
Proof. vm_compute. reflexivity. Qed.

Lemma get_issue_priority_spec_witness :
  let issues :=
    {| pylint_issues := [Examples.style_error_5; Examples.style_warning_5;
                         Examples.style_warning_3];
       complexity_issues := [Examples.complexity_5];
       maintainability_issues := [Examples.maintainability_1] |} in
  let expected :=
    [Ranked Examples.style_error_5 3; Ranked Examples.style_warning_3 2;
     Ranked Examples.style_warning_5 2; Ranked Examples.complexity_5 2;
     Ranked Examples.maintainability_1 1] in
  Permutation expected (collect issues) /\
  StronglySorted may_precede expected /\
  (forall p l, List.filter (at_rank p l) expected
               = List.filter (at_rank p l) (collect issues)) /\
  expected = get_issue_priority issues.
Proof.
  intros issues expected.
  destruct (get_issue_priority_spec issues) as (_ & _ & _ & Huniq).
  assert (Hc : collect issues
               = [Ranked Examples.style_error_5 3; Ranked Examples.style_warning_5 2;
                  Ranked Examples.style_warning_3 2; Ranked Examples.complexity_5 2;
                  Ranked Examples.maintainability_1 1])
    by (vm_compute; reflexivity).
  assert (h1 : Permutation expected (collect issues))
    by (rewrite Hc; apply perm_skip, perm_swap).
  assert (h2 : StronglySorted may_precede expected)
    by (repeat constructor; unfold may_precede, line_of; simpl; lia).
  assert (h3 : forall p l, List.filter (at_rank p l) expected
                           = List.filter (at_rank p l) (collect issues)).
  { intros p l. rewrite Hc. unfold expected. cbn [List.filter].
    destruct (at_rank p l (Ranked Examples.style_warning_3 2)) eqn:H3;
      destruct (at_rank p l (Ranked Examples.style_warning_5 2)) eqn:H5;
      try reflexivity.
    unfold at_rank in H3, H5.
    apply andb_true_iff in H3 as [_ H3]. apply andb_true_iff in H5 as [_ H5].
    apply Z.eqb_eq in H3, H5. vm_compute in H3, H5. congruence. }
  split; [exact h1 |]. split; [exact h2 |]. split; [exact h3 |].
  exact (Huniq expected h1 h2 h3).
Defined.

End Ranking.

(* ===================================================================== *)
(** * The fix loop *)
(* ===================================================================== *)

Module FixLoop.
Import IssueDetector Orchestrator.

Lemma slice_to_5 {A} (l : list A) : PyStr.slice_to 5 l = take 5 l.
Proof. reflexivity. Qed.

Lemma try_fix_progress (sw : step_world) (W : world) (dry_run : bool)
    (p : string) (i : ranked) (st : loop_state) :
  progress (try_fix sw W dry_run p i st).1 = progress st.
Proof.
  unfold try_fix.
  repeat (match goal with
          | |- context [match ?x with _ => _ end] => destruct x; simpl
          end); reflexivity.
Qed.

Lemma fix_issue_progress (W : world) (dry_run : bool) (p : string)
    (st : loop_state) (i : ranked) :
  progress (fix_issue W dry_run p st i) = S (progress st).
Proof.
  unfold fix_issue.
  pose proof (try_fix_progress (at_step W (progress st)) W dry_run p i st) as H.
  destruct (try_fix (at_step W (progress st)) W dry_run p i st) as [st' [e|]];
    simpl in *; now rewrite H.
Qed.

(** What one iteration does to [fixes_failed]: nothing, or one entry
    for its file at the end; the latter whenever its edit failed. *)
Lemma fix_issue_failed (W : world) (dry_run : bool) (p : string)
    (st : loop_state) (i : ranked) :
  (fixes_failed (fix_issue W dry_run p st i) = fixes_failed st \/
   exists f, fixes_failed (fix_issue W dry_run p st i) = fixes_failed st ++ [f]
             /\ ff_file f = p) /\
  (forall fs' r,
     attempted_edit W dry_run p st i = Some (fs', r) ->
     success r = false ->
     exists f, fixes_failed (fix_issue W dry_run p st i) = fixes_failed st ++ [f]
               /\ ff_file f = p).
Proof.
  unfold fix_issue, try_fix, attempted_edit.
  destruct (read_text (disk st) p); simpl; [split; [eauto | discriminate] |].
  destruct (sw_context (at_step W (progress st))); simpl;
    [split; [eauto | discriminate] |].
  destruct (sw_llm (at_step W (progress st))) as [|resp]; simpl;
    [split; [eauto | discriminate] |].
  destruct (sw_log_llm (at_step W (progress st))); simpl;
    [split; [eauto | discriminate] |].
  destruct (if dry_run then None else code resp) as [c|]; simpl;
    [| split; [eauto | discriminate]].
  destruct (PyStr.truthy c); simpl; [| split; [eauto | discriminate]].
  destruct (CodeEditor.apply_edit _ (disk st) p c true true) as [fs1 r1].
  destruct (sw_log_edit (at_step W (progress st))); simpl.
  - split; [eauto |]. intros fs' r [= <- <-] _. eauto.
  - destruct (success r1) eqn:Hs; simpl.
    + destruct (sw_log_summary (at_step W (progress st))); simpl.
      * split; [eauto |]. intros fs' r [= <- <-]. congruence.
      * split; [eauto |]. intros fs' r [= <- <-]. congruence.
    + split; [eauto |]. intros fs' r [= <- <-] _. eauto.
Qed.

Lemma run_progress (W : world) (dry_run : bool) (sched : list (string * ranked))
    (st : loop_state) :
  progress (run W dry_run st sched) = (progress st + length sched)%nat.
Proof.
  revert st. induction sched as [|[p i] sched IH]; intros st; simpl; [lia |].
  unfold run in *. simpl. rewrite IH, fix_issue_progress. lia.
Qed.

Lemma run_failed_extends (W : world) (dry_run : bool)
    (sched : list (string * ranked)) (st : loop_state) :
  exists extra, fixes_failed (run W dry_run st sched) = fixes_failed st ++ extra
                /\ (length extra <= length sched)%nat.
Proof.
  revert st. induction sched as [|[p i] sched IH]; intros st.
  - exists []. simpl. now rewrite List.app_nil_r.
  - unfold run in *. simpl.
    destruct (IH (fix_issue W dry_run p st i)) as (extra & He & Hl).
    rewrite He.
    destruct (fix_issue_failed W dry_run p st i) as [[Hsame | (f & Hf & _)] _].
    + rewrite Hsame. exists extra. split; [reflexivity | lia].
    + rewrite Hf. exists (f :: extra). rewrite <- List.app_assoc.
      split; [reflexivity | simpl; lia].
Qed.

Lemma no_failure_iff (W : world) (dry_run : bool)
    (sched : list (string * ranked)) (st : loop_state) :
  no_failure W dry_run st sched <->
  fixes_failed (run W dry_run st sched) = fixes_failed st.
Proof.
  revert st. induction sched as [|[p i] sched IH]; intros st; simpl.
  - tauto.
  - rewrite IH. unfold run. simpl.
    fold (run W dry_run (fix_issue W dry_run p st i) sched).
    split.
    + intros [H1 H2]. congruence.
    + intros H.
      destruct (run_failed_extends W dry_run sched (fix_issue W dry_run p st i))
        as (e2 & He2 & _).
      destruct (fix_issue_failed W dry_run p st i) as [[Hsame | (f & Hf & _)] _].
      * split; [exact Hsame | congruence].
      * exfalso. rewrite He2, Hf, <- List.app_assoc in H.
        apply (f_equal (@length _)) in H.
        rewrite !length_app in H. simpl in H. lia.
Qed.

Lemma fix_file_run (W : world) (dry_run : bool) (fi : file_issues)
    (st : loop_state) :
  fix_file W dry_run st fi
  = run W dry_run st (map (pair (file fi)) (take 5 (issues fi))).
Proof.
  unfold fix_file, run. rewrite slice_to_5.
  generalize (take 5 (issues fi)). intros l. revert st.
  induction l as [|i l IHl]; intros st; [reflexivity | simpl; apply IHl].
Qed.

Lemma fix_loop_run (W : world) (dry_run : bool) (analysis : list file_issues)
    (st : loop_state) :
  fix_loop W dry_run st analysis = run W dry_run st (schedule analysis).
Proof.
  revert st. induction analysis as [|fi analysis IH]; intros st;
    [reflexivity |].
  unfold fix_loop in *. simpl. rewrite IH, fix_file_run.
  unfold schedule, run. simpl. now rewrite foldl_app.
Qed.

Lemma schedule_empty (analysis : list file_issues) :
  total_issues analysis = O -> schedule analysis = [].
Proof.
  unfold total_issues, schedule.
  induction analysis as [|fi analysis IH]; simpl; [reflexivity |].
  intros H. destruct (issues fi) eqn:Hi; simpl in H; [| lia].
  simpl. now apply IH.
Qed.

Lemma schedule_length (analysis : list file_issues) :
  length (schedule analysis)
  = list_sum (map (fun fi => Nat.min 5 (length (issues fi))) analysis).
Proof.
  unfold schedule. induction analysis as [|fi analysis IH]; [reflexivity |].
  simpl. rewrite length_app, length_map, slice_to_5, length_take, IH.
  reflexivity.
Qed.

Lemma analysis_of_ranked (found : list (string * issues_dict))
    (fi : file_issues) :
  In fi (analysis_of found) ->
  exists d, In (file fi, d) found /\ issues fi = get_issue_priority d
            /\ issues fi <> [].
Proof.
  unfold analysis_of. induction found as [|[p d] found IH]; simpl; [tauto |].
  destruct (get_issue_priority d) as [|x l] eqn:Hd; simpl.
  - intros H. destruct (IH H) as (d' & Hin & Hi). exists d'. auto.
  - intros [<- | H].
    + exists d. simpl. rewrite Hd. repeat split; [now left | discriminate].
    + destruct (IH H) as (d' & Hin & Hi). exists d'. auto.
Qed.

(** One iteration, by what its calls answer. *)
Lemma fix_issue_effect (W : world) (dry_run : bool) (p : string)
    (st : loop_state) (i : ranked) :
  let sw := at_step W (progress st) in
  let st' := fix_issue W dry_run p st i in
  fixes_failed st' = fixes_failed st ++ recorded_failures W dry_run p st i /\
  (attempted_edit W dry_run p st i = None ->
     disk st' = disk st /\ fixes_applied st' = fixes_applied st) /\
  (forall fs' r,
     attempted_edit W dry_run p st i = Some (fs', r) ->
     disk st' = fs' /\
     fixes_applied st'
     = fixes_applied st
       ++ (if success r && bool_decide (sw_log_edit sw = None)
           then [ {| af_file := p;
                     af_issue := default (str_issue W i) (message (issue_of i));
                     af_backup := backup_path r |} ]
           else [])).
Proof.
  cbv zeta.
  unfold fix_issue, try_fix, recorded_failures, raised_in_iteration,
    attempted_edit.
  destruct (read_text (disk st) p); cbn;
    [rewrite ?List.app_nil_r; split; [reflexivity |];
     split; [now split | discriminate] |].
  destruct (sw_context (at_step W (progress st))); cbn;
    [rewrite ?List.app_nil_r; split; [reflexivity |];
     split; [now split | discriminate] |].
  destruct (sw_llm (at_step W (progress st))) as [|resp]; cbn;
    [rewrite ?List.app_nil_r; split; [reflexivity |];
     split; [now split | discriminate] |].
  destruct (sw_log_llm (at_step W (progress st))); cbn;
    [rewrite ?List.app_nil_r; split; [reflexivity |];
     split; [now split | discriminate] |].
  destruct (if dry_run then None else code resp) as [c|]; cbn;
    [| rewrite ?List.app_nil_r; split; [reflexivity |];
       split; [now split | discriminate]].
  destruct (PyStr.truthy c); cbn;
    [| rewrite ?List.app_nil_r; split; [reflexivity |];
       split; [now split | discriminate]].
  destruct (CodeEditor.apply_edit _ (disk st) p c true true) as [fs1 r1].
  destruct (sw_log_edit (at_step W (progress st))) as [e|] eqn:Hle; cbn.
  - split; [reflexivity |]. split; [discriminate |].
    intros fs' r [= <- <-]. rewrite andb_false_r, List.app_nil_r. now split.
  - destruct (success r1) eqn:Hs; cbn.
    + destruct (sw_log_summary (at_step W (progress st))); cbn;
        rewrite ?List.app_nil_r;
        (split; [reflexivity |]; split; [discriminate |];
         intros fs' r [= <- <-]; rewrite Hs; now split).
    + split; [reflexivity |]. split; [discriminate |].
      intros fs' r [= <- <-]. rewrite Hs, List.app_nil_r. now split.
Qed.

Lemma recorded_failures_none (W : world) (dry_run : bool) (p : string)
    (st : loop_state) (i : ranked) :
  recorded_failures W dry_run p st i = [] <->
  raised_in_iteration W dry_run p st i = None /\
  mutation_failed W dry_run p st i = false.
Proof.
  unfold recorded_failures, mutation_failed.
  destruct (raised_in_iteration W dry_run p st i);
    [split; [discriminate | intros [? _]; discriminate] |].
  destruct (attempted_edit W dry_run p st i) as [[fs' r]|];
    [| now split].
  destruct (success r); cbn; [now split |].
  split; [discriminate | intros [_ ?]; discriminate].
Qed.

Lemma recorded_failures_file (W : world) (dry_run : bool) (p : string)
    (st : loop_state) (i : ranked) :
  (length (recorded_failures W dry_run p st i) <= 1)%nat /\
  Forall (fun f => ff_file f = p) (recorded_failures W dry_run p st i).
Proof.
  unfold recorded_failures.
  destruct (raised_in_iteration W dry_run p st i);
    [split; [cbn; lia | now repeat constructor] |].
  destruct (attempted_edit W dry_run p st i) as [[fs' r]|];
    [| split; [cbn; lia | constructor]].
  destruct (success r); split; try (cbn; lia); now repeat constructor.
Qed.

Lemma run_failures (W : world) (dry_run : bool)
    (sched : list (string * ranked)) (st : loop_state) :
  fixes_failed (run W dry_run st sched)
  = fixes_failed st ++ failures_of_run W dry_run st sched.
Proof.
  revert st. induction sched as [|[p i] sched IH]; intros st.
  - cbn. now rewrite List.app_nil_r.
  - change (run W dry_run st ((p, i) :: sched))
      with (run W dry_run (fix_issue W dry_run p st i) sched).
    rewrite IH. destruct (fix_issue_effect W dry_run p st i) as [-> _].
    cbn [failures_of_run]. now rewrite List.app_assoc.
Qed.

Lemma failures_of_run_none (W : world) (dry_run : bool)
    (sched : list (string * ranked)) (st : loop_state) :
  failures_of_run W dry_run st sched = [] <->
  nothing_raised W dry_run st sched /\
  zero_mutations_failed W dry_run st sched.
Proof.
  revert st. induction sched as [|[p i] sched IH]; intros st; cbn;
    [tauto |].
  split.
  - intros H. apply List.app_eq_nil in H as [H1 H2].
    apply recorded_failures_none in H1. apply IH in H2. tauto.
  - intros [[H1 H2] [H3 H4]].
    rewrite (proj2 (recorded_failures_none W dry_run p st i) (conj H1 H3)).
    apply IH. tauto.
Qed.

(** C9.  In a fix run
    - for each file the loop body runs for the first five of its
      issues, which the analysis lists in ranked order, and for no
      other, whatever happens to them: [progress] advances by
      [min 5 n];
    - every iteration advances [progress] by one and keeps the
      failures recorded so far; an iteration that calls [apply_edit]
      leaves the file as [apply_edit] left it, and an iteration that
      does not call it leaves the file as it was; an iteration appends
      one entry for its file to
      [fixes_failed] when its mutation failed and also when an
      exception left its [try] block, and nothing otherwise;
    - the report has [success = True] exactly when [fixes_failed] is
      empty at the end, that is when no mutation failed and no
      exception was raised; so a report with [success = True] means
      that zero mutations failed. *)
Theorem fix_repository_spec
    (W : world) (dry_run : bool) (fs : filesystem)
    (analysis : list file_issues) :
  let st0 := {| disk := fs; fixes_applied := []; fixes_failed := [];
                progress := O |} in
  let st := (fix_repository W dry_run fs analysis).1 in
  let report := (fix_repository W dry_run fs analysis).2 in
  (forall fi st',
     fix_file W dry_run st' fi
       = foldl (fix_issue W dry_run (file fi)) st' (take 5 (issues fi)) /\
     progress (fix_file W dry_run st' fi)
       = (progress st' + Nat.min 5 (length (issues fi)))%nat /\
     (Nat.min 5 (length (issues fi)) <= 5)%nat) /\
  (forall path st' issue,
     let st'' := fix_issue W dry_run path st' issue in
     progress st'' = S (progress st') /\
     fixes_failed st''
     = fixes_failed st' ++ recorded_failures W dry_run path st' issue /\
     (length (recorded_failures W dry_run path st' issue) <= 1)%nat /\
     Forall (fun f => ff_file f = path)
       (recorded_failures W dry_run path st' issue) /\
     (recorded_failures W dry_run path st' issue = [] <->
      raised_in_iteration W dry_run path st' issue = None /\
      mutation_failed W dry_run path st' issue = false) /\
     (attempted_edit W dry_run path st' issue = None ->
        disk st'' !! path = disk st' !! path /\
        fixes_applied st'' = fixes_applied st') /\
     (forall fs' r,
        attempted_edit W dry_run path st' issue = Some (fs', r) ->
        disk st'' !! path = fs' !! path /\
        (success r = false ->
           fixes_applied st'' = fixes_applied st' /\
           exists f, fixes_failed st'' = fixes_failed st' ++ [f] /\
                     ff_file f = path) /\
        (success r = true ->
         sw_log_edit (at_step W (progress st')) = None ->
           fixes_applied st''
           = fixes_applied st'
             ++ [ {| af_file := path;
                     af_issue :=
                       default (str_issue W issue) (message (issue_of issue));
                     af_backup := backup_path r |} ]))) /\
  st = run W dry_run st0 (schedule analysis) /\
  progress st
    = list_sum (map (fun fi => Nat.min 5 (length (issues fi))) analysis) /\
  fixes_failed st = failures_of_run W dry_run st0 (schedule analysis) /\
  (r_success report = true <-> fixes_failed st = []) /\
  (r_success report = true <->
   nothing_raised W dry_run st0 (schedule analysis) /\
   zero_mutations_failed W dry_run st0 (schedule analysis)) /\
  (r_success report = true ->
   zero_mutations_failed W dry_run st0 (schedule analysis)) /\
  (forall found fi,
     In fi (analysis_of found) ->
     exists d, In (file fi, d) found /\ issues fi = get_issue_priority d).
Proof.
  intros st0 st report.
  assert (Hst : st = run W dry_run st0 (schedule analysis)).
  { subst st. unfold fix_repository. fold st0.
    destruct (total_issues analysis =? 0)%nat eqn:Ht; simpl.
    - apply Nat.eqb_eq in Ht. now rewrite (schedule_empty _ Ht).
    - apply fix_loop_run. }
  assert (Hsucc : r_success report = true <-> fixes_failed st = []).
  { subst st report. unfold fix_repository. fold st0.
    destruct (total_issues analysis =? 0)%nat; simpl; [tauto |].
    rewrite Nat.eqb_eq. apply length_zero_iff_nil. }
  assert (Hfail : fixes_failed st
                  = failures_of_run W dry_run st0 (schedule analysis))
    by (rewrite Hst, run_failures; reflexivity).
  assert (Hclean : r_success report = true <->
                   nothing_raised W dry_run st0 (schedule analysis) /\
                   zero_mutations_failed W dry_run st0 (schedule analysis))
    by (rewrite Hsucc, Hfail; apply failures_of_run_none).
  split; [| split; [| split; [| split; [| split; [| split;
    [| split; [| split]]]]]]].
  - intros fi st'. split; [reflexivity |]. split; [| lia].
    rewrite fix_file_run, run_progress, length_map, length_take.
    reflexivity.
  - intros path st' issue st''. subst st''.
    destruct (fix_issue_effect W dry_run path st' issue)
      as (Hf & Hnone & Hsome). cbv zeta in Hsome.
    destruct (recorded_failures_file W dry_run path st' issue) as [Hlen Hfile].
    split; [apply fix_issue_progress |]. split; [exact Hf |].
    split; [exact Hlen |]. split; [exact Hfile |].
    split; [apply recorded_failures_none |].
    split; [intros Hatt; destruct (Hnone Hatt) as [-> Ha]; now split |].
    intros fs' r Hatt. destruct (Hsome fs' r Hatt) as [Hd Ha].
    split; [now rewrite Hd |]. split.
    + intros Hs. rewrite Hs in Ha. cbn in Ha. rewrite List.app_nil_r in Ha.
      split; [exact Ha |].
      destruct (recorded_failures W dry_run path st' issue) as [|f [|g l]] eqn:Hr.
      * apply recorded_failures_none in Hr as [_ Hm].
        unfold mutation_failed in Hm. rewrite Hatt, Hs in Hm. discriminate.
      * exists f. split; [exact Hf |]. now inversion Hfile.
      * cbn in Hlen. lia.
    + intros Hs Hle. rewrite Hs, Hle, bool_decide_eq_true_2 in Ha by reflexivity.
      exact Ha.
  - exact Hst.
  - rewrite Hst, run_progress, schedule_length. reflexivity.
  - exact Hfail.
  - exact Hsucc.
  - exact Hclean.
  - intros H. now apply Hclean in H.
  - intros found fi Hin.
    destruct (analysis_of_ranked found fi Hin) as (d & H1 & H2 & _). eauto.
Qed.

(** ** The theorem at a concrete run *)

(** Seven issues in one file; the generator's first answer does not
    parse, its later answers do.  Five issues are addressed, the first
    fails and is recorded, the other four are applied, and the run
    does not report success. *)
Example fix_repository_example :
  let run := fix_repository Examples.one_bad_answer false
               (Examples.one_file "m.py" Examples.src_assign)
               Examples.analysis_m in
  progress run.1 = 5%nat /\
  length (fixes_applied run.1) = 4%nat /\
  map ff_error (fixes_failed run.1)
    = [Some "Syntax validation failed: '(' was never closed"] /\
  run.2 = {| r_fixes_applied := 4; r_fixes_failed := Some 1;
             r_success := false |} /\
  disk run.1 !! "m.py" = Some Examples.src_assign_two.
Proof. vm_compute. repeat split. Qed.

Lemma fix_repository_spec_witness :
  let fs := Examples.one_file "m.py" Examples.src_assign in
  let st0 := {| disk := fs; fixes_applied := []; fixes_failed := [];
                progress := O |} in
  let first_issue := hd (Ranked Examples.style_error_5 3) Examples.seven_issues in
  let edit := CodeEditor.apply_edit Examples.calm fs "m.py"
                Examples.src_unclosed true true in
  attempted_edit Examples.one_bad_answer false "m.py" st0 first_issue
    = Some (edit.1, edit.2) /\
  success edit.2 = false /\
  disk (fix_issue Examples.one_bad_answer false "m.py" st0 first_issue)
    !! "m.py"
  = edit.1 !! "m.py" /\
  (exists f,
     fixes_failed (fix_issue Examples.one_bad_answer false "m.py" st0 first_issue)
       = [f] /\ ff_file f = "m.py") /\
  progress (fix_repository Examples.one_bad_answer false fs
              Examples.analysis_m).1 = 5%nat /\
  ~ zero_mutations_failed Examples.one_bad_answer false st0
      (schedule Examples.analysis_m) /\
  r_success (fix_repository Examples.one_bad_answer false fs
               Examples.analysis_m).2 = false.
Proof.
  intros fs st0 first_issue edit.
  assert (Hatt : attempted_edit Examples.one_bad_answer false "m.py" st0
                   first_issue = Some (edit.1, edit.2))
    by (vm_compute; reflexivity).
  assert (Hfail : success edit.2 = false) by (vm_compute; reflexivity).
  destruct (fix_repository_spec Examples.one_bad_answer false fs
              Examples.analysis_m)
    as (_ & Hstep & _ & Hprog & _ & _ & _ & Honly & _).
  destruct (Hstep "m.py" st0 first_issue) as (_ & _ & _ & _ & _ & _ & Hedit).
  destruct (Hedit _ _ Hatt) as (Hdisk & Hrec & _).
  destruct (Hrec Hfail) as [_ Hrec'].
  assert (Hnot : ~ zero_mutations_failed Examples.one_bad_answer false st0
                     (schedule Examples.analysis_m)).
  { intros [Hm _]. unfold mutation_failed in Hm.
    change (hd _ Examples.seven_issues) with first_issue in Hatt.
    cbn [schedule] in Hm. vm_compute in Hm. discriminate. }
  split; [exact Hatt |]. split; [exact Hfail |]. split; [exact Hdisk |].
  split; [exact Hrec' |]. split; [exact Hprog |]. split; [exact Hnot |].
  destruct (r_success (fix_repository Examples.one_bad_answer false fs
                         Examples.analysis_m).2) eqn:Hs; [| reflexivity].
  destruct (Hnot (Honly eq_refl)).
Defined.

(** C9 as stated fails in its "if" half: in this run the generator
    cannot be reached, so no iteration calls [apply_edit] and zero
    mutations fail, yet every iteration records the exception in
    [fixes_failed] and the run reports [success = False]. *)
Lemma fix_repository_counterexample :
  let fs := Examples.one_file "m.py" Examples.src_assign in
  let st0 := {| disk := fs; fixes_applied := []; fixes_failed := [];
                progress := O |} in
  let out := fix_repository Examples.generator_down false fs
               Examples.analysis_m in
  zero_mutations_failed Examples.generator_down false st0
    (schedule Examples.analysis_m) /\
  (forall st i,
     attempted_edit Examples.generator_down false "m.py" st i = None) /\
  disk out.1 !! "m.py" = fs !! "m.py" /\
  map ff_error (fixes_failed out.1)
  = repeat (Some "Connection refused") 5 /\
  out.2 = {| r_fixes_applied := 0; r_fixes_failed := Some 5;
             r_success := false |}.
Proof.
  cbv zeta. split; [vm_compute; repeat split |].
  split.
  - intros st i. unfold attempted_edit.
    destruct (read_text (disk st) "m.py"); reflexivity.
  - split; [vm_compute; reflexivity |]. split; vm_compute; reflexivity.
Qed.

End FixLoop.

(* ===================================================================== *)
(** * More about the core apply routine and the backup store *)
(* ===================================================================== *)

Module EditorMore.
Import PyStr PyStrFacts PathFacts CodeEditor ApplyEditFacts.

(** [apply_edit] when it was asked for a backup and succeeded. *)
Lemma apply_edit_success_with_backup
    (E : env) (fs : filesystem) (p content : string) (validate : bool) :
  success (apply_edit E fs p content validate true).2 = true ->
  exists old,
    fs !! p = Some old /\
    apply_edit E fs p content validate true
    = (<[p := content]> (<[backup_path_for E p := old]> fs),
       set_success true
         ((if validate && endswith ".py" p
           then set_validation (Some (validate_python_syntax E content))
           else fun r => r)
            (set_backup_path (Some (backup_path_for E p)) initial_result))).
Proof.
  intros Hs. destruct (apply_edit_success _ _ _ _ _ _ Hs) as (_ & Hg & Hw & _).
  rewrite (apply_edit_admitted _ _ _ _ _ _ Hg) in Hs |- *.
  destruct (fs !! p) as [old|] eqn:Hp; simpl in *; [| discriminate].
  exists old. split; [reflexivity |].
  unfold write_text. now rewrite Hw.
Qed.

(** Whatever happens, [apply_edit] leaves every path alone that is
    neither its target nor the place of its backup. *)
Lemma apply_edit_frame
    (E : env) (fs : filesystem) (p content : string) (validate cb : bool)
    (q : string) :
  q <> p -> q <> backup_path_for E p ->
  (apply_edit E fs p content validate cb).1 !! q = fs !! q.
Proof.
  intros Hq Hb.
  assert (Hleft : forall (base : filesystem) (w : write_failure),
            base !! q = fs !! q ->
            (match wf_left w with
             | Some c0 => <[p := c0]> base
             | None => base
             end) !! q = fs !! q).
  { intros base w Hbase. destruct (wf_left w); [| exact Hbase].
    now rewrite lookup_insert_ne. }
  destruct (gate_rejects E p content validate) eqn:Hg.
  - rewrite (apply_edit_rejected _ _ _ _ _ _ Hg).
    destruct cb; simpl; [| reflexivity].
    destruct (fs !! p); simpl; [| reflexivity]. now rewrite lookup_insert_ne.
  - rewrite (apply_edit_admitted _ _ _ _ _ _ Hg).
    destruct cb; simpl.
    + destruct (fs !! p) as [c|]; simpl; [| reflexivity].
      assert (Hbase : <[backup_path_for E p := c]> fs !! q = fs !! q)
        by now rewrite lookup_insert_ne.
      unfold write_text. destruct (write_fault E) as [w|]; simpl;
        [| now rewrite lookup_insert_ne].
      pose proof (Hleft _ w Hbase) as H2.
      pose proof (backup_path_neq E p) as Hne.
      assert (Hbp : (match wf_left w with
                     | Some c0 => <[p := c0]> (<[backup_path_for E p := c]> fs)
                     | None => <[backup_path_for E p := c]> fs
                     end) !! backup_path_for E p = Some c).
      { destruct (wf_left w).
        - rewrite lookup_insert_ne by congruence. apply lookup_insert_eq.
        - apply lookup_insert_eq. }
      unfold apply_edit_handler, path_exists, copy2.
      destruct (validate && endswith ".py" p); simpl; rewrite Hbp;
        destruct (truthy (backup_path_for E p)); simpl; try exact H2;
        destruct (restore_fault E); simpl; try exact H2;
        rewrite lookup_insert_ne by congruence; exact H2.
    + unfold write_text. destruct (write_fault E) as [w|]; simpl;
        [| now rewrite lookup_insert_ne].
      pose proof (Hleft fs w eq_refl) as H2.
      unfold apply_edit_handler.
      destruct (validate && endswith ".py" p); simpl; exact H2.
Qed.

(** X1.  When [apply_edit] succeeds with [create_backup=True], the
    result names the backup, the backup holds the content the file had
    before the call, the file holds the new content, and nothing was
    restored and no error is reported. *)
Theorem successful_edit_backup_holds_original
    (E : env) (fs : filesystem) (file_path new_content : string)
    (validate : bool) :
  let res := apply_edit E fs file_path new_content validate true in
  let bp := backup_path_for E file_path in
  success res.2 = true ->
  exists old,
    fs !! file_path = Some old /\
    backup_path res.2 = Some bp /\
    res.1 !! bp = Some old /\
    res.1 !! file_path = Some new_content /\
    error res.2 = None /\ restored res.2 = false.
Proof.
  intros res bp Hs. subst res bp.
  destruct (apply_edit_success_with_backup _ _ _ _ _ Hs) as (old & Hp & ->).
  exists old. pose proof (backup_path_neq E file_path) as Hne.
  destruct (validate && endswith ".py" file_path); simpl;
    (repeat split; try assumption;
     [rewrite lookup_insert_ne by congruence; apply lookup_insert_eq
     | apply lookup_insert_eq]).
Qed.

(** X2.  Edit, then restore: after a successful [apply_edit] with
    [create_backup=True], [restore_from_backup] with the backup the
    result names returns [True], gives the file back the content it had
    before the edit, and touches no other file. *)
Theorem restore_undoes_edit
    (E : env) (fs : filesystem) (file_path new_content : string)
    (validate : bool) (bp : string) :
  let res := apply_edit E fs file_path new_content validate true in
  success res.2 = true ->
  backup_path res.2 = Some bp ->
  let back := restore_from_backup E res.1 file_path bp in
  back.2 = true /\
  back.1 !! file_path = fs !! file_path /\
  forall q, q <> file_path -> back.1 !! q = res.1 !! q.
Proof.
  intros res Hs Hbp. subst res.
  destruct (apply_edit_success_with_backup _ _ _ _ _ Hs) as (old & Hp & Heq).
  rewrite Heq in Hbp |- *. pose proof (backup_path_neq E file_path) as Hne.
  assert (Hb : bp = backup_path_for E file_path).
  { destruct (validate && endswith ".py" file_path); simpl in Hbp; congruence. }
  subst bp. cbn [fst snd].
  unfold restore_from_backup, path_exists, copy2.
  rewrite lookup_insert_ne by congruence. rewrite lookup_insert_eq. simpl.
  split; [reflexivity |]. split.
  - now rewrite lookup_insert_eq.
  - intros q Hq. now rewrite lookup_insert_ne.
Qed.

(** X3.  After a successful [apply_edit] with [create_backup=True],
    [compare_with_backup] of the file with the backup of the result
    compares the two texts as they are read, with every line end read
    as a line feed: when the new content and the old bytes are UTF-8,
    it reports [identical] exactly when the two agree up to the form
    of their line ends, and the difference of their numbers of
    characters after that translation; when the old bytes are not
    UTF-8 it reports the error of the decoder. *)
Theorem compare_after_edit
    (E : env) (fs : filesystem) (file_path new_content old : string)
    (validate : bool) (bp : string) :
  let res := apply_edit E fs file_path new_content validate true in
  fs !! file_path = Some old ->
  success res.2 = true ->
  backup_path res.2 = Some bp ->
  TextIO.utf8_valid new_content = true ->
  let cmp := compare_with_backup E res.1 file_path bp in
  let current := TextIO.universal_newlines new_content in
  let backup := TextIO.universal_newlines old in
  (TextIO.utf8_valid old = true ->
     (identical cmp = true <-> current = backup) /\
     size_difference cmp
     = Z.of_nat (TextIO.code_points current)
       - Z.of_nat (TextIO.code_points backup) /\
     current_lines cmp = Z.of_nat (length (split_nl current)) /\
     backup_lines cmp = Z.of_nat (length (split_nl backup)) /\
     cmp_error cmp = None) /\
  (TextIO.utf8_valid old = false ->
     identical cmp = false /\ cmp_error cmp = Some (decode_error E old)).
Proof.
  intros res Hold Hs Hbp Hnew. subst res.
  destruct (apply_edit_success_with_backup _ _ _ _ _ Hs) as (old' & Hp & Heq).
  assert (old' = old) as -> by congruence.
  rewrite Heq in Hbp |- *. pose proof (backup_path_neq E file_path) as Hne.
  assert (Hb : bp = backup_path_for E file_path).
  { destruct (validate && endswith ".py" file_path); simpl in Hbp; congruence. }
  subst bp. cbn [fst snd].
  unfold compare_with_backup, TextIO.read_utf8.
  rewrite lookup_insert_eq.
  rewrite lookup_insert_ne by congruence. rewrite lookup_insert_eq, Hnew.
  split; intros Hv; rewrite Hv; cbn.
  - split; [apply String.eqb_eq |]. now repeat split.
  - now split.
Qed.

(** X4.  Whatever the outcome, and whatever raises, [apply_edit]
    leaves every file alone that is neither its target nor the place
    of its backup. *)
Theorem apply_edit_touches_target_and_backup_only
    (E : env) (fs : filesystem) (file_path new_content : string)
    (validate create_backup_ : bool) (q : string) :
  q <> file_path -> q <> backup_path_for E file_path ->
  (apply_edit E fs file_path new_content validate create_backup_).1 !! q
  = fs !! q.
Proof. apply apply_edit_frame. Qed.

(** X5.  A file whose name does not end with [.py], or an edit with
    [validate=False], is never checked: the parser has no influence on
    what [apply_edit] does, and the result has no validation entry. *)
Theorem unvalidated_edit_ignores_parser
    (E : env) (fs : filesystem) (file_path new_content : string)
    (validate create_backup_ : bool)
    (other_parser : string -> parse_outcome) :
  validate && endswith ".py" file_path = false ->
  apply_edit (with_parse other_parser E) fs file_path new_content validate
    create_backup_
  = apply_edit E fs file_path new_content validate create_backup_ /\
  validation_
    (apply_edit E fs file_path new_content validate create_backup_).2 = None.
Proof.
  intros Hv. unfold apply_edit, create_backup, copy2, backup_path_for.
  rewrite Hv. cbn [with_parse backup_dir now].
  destruct create_backup_; simpl.
  - destruct (path_exists fs file_path); simpl;
      [| unfold apply_edit_handler; simpl; now split].
    destruct (fs !! file_path); simpl;
      [| unfold apply_edit_handler; simpl; now split].
    unfold write_text, apply_edit_handler. cbn [with_parse write_fault restore_fault].
    destruct (write_fault E) as [w|]; simpl; [| now split].
    repeat (match goal with
            | |- context [match ?x with _ => _ end] => destruct x; simpl
            end); now split.
  - unfold write_text, apply_edit_handler. cbn [with_parse write_fault restore_fault].
    destruct (write_fault E) as [w|]; simpl; now split.
Qed.

(** X6.  A file that does not exist yet: with [create_backup=True]
    (the default) [apply_edit] fails with "File not found" and creates
    nothing, valid content or not; with [create_backup=False] it
    creates the file with the new content, provided the validation
    gate lets the content pass and the write does not raise. *)
Theorem apply_edit_on_missing_file
    (E : env) (fs : filesystem) (file_path new_content : string)
    (validate : bool) :
  fs !! file_path = None ->
  apply_edit E fs file_path new_content validate true
  = (fs, set_error (Some ("File not found: " +:+ file_path)) initial_result) /\
  (gate_rejects E file_path new_content validate = false ->
   write_fault E = None ->
     success (apply_edit E fs file_path new_content validate false).2 = true /\
     (apply_edit E fs file_path new_content validate false).1
     = <[file_path := new_content]> fs).
Proof.
  intros Hp. split.
  - unfold apply_edit. rewrite (create_backup_missing E fs file_path Hp).
    reflexivity.
  - intros Hg Hw. rewrite (apply_edit_admitted _ _ _ _ _ _ Hg). simpl.
    unfold write_text. rewrite Hw. now split.
Qed.

(** X7.  Without a backup a write that raises is not undone: with
    [create_backup=False], when the write raises, [apply_edit] reports
    the exception, restores nothing, and the file is left with whatever
    the interrupted write put there. *)
Theorem failed_write_without_backup_is_not_undone
    (E : env) (fs : filesystem) (file_path new_content : string)
    (validate : bool) (w : write_failure) :
  gate_rejects E file_path new_content validate = false ->
  write_fault E = Some w ->
  let res := apply_edit E fs file_path new_content validate false in
  success res.2 = false /\
  restored res.2 = false /\
  backup_path res.2 = None /\
  error res.2 = Some (str_exn (wf_exn w)) /\
  res.1 !! file_path
  = match wf_left w with Some leftover => Some leftover | None => fs !! file_path end /\
  forall q, q <> file_path -> res.1 !! q = fs !! q.
Proof.
  intros Hg Hw res. subst res.
  rewrite (apply_edit_admitted _ _ _ _ _ _ Hg). simpl.
  unfold write_text. rewrite Hw. unfold apply_edit_handler.
  destruct (validate && endswith ".py" file_path); simpl;
    (repeat split;
     [destruct (wf_left w); [apply lookup_insert_eq | reflexivity]
     | intros q Hq; destruct (wf_left w);
       [now rewrite lookup_insert_ne | reflexivity]]).
Qed.

(** X8.  The name of a backup has the second as its finest unit: two
    [create_backup] calls for one file at the same clock reading write
    to the same path, so the second replaces what the first had
    saved. *)
Theorem same_second_backups_collide
    (E E' : env) (fs fs2 : filesystem) (file_path first second : string) :
  now E' = now E -> backup_dir E' = backup_dir E ->
  fs !! file_path = Some first ->
  fs2 !! file_path = Some second ->
  exists bp fs1 fs3,
    create_backup E fs file_path = inr (bp, fs1) /\
    fs1 !! bp = Some first /\
    create_backup E' fs2 file_path = inr (bp, fs3) /\
    fs3 !! bp = Some second.
Proof.
  intros Hnow Hdir H1 H2.
  assert (Hsame : backup_path_for E' file_path = backup_path_for E file_path).
  { unfold backup_path_for. now rewrite Hnow, Hdir. }
  exists (backup_path_for E file_path),
         (<[backup_path_for E file_path := first]> fs),
         (<[backup_path_for E file_path := second]> fs2).
  rewrite (create_backup_found E fs file_path first H1).
  rewrite (create_backup_found E' fs2 file_path second H2), Hsame.
  repeat split; apply lookup_insert_eq.
Qed.

Lemma startswith_app_r (p s t : string) :
  startswith p s = true -> startswith p (s +:+ t) = true.
Proof.
  intros H. rewrite (startswith_inv p s H), PyStrFacts.app_assoc.
  apply startswith_app.
Qed.

(** X9.  [get_backups] looks where [create_backup] writes, and its
    test on the names it finds there, "starts with the file name and
    ends with [.bak]", accepts the backups of the file itself and also
    those of every file of the same directory whose name starts with
    the name of the file. *)
Theorem get_backups_selects_by_prefix
    (E : env) (file_path other_path : string) :
  PosixPath.dirname other_path = PosixPath.dirname file_path ->
  startswith (PosixPath.basename file_path) (PosixPath.basename other_path)
    = true ->
  let backup_file :=
    PosixPath.basename other_path +:+ "." +:+ strftime (now E) +:+ ".bak" in
  backup_path_for E other_path
    = BackupStore.listed_path E file_path backup_file /\
  BackupStore.selected (PosixPath.basename file_path) backup_file = true.
Proof.
  intros Hdir Hpre backup_file. split.
  - unfold backup_path_for, BackupStore.listed_path, BackupStore.backup_subdir.
    now rewrite Hdir.
  - unfold BackupStore.selected, backup_file.
    rewrite (startswith_app_r _ _ _ Hpre). simpl.
    rewrite <- !PyStrFacts.app_assoc. apply endswith_app.
Qed.

(** ** These theorems at concrete inputs *)

Lemma successful_edit_backup_holds_original_witness :
  let fs := Examples.one_file "m.py" Examples.src_assign in
  let res := apply_edit Examples.calm fs "m.py" Examples.src_assign_two true true in
  success res.2 = true /\
  exists old, fs !! "m.py" = Some old /\
              res.1 !! backup_path_for Examples.calm "m.py" = Some old /\
              res.1 !! "m.py" = Some Examples.src_assign_two.
Proof.
  intros fs res.
  assert (h : success res.2 = true) by (vm_compute; reflexivity).
  split; [exact h |].
  destruct (successful_edit_backup_holds_original Examples.calm fs "m.py"
              Examples.src_assign_two true h)
    as (old & H1 & _ & H3 & H4 & _).
  exists old. split; [exact H1 |]. split; [exact H3 | exact H4].
Defined.

Lemma restore_undoes_edit_witness :
  let fs := Examples.one_file "m.py" Examples.src_assign in
  let bp := backup_path_for Examples.calm "m.py" in
  let res := apply_edit Examples.calm fs "m.py" Examples.src_assign_two true true in
  success res.2 = true /\
  backup_path res.2 = Some bp /\
  (restore_from_backup Examples.calm res.1 "m.py" bp).2 = true /\
  (restore_from_backup Examples.calm res.1 "m.py" bp).1 !! "m.py"
    = fs !! "m.py".
Proof.
  intros fs bp res.
  assert (h1 : success res.2 = true) by (vm_compute; reflexivity).
  assert (h2 : backup_path res.2 = Some bp) by (vm_compute; reflexivity).
  split; [exact h1 |]. split; [exact h2 |].
  destruct (restore_undoes_edit Examples.calm fs "m.py"
              Examples.src_assign_two true bp h1 h2) as (H1 & H2 & _).
  split; [exact H1 | exact H2].
Defined.

Lemma compare_after_edit_witness :
  let fs := Examples.one_file "m.py" Examples.src_assign in
  let bp := backup_path_for Examples.calm "m.py" in
  let res :=
    apply_edit Examples.calm fs "m.py" Examples.src_assign_crlf false true in
  fs !! "m.py" = Some Examples.src_assign /\
  success res.2 = true /\
  backup_path res.2 = Some bp /\
  TextIO.utf8_valid Examples.src_assign_crlf = true /\
  TextIO.utf8_valid Examples.src_assign = true /\
  Examples.src_assign_crlf <> Examples.src_assign /\
  identical (compare_with_backup Examples.calm res.1 "m.py" bp) = true /\
  size_difference (compare_with_backup Examples.calm res.1 "m.py" bp) = 0.
Proof.
  intros fs bp res.
  assert (h0 : fs !! "m.py" = Some Examples.src_assign)
    by (vm_compute; reflexivity).
  assert (h1 : success res.2 = true) by (vm_compute; reflexivity).
  assert (h2 : backup_path res.2 = Some bp) by (vm_compute; reflexivity).
  assert (h3 : TextIO.utf8_valid Examples.src_assign_crlf = true)
    by reflexivity.
  assert (h4 : TextIO.utf8_valid Examples.src_assign = true) by reflexivity.
  split; [exact h0 |]. split; [exact h1 |]. split; [exact h2 |].
  split; [exact h3 |]. split; [exact h4 |].
  split; [vm_compute; discriminate |].
  destruct (compare_after_edit Examples.calm fs "m.py"
              Examples.src_assign_crlf Examples.src_assign false bp
              h0 h1 h2 h3) as [Hvalid _].
  destruct (Hvalid h4) as (Hi & Hd & _).
  split.
  - apply Hi. vm_compute. reflexivity.
  - etransitivity; [exact Hd | vm_compute; reflexivity].
Defined.

Lemma apply_edit_touches_target_and_backup_only_witness :
  let fs := <["other.py" := Examples.src_two_f]>
              (Examples.one_file "m.py" Examples.src_assign) in
  "other.py" <> "m.py" /\
  "other.py" <> backup_path_for Examples.calm "m.py" /\
  (apply_edit Examples.disk_full fs "m.py" Examples.src_assign_two true true).1
    !! "other.py" = fs !! "other.py".
Proof.
  intros fs.
  assert (h1 : "other.py" <> "m.py") by discriminate.
  assert (h2 : "other.py" <> backup_path_for Examples.calm "m.py")
    by (vm_compute; discriminate).
  split; [exact h1 |]. split; [exact h2 |].
  exact (apply_edit_touches_target_and_backup_only Examples.disk_full fs "m.py"
           Examples.src_assign_two true true "other.py" h1 h2).
Defined.

Lemma unvalidated_edit_ignores_parser_witness :
  let fs := Examples.one_file "notes.txt" Examples.src_assign in
  let reject_all := fun _ : string => RaisesOther "rejected" in
  true && endswith ".py" "notes.txt" = false /\
  apply_edit (with_parse reject_all Examples.calm) fs "notes.txt"
    Examples.src_unclosed true true
  = apply_edit Examples.calm fs "notes.txt" Examples.src_unclosed true true.
Proof.
  intros fs reject_all.
  assert (h : true && endswith ".py" "notes.txt" = false)
    by (vm_compute; reflexivity).
  split; [exact h |].
  exact (proj1 (unvalidated_edit_ignores_parser Examples.calm fs "notes.txt"
                  Examples.src_unclosed true true reject_all h)).
Defined.

Lemma apply_edit_on_missing_file_witness :
  let fs := Examples.one_file "m.py" Examples.src_assign in
  fs !! "new.py" = None /\
  gate_rejects Examples.calm "new.py" Examples.src_assign_two true = false /\
  write_fault Examples.calm = None /\
  success (apply_edit Examples.calm fs "new.py" Examples.src_assign_two
             true true).2 = false /\
  success (apply_edit Examples.calm fs "new.py" Examples.src_assign_two
             true false).2 = true.
Proof.
  intros fs.
  assert (h0 : fs !! "new.py" = None) by (vm_compute; reflexivity).
  assert (h1 : gate_rejects Examples.calm "new.py" Examples.src_assign_two true
               = false) by (vm_compute; reflexivity).
  assert (h2 : write_fault Examples.calm = None) by reflexivity.
  split; [exact h0 |]. split; [exact h1 |]. split; [exact h2 |].
  destruct (apply_edit_on_missing_file Examples.calm fs "new.py"
              Examples.src_assign_two true h0) as [Hwith Hwithout].
  split; [now rewrite Hwith | exact (proj1 (Hwithout h1 h2))].
Defined.

Lemma failed_write_without_backup_is_not_undone_witness :
  let fs := Examples.one_file "m.py" Examples.src_assign in
  let w := {| wf_exn := OSError "[Errno 28] No space left on device";
              wf_left := Some EmptyString |} in
  gate_rejects Examples.disk_full "m.py" Examples.src_assign_two true = false /\
  write_fault Examples.disk_full = Some w /\
  let res := apply_edit Examples.disk_full fs "m.py" Examples.src_assign_two
               true false in
  restored res.2 = false /\ res.1 !! "m.py" = Some EmptyString.
Proof.
  intros fs w.
  assert (h1 : gate_rejects Examples.disk_full "m.py" Examples.src_assign_two
                 true = false) by (vm_compute; reflexivity).
  assert (h2 : write_fault Examples.disk_full = Some w) by reflexivity.
  split; [exact h1 |]. split; [exact h2 |].
  destruct (failed_write_without_backup_is_not_undone Examples.disk_full fs
              "m.py" Examples.src_assign_two true w h1 h2)
    as (_ & Hr & _ & _ & Hf & _).
  split; [exact Hr | exact Hf].
Defined.

Lemma same_second_backups_collide_witness :
  let fs := Examples.one_file "m.py" Examples.src_assign in
  let fs2 := Examples.one_file "m.py" Examples.src_assign_two in
  now Examples.disk_full = now Examples.calm /\
  backup_dir Examples.disk_full = backup_dir Examples.calm /\
  fs !! "m.py" = Some Examples.src_assign /\
  fs2 !! "m.py" = Some Examples.src_assign_two /\
  exists bp fs1 fs3,
    create_backup Examples.calm fs "m.py" = inr (bp, fs1) /\
    create_backup Examples.disk_full fs2 "m.py" = inr (bp, fs3) /\
    fs3 !! bp = Some Examples.src_assign_two.
Proof.
  intros fs fs2.
  assert (h1 : now Examples.disk_full = now Examples.calm) by reflexivity.
  assert (h2 : backup_dir Examples.disk_full = backup_dir Examples.calm)
    by reflexivity.
  assert (h3 : fs !! "m.py" = Some Examples.src_assign)
    by (vm_compute; reflexivity).
  assert (h4 : fs2 !! "m.py" = Some Examples.src_assign_two)
    by (vm_compute; reflexivity).
  split; [exact h1 |]. split; [exact h2 |]. split; [exact h3 |].
  split; [exact h4 |].
  destruct (same_second_backups_collide Examples.calm Examples.disk_full fs fs2
              "m.py" _ _ h1 h2 h3 h4) as (bp & fs1 & fs3 & H1 & _ & H3 & H4).
  exists bp, fs1, fs3. split; [exact H1 |]. split; [exact H3 | exact H4].
Defined.

Lemma get_backups_selects_by_prefix_witness :
  PosixPath.dirname "src/m.pyc" = PosixPath.dirname "src/m.py" /\
  startswith (PosixPath.basename "src/m.py") (PosixPath.basename "src/m.pyc")
    = true /\
  backup_path_for Examples.calm "src/m.pyc"
    = BackupStore.listed_path Examples.calm "src/m.py"
        "m.pyc.20240115_120000.bak" /\
  BackupStore.selected "m.py" "m.pyc.20240115_120000.bak" = true.
Proof.
  assert (h1 : PosixPath.dirname "src/m.pyc" = PosixPath.dirname "src/m.py")
    by (vm_compute; reflexivity).
  assert (h2 : startswith (PosixPath.basename "src/m.py")
                 (PosixPath.basename "src/m.pyc") = true)
    by (vm_compute; reflexivity).
  split; [exact h1 |]. split; [exact h2 |].
  exact (get_backups_selects_by_prefix Examples.calm "src/m.py" "src/m.pyc"
           h1 h2).
Defined.

End EditorMore.

(* ===================================================================== *)
(** * More about the line, substring and function edits *)
(* ===================================================================== *)

Module GranularMore.
Import PyStr PyStrFacts PathFacts CodeEditor ApplyEditFacts.

#[local] Arguments String.append !_ _ / : simpl nomatch.

Lemma join_cons (sep x : string) (l : list string) :
  l <> [] -> join sep (x :: l) = x +:+ sep +:+ join sep l.
Proof. destruct l; [congruence | reflexivity]. Qed.

Lemma join_empty_cons (x : string) (l : list string) :
  join EmptyString (x :: l) = x +:+ join EmptyString l.
Proof.
  destruct l; simpl; [now rewrite PyStrFacts.app_nil_r | reflexivity].
Qed.

Lemma split_from_nonempty (cur s : string) : split_from cur s <> [].
Proof.
  revert cur. induction s as [|c s IH]; intros cur; simpl; [discriminate |].
  destruct (Ascii.eqb c nl); [discriminate | apply IH].
Qed.

Lemma join_split_from (cur s : string) :
  join LF (split_from cur s) = cur +:+ s.
Proof.
  revert cur. induction s as [|c s IH]; intros cur; simpl.
  - now rewrite PyStrFacts.app_nil_r.
  - destruct (Ascii.eqb_spec c nl) as [->|Hc].
    + rewrite join_cons by apply split_from_nonempty. now rewrite IH.
    + rewrite IH, PyStrFacts.app_assoc. reflexivity.
Qed.

(** ['\n'.join(s.split('\n')) == s] *)
Lemma join_split_nl (s : string) : join LF (split_nl s) = s.
Proof. apply join_split_from. Qed.

Lemma join_lines_from (cur s : string) :
  join EmptyString (lines_from cur s) = cur +:+ s.
Proof.
  revert cur. induction s as [|c s IH]; intros cur; simpl.
  - rewrite PyStrFacts.app_nil_r.
    destruct (String.eqb_spec cur EmptyString) as [->|Hc]; reflexivity.
  - destruct (Ascii.eqb_spec c nl) as [->|Hc].
    + rewrite join_empty_cons, IH. simpl. now rewrite PyStrFacts.app_assoc.
    + rewrite IH, PyStrFacts.app_assoc. reflexivity.
Qed.

(** [''.join(f.readlines())] is the text of the file. *)
Lemma join_readlines (s : string) : join EmptyString (readlines s) = s.
Proof. apply join_lines_from. Qed.

Lemma join_app (sep : string) (a b : list string) :
  a <> [] -> b <> [] ->
  join sep (a ++ b) = join sep a +:+ sep +:+ join sep b.
Proof.
  intros Ha Hb. induction a as [|x a IH]; [congruence |].
  destruct a as [|y a].
  - simpl app. now rewrite join_cons.
  - change ((x :: y :: a) ++ b) with (x :: ((y :: a) ++ b)).
    rewrite join_cons by discriminate. rewrite IH by discriminate.
    rewrite (join_cons sep x (y :: a)) by discriminate.
    now rewrite !PyStrFacts.app_assoc.
Qed.

(** A run of lines and their join are interchangeable inside a join. *)
Lemma join_flatten (sep : string) (a m b : list string) :
  m <> [] ->
  join sep (a ++ [join sep m] ++ b) = join sep (a ++ m ++ b).
Proof.
  intros Hm.
  assert (Hmid : join sep ([join sep m] ++ b) = join sep (m ++ b)).
  { destruct b as [|y b].
    - now rewrite !List.app_nil_r.
    - rewrite (join_app sep m (y :: b)) by (assumption || discriminate).
      simpl app. now rewrite join_cons by discriminate. }
  destruct a as [|x a]; [exact Hmid |].
  rewrite (join_app sep (x :: a)) by (discriminate || now destruct m).
  rewrite (join_app sep (x :: a) (m ++ b)) by (discriminate || now destruct m).
  now rewrite Hmid.
Qed.

(** X10.  [apply_line_edit] has no guard against an edit that changes
    nothing: when the new line is the text the line already has, with
    or without its line feed, the unchanged content of the file is
    handed to [apply_edit], which, validation and write permitting,
    backs the file up and writes it again. *)
Theorem line_edit_with_same_text_rewrites_file
    (E : env) (fs : filesystem) (file_path : string) (line_number : Z)
    (new_line : string) (validate create_backup_ : bool) (content : string) :
  fs !! file_path = Some content ->
  1 <= line_number ->
  readlines content !! Z.to_nat (line_number - 1) = Some (terminated new_line) ->
  let edit := apply_edit E fs file_path content validate create_backup_ in
  apply_line_edit E fs file_path line_number new_line validate create_backup_
  = (edit.1, update initial_result edit.2) /\
  (gate_rejects E file_path content validate = false -> write_fault E = None ->
     success edit.2 = true /\
     edit.1 !! file_path = Some content /\
     (create_backup_ = true ->
        edit.1 !! backup_path_for E file_path = Some content)).
Proof.
  intros Hp Hn Hline edit. subst edit. split.
  - unfold apply_line_edit, read_text. rewrite Hp.
    pose proof (lookup_lt_Some _ _ _ Hline) as Hlt.
    assert (Hb : (line_number <? 1)
                 || (Z.of_nat (length (readlines content)) <? line_number)
                 = false).
    { apply orb_false_iff. split; apply Z.ltb_ge; lia. }
    rewrite Hb, (list_insert_id _ _ _ Hline), join_readlines.
    now destruct (apply_edit E fs file_path content validate create_backup_).
  - intros Hg Hw.
    assert (Hs : success (apply_edit E fs file_path content validate
                            create_backup_).2 = true).
    { apply apply_edit_succeeds; [| exact Hg | exact Hw]. intros _. eauto. }
    split; [exact Hs |].
    destruct (apply_edit_success _ _ _ _ _ _ Hs) as (Hf & _).
    split; [exact Hf |]. intros ->.
    rewrite (apply_edit_admitted _ _ _ _ _ _ Hg), Hp. simpl.
    unfold write_text. rewrite Hw. simpl.
    rewrite lookup_insert_ne by (intros H; symmetry in H;
                                 now apply backup_path_neq in H).
    apply lookup_insert_eq.
Qed.

(** The span [lineno .. end_lineno] is taken 1-indexed and
    inclusive: when the new function text is the text of exactly these
    lines of the file, [apply_function_edit] hands the unchanged
    content to [apply_edit]. *)
Lemma function_edit_own_text
    (E : env) (fs : filesystem) (file_path function_name : string)
    (validate create_backup_ : bool) (content : string) (tree node : ast) :
  fs !! file_path = Some content ->
  parse E content = Parsed tree ->
  locate tree function_name = Some node ->
  let start_line := (span node).1 in
  let end_line := (span node).2 in
  let lines := split_nl content in
  1 <= start_line <= end_line ->
  end_line <= Z.of_nat (length lines) ->
  let own_text :=
    join LF (firstn (Z.to_nat (end_line - start_line + 1))
               (skipn (Z.to_nat (start_line - 1)) lines)) in
  let edit := apply_edit E fs file_path content validate create_backup_ in
  apply_function_edit E fs file_path function_name own_text validate
    create_backup_
  = (edit.1, update initial_result edit.2).
Proof.
  intros Hp Hparse Hloc start_line end_line lines Hse Hlen own_text edit.
  unfold apply_function_edit, read_text. rewrite Hp, Hparse, Hloc.
  subst start_line end_line. destruct (span node) as [s e]. cbn [fst snd] in *.
  unfold splice, slice_to, slice_from.
  assert (H1 : (s - 1 <? 0) = false) by (apply Z.ltb_ge; lia).
  assert (H2 : (e <? 0) = false) by (apply Z.ltb_ge; lia).
  rewrite H1, H2. fold lines.
  set (k := Z.to_nat (s - 1)) in *.
  set (n := Z.to_nat (e - s + 1)) in *.
  assert (He : Z.to_nat e = (k + n)%nat) by lia.
  set (mid := firstn n (skipn k lines)) in *.
  assert (Hmid : mid <> []).
  { intros Hm. apply (f_equal (@length _)) in Hm. subst mid.
    rewrite length_take, length_drop in Hm. simpl in Hm. lia. }
  assert (Hlines : firstn k lines ++ mid ++ skipn (Z.to_nat e) lines = lines).
  { subst mid. rewrite He, <- drop_drop.
    rewrite (take_drop n (skipn k lines)). apply take_drop. }
  subst own_text. rewrite (join_flatten LF _ mid _ Hmid), Hlines.
  unfold lines. rewrite join_split_nl. subst edit.
  now destruct (apply_edit E fs file_path content validate create_backup_).
Qed.

(** X11.  An empty [old_code] is found in every file, before its first
    character: [apply_partial_edit] then hands the new code followed by
    the whole content to [apply_edit]; with an empty new code as well
    it fails with "No changes were made". *)
Theorem partial_edit_with_empty_old_prepends
    (E : env) (fs : filesystem) (file_path new_code : string)
    (validate create_backup_ : bool) (content : string) :
  fs !! file_path = Some content ->
  (new_code <> EmptyString ->
     let edit :=
       apply_edit E fs file_path (new_code +:+ content) validate create_backup_ in
     apply_partial_edit E fs file_path EmptyString new_code validate
       create_backup_
     = (edit.1, update (set_changes_made true initial_result) edit.2)) /\
  apply_partial_edit E fs file_path EmptyString EmptyString validate
    create_backup_
  = (fs, set_error (Some "No changes were made") initial_result).
Proof.
  intros Hp. unfold apply_partial_edit, read_text. rewrite Hp.
  assert (Hc : contains EmptyString content = true) by now destruct content.
  assert (Hr : forall new, replace_first EmptyString new content
                           = new +:+ content) by now destruct content.
  rewrite Hc. simpl negb. cbv iota. rewrite !Hr. split.
  - intros Hnew. cbv zeta.
    assert (Hneq : String.eqb (new_code +:+ content) content = false).
    { apply String.eqb_neq. intros Heq. apply (f_equal len) in Heq.
      rewrite len_app in Heq. destruct new_code; [congruence |].
      unfold len in Heq. simpl in Heq. lia. }
    rewrite Hneq.
    now destruct (apply_edit E fs file_path (new_code +:+ content) validate
                    create_backup_).
  - simpl. now rewrite String.eqb_refl.
Qed.

(** ** These theorems at concrete inputs *)

Lemma line_edit_with_same_text_rewrites_file_witness :
  let fs := Examples.one_file "m.py" Examples.src_assign in
  fs !! "m.py" = Some Examples.src_assign /\
  1 <= 1 /\
  readlines Examples.src_assign !! Z.to_nat (1 - 1) = Some (terminated "x = 1") /\
  gate_rejects Examples.calm "m.py" Examples.src_assign true = false /\
  write_fault Examples.calm = None /\
  let res := apply_line_edit Examples.calm fs "m.py" 1 "x = 1" true true in
  let edit := apply_edit Examples.calm fs "m.py" Examples.src_assign true true in
  res = (edit.1, update initial_result edit.2) /\
  success edit.2 = true /\
  edit.1 !! backup_path_for Examples.calm "m.py" = Some Examples.src_assign.
Proof.
  intros fs.
  assert (h0 : fs !! "m.py" = Some Examples.src_assign)
    by (vm_compute; reflexivity).
  assert (h1 : 1 <= 1) by lia.
  assert (h2 : readlines Examples.src_assign !! Z.to_nat (1 - 1)
               = Some (terminated "x = 1")) by (vm_compute; reflexivity).
  assert (h3 : gate_rejects Examples.calm "m.py" Examples.src_assign true
               = false) by (vm_compute; reflexivity).
  assert (h4 : write_fault Examples.calm = None) by reflexivity.
  split; [exact h0 |]. split; [exact h1 |]. split; [exact h2 |].
  split; [exact h3 |]. split; [exact h4 |].
  destruct (line_edit_with_same_text_rewrites_file Examples.calm fs "m.py" 1
              "x = 1" true true _ h0 h1 h2) as [Heq Hgo].
  destruct (Hgo h3 h4) as (Hs & _ & Hb). cbv zeta.
  split; [exact Heq |]. split; [exact Hs | exact (Hb eq_refl)].
Defined.

Lemma partial_edit_with_empty_old_prepends_witness :
  let fs := Examples.one_file "m.py" Examples.src_assign in
  fs !! "m.py" = Some Examples.src_assign /\
  "y = 2" +:+ LF <> EmptyString /\
  (apply_partial_edit Examples.calm fs "m.py" EmptyString ("y = 2" +:+ LF)
     false true).1 !! "m.py"
  = Some ("y = 2" +:+ LF +:+ Examples.src_assign).
Proof.
  intros fs.
  assert (h0 : fs !! "m.py" = Some Examples.src_assign)
    by (vm_compute; reflexivity).
  assert (h1 : "y = 2" +:+ LF <> EmptyString) by discriminate.
  split; [exact h0 |]. split; [exact h1 |].
  destruct (partial_edit_with_empty_old_prepends Examples.calm fs "m.py"
              ("y = 2" +:+ LF) false true _ h0) as [Hgo _].
  specialize (Hgo h1). cbv zeta in Hgo.
  etransitivity; [exact (f_equal (fun r => r.1 !! "m.py") Hgo) |].
  vm_compute; reflexivity.
Defined.

End GranularMore.

(* ===================================================================== *)
(** * The detector and the analysis of a repository *)
(* ===================================================================== *)

Module DetectorMore.
Import PyStr PyStrFacts IssueDetector Orchestrator Detector Analysis.

#[local] Arguments String.append !_ _ / : simpl nomatch.

(** ** Complexity thresholds *)

Lemma severity_of_excess (max : Z) (r : cc_result) :
  (ci_severity (complexity_issue_of max r) = "warning"
     <-> cc_complexity r <= max + 5) /\
  (ci_severity (complexity_issue_of max r) = "error"
     <-> max + 5 < cc_complexity r).
Proof.
  unfold complexity_issue_of; cbn [ci_severity].
  destruct (Z.leb_spec (cc_complexity r) (max + 5)); split; split;
    try discriminate; try lia; reflexivity.
Qed.

(** X12.  [_analyze_complexity] reports a block exactly when its
    complexity exceeds [max_complexity], in the order of [cc_visit];
    the entry is a warning up to [max_complexity + 5] and an error
    above.  When reading or visiting raises, the result is one error
    entry without a line, which the ranking places at priority 2 and
    line 0. *)
Theorem analyze_complexity_thresholds (max : Z) (results : list cc_result) :
  let found := analyze_complexity max (inr results) in
  (forall r, In r results ->
     (max < cc_complexity r <-> In (complexity_issue_of max r) found)) /\
  Forall (fun i => exists c,
            ci_complexity i = Some c /\ ci_max_allowed i = Some max /\
            max < c /\
            (ci_severity i = "warning" <-> c <= max + 5) /\
            (ci_severity i = "error" <-> max + 5 < c)) found /\
  map ci_complexity found
  = map Some (List.filter (fun c => max <? c) (map cc_complexity results)) /\
  (forall e,
     get_issue_priority
       {| pylint_issues := [];
          complexity_issues := map as_issue (analyze_complexity max (inl e));
          maintainability_issues := [] |}
     = [Ranked {| type_ := "complexity";
                  message := Some ("Complexity analysis error: " +:+ str_exn e);
                  line := None; severity := Some "error" |} 2] /\
     line_of (Ranked {| type_ := "complexity";
                        message := Some ("Complexity analysis error: "
                                         +:+ str_exn e);
                        line := None; severity := Some "error" |} 2) = 0).
Proof.
  intros found. subst found. cbn [analyze_complexity].
  split; [| split; [| split]].
  - intros r Hr. rewrite List.in_map_iff. split.
    + intros Hlt. exists r. split; [reflexivity |].
      apply List.filter_In. split; [exact Hr | now apply Z.ltb_lt].
    + intros (r' & Heq & Hin). apply List.filter_In in Hin as [_ Hlt].
      apply Z.ltb_lt in Hlt.
      apply (f_equal ci_complexity) in Heq. cbn in Heq. congruence.
  - apply List.Forall_forall. intros i Hi.
    apply List.in_map_iff in Hi as (r & <- & Hin).
    apply List.filter_In in Hin as [_ Hlt]. apply Z.ltb_lt in Hlt.
    exists (cc_complexity r).
    split; [reflexivity |]. split; [reflexivity |]. split; [exact Hlt |].
    apply severity_of_excess.
  - induction results as [|r rs IH]; [reflexivity |]. cbn [List.filter map].
    destruct (max <? cc_complexity r); cbn [map]; now rewrite IH.
  - intros e. split; reflexivity.
Qed.

(** ** Lines of code *)

Lemma split_from_app_nl (cur a b : string) :
  split_from cur (a +:+ String nl b) = split_from cur a ++ split_nl b.
Proof.
  revert cur. induction a as [|c a IH]; intros cur; simpl.
  - reflexivity.
  - destruct (Ascii.eqb c nl); [now rewrite IH | apply IH].
Qed.

Lemma split_single_line (cur l : string) :
  RepoParser.count_char nl l = O -> split_from cur l = [cur +:+ l].
Proof.
  revert cur. induction l as [|c l IH]; intros cur; simpl.
  - now rewrite PyStrFacts.app_nil_r.
  - destruct (Ascii.eqb c nl); [discriminate |]. intros H.
    rewrite IH by exact H. now rewrite PyStrFacts.app_assoc.
Qed.

Lemma lstrip_blank (w rest : string) :
  blank w = true -> lstrip (w +:+ rest) = lstrip rest.
Proof.
  induction w as [|c w IH]; simpl; [reflexivity |].
  intros H. apply andb_true_iff in H as [Hc Hw]. rewrite Hc. now apply IH.
Qed.

Lemma strip_blank (w : string) : blank w = true -> strip w = EmptyString.
Proof.
  intros H. unfold strip. rewrite <- (PyStrFacts.app_nil_r w).
  now rewrite lstrip_blank.
Qed.

Lemma rstrip_head (c : ascii) (rest : string) :
  is_space c = false -> exists r, rstrip (String c rest) = String c r.
Proof.
  intros Hc. cbn [rstrip]. destruct (truthy (rstrip rest)); [eauto |].
  rewrite Hc. eauto.
Qed.

Lemma blank_pieces (cur w : string) :
  blank cur = true -> blank w = true ->
  Forall (fun l => is_code_line l = false) (split_from cur w).
Proof.
  revert cur. induction w as [|c w IH]; intros cur Hcur Hw; simpl.
  - constructor; [| constructor]. unfold is_code_line.
    now rewrite strip_blank.
  - simpl in Hw. apply andb_true_iff in Hw as [Hc Hw].
    destruct (Ascii.eqb c nl).
    + constructor; [| now apply IH].
      unfold is_code_line. now rewrite strip_blank.
    + apply IH; [| exact Hw].
      clear -Hcur Hc. induction cur as [|d cur IHc]; simpl in *.
      * now rewrite Hc.
      * apply andb_true_iff in Hcur as [Hd Hcur]. rewrite Hd. now apply IHc.
Qed.

Lemma filter_none {A} (f : A -> bool) (l : list A) :
  Forall (fun x => f x = false) l -> List.filter f l = [].
Proof.
  induction 1 as [|x l Hx _ IH]; [reflexivity |].
  cbn [List.filter]. now rewrite Hx.
Qed.

(** X13.  The line count of [_calculate_metrics] adds up over the
    lines of the text; a line counts exactly when it has a character
    that is not white space and the first such character is not [#];
    white space alone, an empty text included, counts nothing. *)
Theorem lines_of_code_counts :
  (forall a b,
     lines_of_code (a +:+ LF +:+ b)
     = (lines_of_code a + lines_of_code b)%nat) /\
  (forall w, blank w = true -> lines_of_code w = O) /\
  (forall w c rest,
     blank w = true -> is_space c = false ->
     is_code_line (w +:+ String c rest) = negb (Ascii.eqb c "#")) /\
  (forall l,
     RepoParser.count_char nl l = O ->
     lines_of_code l = if is_code_line l then 1%nat else O).
Proof.
  split; [| split; [| split]].
  - intros a b. unfold lines_of_code, split_nl.
    change (a +:+ LF +:+ b) with (a +:+ String nl b).
    rewrite split_from_app_nl, List.filter_app, List.length_app.
    reflexivity.
  - intros w Hw. unfold lines_of_code, split_nl.
    now rewrite (filter_none _ _ (blank_pieces EmptyString w eq_refl Hw)).
  - intros w c rest Hw Hc. unfold is_code_line, strip.
    rewrite (lstrip_blank w _ Hw). cbn [lstrip]. rewrite Hc.
    destruct (rstrip_head c rest Hc) as [r ->].
    change (truthy (String c r)) with true. cbn [startswith andb].
    rewrite (Ascii.eqb_sym "#" c). destruct (Ascii.eqb c "#"); now destruct r.
  - intros l Hl. unfold lines_of_code, split_nl.
    rewrite (split_single_line EmptyString l Hl). cbn [String.append List.filter].
    now destruct (is_code_line l).
Qed.

(** ** The analysis *)

Lemma get_issue_priority_length (d : issues_dict) :
  length (get_issue_priority d)
  = (length (pylint_issues d) + length (complexity_issues d)
     + length (maintainability_issues d))%nat.
Proof.
  unfold get_issue_priority.
  rewrite (Permutation_length (Ranking.list_sort_perm sort_key (collect d))).
  unfold collect. cbn [app]. rewrite !List.length_app, !List.length_map. lia.
Qed.

Lemma analyze_file_other (D : detectors) (path : string) :
  endswith ".py" path = false -> get_issue_priority (analyze_file D path) = [].
Proof. intros H. unfold analyze_file. rewrite H. reflexivity. Qed.

Lemma analysis_of_cons (path : string) (d : issues_dict)
    (found : list (string * issues_dict)) :
  analysis_of ((path, d) :: found)
  = match get_issue_priority d with
    | [] => analysis_of found
    | _ => {| file := path; issues := get_issue_priority d |} :: analysis_of found
    end.
Proof.
  unfold analysis_of. cbn [omap list_omap].
  now destruct (get_issue_priority d).
Qed.

Lemma analysis_files_python (D : detectors) (files : list string) :
  Forall (fun fi => endswith ".py" (file fi) = true)
    (all_issues (analyze_repository D files)).
Proof.
  unfold analyze_repository. cbn [all_issues].
  induction files as [|path files IH]; [constructor |].
  cbn [map]. rewrite analysis_of_cons.
  destruct (get_issue_priority (analyze_file D path)) as [|x l] eqn:Hr;
    [exact IH |].
  constructor; [| exact IH]. cbn [file].
  destruct (endswith ".py" path) eqn:Hpy; [reflexivity |].
  rewrite (analyze_file_other D path Hpy) in Hr. discriminate.
Qed.

(** X14.  [analyze_repository] lists exactly the files for which an
    analyzer reported something, in the order of the parse, each a
    [.py] file with its ranked issues; [total_issues] is the number of
    issues the analyzers reported over all files, and it is 0 exactly
    when the list is empty, which is when [fix_repository] returns
    early. *)
Theorem analyze_repository_lists_files_with_issues
    (D : detectors) (files : list string) :
  let report := analyze_repository D files in
  Forall (fun fi =>
            In (file fi) files /\ endswith ".py" (file fi) = true /\
            issues fi = get_issue_priority (analyze_file D (file fi)) /\
            issues fi <> []) (all_issues report) /\
  map file (all_issues report)
  = List.filter (fun path => (0 <? issue_count (analyze_file D path))%nat) files /\
  total_issues_found report
  = list_sum (map (fun path => issue_count (analyze_file D path)) files) /\
  (files_with_issues report <= files_analyzed report)%nat /\
  (files_with_issues report <= total_issues_found report)%nat /\
  (total_issues_found report = O <-> all_issues report = []).
Proof.
  intros report. subst report. unfold analyze_repository.
  cbn [all_issues total_issues_found files_with_issues files_analyzed].
  induction files as [|path files IH].
  - cbn. repeat split; try constructor; intros; reflexivity.
  - destruct IH as (IH1 & IH2 & IH3 & IH4 & IH5 & IH6).
    cbn [map]. rewrite analysis_of_cons.
    pose proof (get_issue_priority_length (analyze_file D path)) as Hn.
    fold (issue_count (analyze_file D path)) in Hn.
    cbn [List.filter list_sum length].
    destruct (get_issue_priority (analyze_file D path)) as [|x l] eqn:Hr.
    + assert (Hz : issue_count (analyze_file D path) = 0%nat)
        by (cbn [length] in Hn; lia).
      rewrite Hz. change (0 <? 0)%nat with false.
      change (list_sum (0%nat :: ?l)) with (list_sum l).
      split; [| repeat split; try assumption; try lia; apply IH6].
      eapply List.Forall_impl; [| exact IH1]. intros fi (H1 & H2).
      split; [now right | exact H2].
    + assert (Hpos : (0 <? issue_count (analyze_file D path))%nat = true)
        by (apply Nat.ltb_lt; rewrite <- Hn; cbn [length]; lia).
      rewrite Hpos. unfold total_issues in *.
      cbn [map list_sum length file issues]. rewrite <- Hn.
      assert (Hcons : forall a k, list_sum (a :: k) = (a + list_sum k)%nat)
        by reflexivity.
      rewrite !Hcons. cbn [length].
      split; [| split; [now f_equal | split; [lia | split; [lia |
                  split; [lia | split; [intros H0; exfalso; lia
                                       | discriminate]]]]]].
      constructor.
      * cbn [file issues]. split; [now left |].
        split; [| split; [now rewrite Hr | discriminate]].
        destruct (endswith ".py" path) eqn:Hpy; [reflexivity |].
        rewrite (analyze_file_other D path Hpy) in Hr. discriminate.
      * eapply List.Forall_impl; [| exact IH1]. intros fi (H1 & H2).
        split; [now right | exact H2].
Qed.

(** ** The ranking and the cap of the fix loop *)

Lemma sorted_take_drop {A} (R : A -> A -> Prop) (n : nat) (l : list A) :
  StronglySorted R l ->
  Forall (fun x => Forall (R x) (drop n l)) (take n l).
Proof.
  intros H. revert n. induction H as [|x l Hl IH Hx]; intros n.
  - destruct n; constructor.
  - destruct n as [|n]; [constructor |]. cbn [take drop]. constructor.
    + now apply Forall_drop.
    + apply IH.
Qed.

(** X15.  The five issues of a file that [fix_repository] attempts are
    the head of the ranked list: each of them has a higher priority
    than, or the priority of and a line not after, every issue the cap
    leaves out, the ranking having been made by [get_issue_priority]. *)
Theorem capped_issues_are_most_urgent
    (W : world) (dry_run : bool) (st : loop_state) (path : string)
    (d : issues_dict) :
  let ranked := get_issue_priority d in
  fix_file W dry_run st {| file := path; issues := ranked |}
  = foldl (fix_issue W dry_run path) st (take 5 ranked) /\
  ranked = take 5 ranked ++ drop 5 ranked /\
  Forall (fun x => Forall (may_precede x) (drop 5 ranked)) (take 5 ranked).
Proof.
  intros ranked. split; [reflexivity |].
  split; [now rewrite take_drop |].
  eapply List.Forall_impl;
    [| apply (sorted_take_drop (key_le sort_key)), Ranking.list_sort_sorted].
  intros x Hx. eapply List.Forall_impl; [| exact Hx].
  intros y. apply Ranking.key_le_may_precede.
Qed.

(** ** These theorems at concrete inputs *)

Lemma analyze_complexity_thresholds_witness :
  let g := CcResult "g" 5 16 in
  let found := analyze_complexity 10 (inr MoreExamples.three_blocks) in
  In g MoreExamples.three_blocks /\
  10 < cc_complexity g /\
  In (complexity_issue_of 10 g) found /\
  map ci_severity found = ["warning"; "error"] /\
  map ci_line found = [Some 1; Some 5].
Proof.
  intros g found.
  assert (h0 : In g MoreExamples.three_blocks) by (right; left; reflexivity).
  assert (h1 : 10 < cc_complexity g) by (cbn; lia).
  destruct (analyze_complexity_thresholds 10 MoreExamples.three_blocks)
    as [Hin _].
  split; [exact h0 |]. split; [exact h1 |].
  split; [exact (proj1 (Hin g h0) h1) |].
  split; vm_compute; reflexivity.
Defined.

Lemma lines_of_code_counts_witness :
  blank "  " = true /\
  is_space "#" = false /\
  is_code_line ("  " +:+ String "#" " c") = false /\
  RepoParser.count_char nl "x = 1  # d" = O /\
  lines_of_code "x = 1  # d" = 1%nat /\
  lines_of_code ("x = 1  # d" +:+ LF +:+ "  # c")
  = (lines_of_code "x = 1  # d" + lines_of_code "  # c")%nat.
Proof.
  destruct lines_of_code_counts as (Hadd & _ & Hline & Hone).
  assert (h0 : blank "  " = true) by reflexivity.
  assert (h1 : is_space "#" = false) by reflexivity.
  assert (h2 : RepoParser.count_char nl "x = 1  # d" = O) by reflexivity.
  split; [exact h0 |]. split; [exact h1 |].
  split; [exact (Hline "  " "#"%char " c" h0 h1) |].
  split; [exact h2 |].
  split; [exact (Hone "x = 1  # d" h2) | apply Hadd].
Defined.

Lemma analyze_repository_lists_files_with_issues_witness :
  let report :=
    analyze_repository MoreExamples.quiet ["a.py"; "b.py"; "notes.txt"] in
  map file (all_issues report) = ["a.py"] /\
  total_issues_found report = 2%nat /\
  (files_with_issues report <= files_analyzed report)%nat.
Proof.
  intros report.
  destruct (analyze_repository_lists_files_with_issues MoreExamples.quiet
              ["a.py"; "b.py"; "notes.txt"]) as (_ & Hf & Ht & Hle & _).
  split; [etransitivity; [exact Hf | vm_compute; reflexivity] |].
  split; [etransitivity; [exact Ht | vm_compute; reflexivity] | exact Hle].
Defined.

Lemma capped_issues_are_most_urgent_witness :
  let ranked := get_issue_priority MoreExamples.seven_found in
  map issue_of (drop 5 ranked)
  = [Examples.complexity_5; Examples.maintainability_1] /\
  Forall (fun x => Forall (may_precede x) (drop 5 ranked)) (take 5 ranked).
Proof.
  intros ranked. split; [vm_compute; reflexivity |].
  exact (proj2 (proj2 (capped_issues_are_most_urgent
                         Examples.one_bad_answer false
                         {| disk := Examples.one_file "m.py" Examples.src_assign; fixes_applied := [];
                            fixes_failed := []; progress := O |}
                         "m.py" MoreExamples.seven_found))).
Defined.

End DetectorMore.

(* ===================================================================== *)
(** * More about the fix loop *)
(* ===================================================================== *)

Module LoopMore.
Import PyStr PyStrFacts PathFacts CodeEditor ApplyEditFacts.
Import IssueDetector Orchestrator.

#[local] Arguments String.append !_ _ / : simpl nomatch.

(** What one iteration does to the disk and to [fixes_applied]: it
    leaves both alone, or it ran [apply_edit] on generated code [c]
    and took its file system, appending a fix only after a success. *)
Lemma fix_issue_cases (W : world) (dry_run : bool) (p : string)
    (st : loop_state) (i : ranked) :
  let sw := at_step W (progress st) in
  let st' := fix_issue W dry_run p st i in
  (disk st' = disk st /\ fixes_applied st' = fixes_applied st) \/
  (dry_run = false /\
   exists r c,
     sw_llm sw = inr r /\ code r = Some c /\ truthy c = true /\
     is_Some (disk st !! p) /\
     let e := apply_edit (sw_env sw) (disk st) p c true true in
     disk st' = e.1 /\
     (fixes_applied st' = fixes_applied st \/
      (success e.2 = true /\
       fixes_applied st'
       = fixes_applied st
         ++ [ {| af_file := p;
                 af_issue := default (str_issue W i) (message (issue_of i));
                 af_backup := backup_path e.2 |} ]))).
Proof.
  intros sw st'. subst sw st'. unfold fix_issue, try_fix, read_text.
  destruct (disk st !! p) as [old|] eqn:Hp; [| left; now split].
  destruct (sw_context (at_step W (progress st))); [left; now split |].
  destruct (sw_llm (at_step W (progress st))) as [|r] eqn:Hllm;
    [left; now split |].
  destruct (sw_log_llm (at_step W (progress st))); [left; now split |].
  destruct dry_run; [left; now split |].
  destruct (code r) as [c|] eqn:Hc; [| left; now split].
  destruct (truthy c) eqn:Ht; [| left; now split].
  right. split; [reflexivity |]. exists r, c.
  split; [reflexivity |]. split; [exact Hc |]. split; [exact Ht |].
  split; [eauto |].
  destruct (apply_edit (sw_env (at_step W (progress st))) (disk st) p c
              true true) as [fs' e] eqn:He.
  cbn [fst snd].
  destruct (sw_log_edit (at_step W (progress st))); [split; [| left]; reflexivity |].
  destruct (success e) eqn:Hs; [| split; [| left]; reflexivity].
  destruct (sw_log_summary (at_step W (progress st)));
    (split; [reflexivity | right; split; reflexivity]).
Qed.

Lemma run_cons (W : world) (dry_run : bool) (st : loop_state)
    (p : string) (i : ranked) (sched : list (string * ranked)) :
  run W dry_run st ((p, i) :: sched)
  = run W dry_run (fix_issue W dry_run p st i) sched.
Proof. reflexivity. Qed.

Lemma fix_repository_run (W : world) (dry_run : bool) (fs : filesystem)
    (analysis : list file_issues) :
  (fix_repository W dry_run fs analysis).1
  = run W dry_run
      {| disk := fs; fixes_applied := []; fixes_failed := []; progress := O |}
      (schedule analysis).
Proof.
  unfold fix_repository.
  destruct (total_issues analysis =? 0)%nat eqn:Ht; cbn [fst].
  - apply Nat.eqb_eq in Ht. now rewrite (FixLoop.schedule_empty _ Ht).
  - apply FixLoop.fix_loop_run.
Qed.

Lemma fix_repository_applied (W : world) (dry_run : bool) (fs : filesystem)
    (analysis : list file_issues) :
  r_fixes_applied (fix_repository W dry_run fs analysis).2
  = Z.of_nat (length (fixes_applied (fix_repository W dry_run fs analysis).1)).
Proof.
  unfold fix_repository.
  now destruct (total_issues analysis =? 0)%nat.
Qed.

Lemma schedule_files (analysis : list file_issues) (p : string) (i : ranked) :
  In (p, i) (schedule analysis) -> In p (map file analysis).
Proof.
  unfold schedule. rewrite List.in_flat_map. intros (fi & Hfi & Hin).
  apply List.in_map_iff in Hin as (j & Heq & _). injection Heq as <- _.
  now apply List.in_map.
Qed.

(** ** Dry runs *)

Lemma run_dry (W : world) (sched : list (string * ranked)) (st : loop_state) :
  disk (run W true st sched) = disk st /\
  fixes_applied (run W true st sched) = fixes_applied st.
Proof.
  revert st. induction sched as [|[p i] sched IH]; intros st; [now split |].
  rewrite run_cons. destruct (IH (fix_issue W true p st i)) as [-> ->].
  destruct (fix_issue_cases W true p st i) as [H | [H _]];
    [exact H | discriminate].
Qed.

(** X16.  A dry run makes no mutation: whatever the collaborators
    answer, no iteration calls [apply_edit], so after the loop of
    [fix_repository] with [dry_run=True] every file of the analysis
    holds what it held before and no backup of such a file was made or
    changed, [fixes_applied] is 0, and every capped issue was still
    visited. *)
Theorem dry_run_makes_no_mutation
    (W : world) (fs : filesystem) (analysis : list file_issues) :
  let out := fix_repository W true fs analysis in
  (forall st path issue, attempted_edit W true path st issue = None) /\
  (forall fi, In fi analysis -> disk out.1 !! file fi = fs !! file fi) /\
  (forall n fi, In fi analysis ->
     disk out.1 !! backup_path_for (sw_env (at_step W n)) (file fi)
     = fs !! backup_path_for (sw_env (at_step W n)) (file fi)) /\
  fixes_applied out.1 = [] /\
  r_fixes_applied out.2 = 0 /\
  progress out.1 = length (schedule analysis).
Proof.
  intros out. subst out.
  rewrite fix_repository_applied, fix_repository_run.
  destruct (run_dry W (schedule analysis)
              {| disk := fs; fixes_applied := []; fixes_failed := [];
                 progress := O |}) as [Hd Ha].
  rewrite Hd, Ha, FixLoop.run_progress. cbn [disk].
  split; [| now repeat split].
  intros st path issue. unfold attempted_edit.
  destruct (read_text (disk st) path), (sw_context (at_step W (progress st))),
    (sw_llm (at_step W (progress st))),
    (sw_log_llm (at_step W (progress st))); reflexivity.
Qed.

(** ** A generator that returns no code *)

Lemma fix_issue_no_code (W : world) (p : string) (st : loop_state)
    (i : ranked) (ctx : string) (r : llm_response) :
  is_Some (disk st !! p) ->
  sw_context (at_step W (progress st)) = inr ctx ->
  sw_llm (at_step W (progress st)) = inr r ->
  code r = None \/ code r = Some EmptyString ->
  sw_log_llm (at_step W (progress st)) = None ->
  fix_issue W false p st i = advance st.
Proof.
  intros [old Hp] Hctx Hllm Hcode Hlog.
  unfold fix_issue, try_fix, read_text. rewrite Hp, Hctx, Hllm, Hlog.
  destruct Hcode as [-> | ->]; reflexivity.
Qed.

Lemma run_no_code (W : world) (sched : list (string * ranked))
    (st : loop_state) :
  (forall p i, In (p, i) sched -> is_Some (disk st !! p)) ->
  (forall n, exists ctx r,
      sw_context (at_step W n) = inr ctx /\
      sw_llm (at_step W n) = inr r /\
      (code r = None \/ code r = Some EmptyString) /\
      sw_log_llm (at_step W n) = None) ->
  disk (run W false st sched) = disk st /\
  fixes_applied (run W false st sched) = fixes_applied st /\
  fixes_failed (run W false st sched) = fixes_failed st.
Proof.
  intros Hfiles Hw. revert st Hfiles.
  induction sched as [|[p i] sched IH]; intros st Hfiles; [now repeat split |].
  rewrite run_cons.
  destruct (Hw (progress st)) as (ctx & r & Hctx & Hllm & Hcode & Hlog).
  rewrite (fix_issue_no_code W p st i ctx r
             (Hfiles p i (or_introl eq_refl)) Hctx Hllm Hcode Hlog).
  apply (IH (advance st)). intros q j Hq. apply (Hfiles q j). now right.
Qed.

(** X17.  An answer of the generator without code, or with empty code,
    is skipped without a trace in the report: the iteration only
    advances the progress.  A run in which every answer is like that
    reports [success=True] with no fix applied and none failed, and
    every file of the analysis holds what it held before. *)
Theorem answers_without_code_are_skipped
    (W : world) (fs : filesystem) (analysis : list file_issues) :
  (forall fi, In fi analysis -> is_Some (fs !! file fi)) ->
  (forall n, exists ctx r,
      sw_context (at_step W n) = inr ctx /\
      sw_llm (at_step W n) = inr r /\
      (code r = None \/ code r = Some EmptyString) /\
      sw_log_llm (at_step W n) = None) ->
  let out := fix_repository W false fs analysis in
  (forall fi, In fi analysis -> disk out.1 !! file fi = fs !! file fi) /\
  fixes_applied out.1 = [] /\
  fixes_failed out.1 = [] /\
  progress out.1 = length (schedule analysis) /\
  r_fixes_applied out.2 = 0 /\
  r_success out.2 = true.
Proof.
  intros Hfiles Hw out. subst out.
  assert (Hrun := run_no_code W (schedule analysis)
                    {| disk := fs; fixes_applied := []; fixes_failed := [];
                       progress := O |}).
  cbn [disk fixes_applied fixes_failed] in Hrun.
  destruct Hrun as (Hd & Ha & Hf); [| exact Hw |].
  { intros p i Hin. apply schedule_files in Hin.
    apply List.in_map_iff in Hin as (fi & <- & Hfi). now apply Hfiles. }
  rewrite fix_repository_applied, fix_repository_run, Hd, Ha, Hf,
    FixLoop.run_progress.
  repeat split; try reflexivity.
  unfold fix_repository.
  destruct (total_issues analysis =? 0)%nat; [reflexivity |].
  cbn [snd r_success]. rewrite FixLoop.fix_loop_run, Hf. reflexivity.
Qed.

(** ** Exceptions of the logger after the edit *)

(** X18.  The logger is called after [apply_edit] inside the same
    [try]: when [apply_edit] succeeded and [log_code_edit] raises, the
    file holds the new code but the fix is recorded as failed and not
    as applied; when [log_fix_summary] raises, the fix is recorded both
    as applied and as failed. *)
Theorem logger_exception_after_edit
    (W : world) (p : string) (st : loop_state) (i : ranked)
    (ctx c : string) (r : llm_response) :
  let sw := at_step W (progress st) in
  let st' := fix_issue W false p st i in
  let failed e :=
    {| ff_file := p; ff_issue := default "Unknown" (message (issue_of i));
       ff_error := Some (str_exn e) |} in
  is_Some (disk st !! p) ->
  sw_context sw = inr ctx ->
  sw_llm sw = inr r ->
  sw_log_llm sw = None ->
  code r = Some c ->
  truthy c = true ->
  success (apply_edit (sw_env sw) (disk st) p c true true).2 = true ->
  (forall e, sw_log_edit sw = Some e ->
     disk st' !! p = Some c /\
     fixes_applied st' = fixes_applied st /\
     fixes_failed st' = fixes_failed st ++ [failed e]) /\
  (forall e, sw_log_edit sw = None -> sw_log_summary sw = Some e ->
     disk st' !! p = Some c /\
     fixes_applied st'
     = fixes_applied st
       ++ [ {| af_file := p;
               af_issue := default (str_issue W i) (message (issue_of i));
               af_backup := Some (backup_path_for (sw_env sw) p) |} ] /\
     fixes_failed st' = fixes_failed st ++ [failed e]).
Proof.
  intros sw st' failed [old Hp] Hctx Hllm Hlog Hcode Ht Hs.
  subst sw st' failed.
  destruct (EditorMore.apply_edit_success_with_backup _ _ _ _ _ Hs)
    as (old' & _ & He).
  unfold fix_issue, try_fix, read_text.
  rewrite Hp, Hctx, Hllm, Hlog, Hcode, Ht, He.
  split; intros e Hedit; [| intros Hsum]; rewrite Hedit.
  - cbn. split; [apply lookup_insert_eq | now split].
  - cbn. rewrite Hsum. cbn. split; [apply lookup_insert_eq |].
    now destruct (endswith ".py" p).
Qed.

(** ** What the applied fixes record *)

Lemma run_applied (W : world) (dry_run : bool)
    (sched : list (string * ranked)) (st : loop_state) :
  exists extra,
    fixes_applied (run W dry_run st sched) = fixes_applied st ++ extra /\
    (length extra <= length sched)%nat /\
    Forall (fun a =>
              In (af_file a) (map fst sched) /\
              exists n,
                (progress st <= n < progress st + length sched)%nat /\
                af_backup a
                = Some (backup_path_for (sw_env (at_step W n)) (af_file a)))
      extra.
Proof.
  revert st. induction sched as [|[p i] sched IH]; intros st.
  - exists []. cbn. rewrite List.app_nil_r. repeat split; [lia | constructor].
  - rewrite run_cons.
    destruct (IH (fix_issue W dry_run p st i)) as (extra & -> & Hlen & Hall).
    rewrite FixLoop.fix_issue_progress in Hall.
    assert (Hall' :
      Forall (fun a =>
                In (af_file a) (map fst ((p, i) :: sched)) /\
                exists n,
                  (progress st <= n
                   < progress st + length ((p, i) :: sched))%nat /\
                  af_backup a
                  = Some (backup_path_for (sw_env (at_step W n)) (af_file a)))
        extra).
    { eapply List.Forall_impl; [| exact Hall].
      intros a (Hin & n & Hn & Hb). split; [now right |].
      exists n. split; [cbn [length]; lia | exact Hb]. }
    destruct (fix_issue_cases W dry_run p st i)
      as [[_ Ha] | (_ & r & c & _ & _ & _ & _ & _ & [Ha | [Hs Ha]])];
      cbv zeta in *.
    + exists extra. rewrite Ha. split; [reflexivity |].
      split; [cbn [length]; lia | exact Hall'].
    + exists extra. rewrite Ha. split; [reflexivity |].
      split; [cbn [length]; lia | exact Hall'].
    + eexists (_ :: extra). rewrite Ha, <- List.app_assoc.
      split; [reflexivity |]. split; [cbn [length]; lia |].
      constructor; [| exact Hall']. cbn [af_file af_backup].
      split; [now left |]. exists (progress st).
      split; [cbn [length]; lia |].
      destruct (EditorMore.apply_edit_success_with_backup _ _ _ _ _ Hs)
        as (old & _ & He).
      rewrite He. cbn [snd]. now destruct (endswith ".py" p).
Qed.

(** X19.  Every entry of [fixes_applied] names a file of the analysis
    and carries the backup path [apply_edit] made in the iteration that
    applied it; there is at most one entry per iteration, hence at most
    five per file. *)
Theorem applied_fixes_carry_backups
    (W : world) (dry_run : bool) (fs : filesystem)
    (analysis : list file_issues) :
  let out := fix_repository W dry_run fs analysis in
  Forall (fun a =>
            In (af_file a) (map file analysis) /\
            exists n,
              (n < length (schedule analysis))%nat /\
              af_backup a
              = Some (backup_path_for (sw_env (at_step W n)) (af_file a)))
    (fixes_applied out.1) /\
  (length (fixes_applied out.1) <= length (schedule analysis))%nat /\
  r_fixes_applied out.2 <= 5 * Z.of_nat (length analysis).
Proof.
  intros out. subst out.
  rewrite fix_repository_applied, fix_repository_run.
  destruct (run_applied W dry_run (schedule analysis)
              {| disk := fs; fixes_applied := []; fixes_failed := [];
                 progress := O |}) as (extra & -> & Hlen & Hall).
  cbn [fixes_applied progress app] in *.
  split; [| split; [exact Hlen |]].
  - eapply List.Forall_impl; [| exact Hall].
    intros a (Hin & n & Hn & Hb). split.
    + apply List.in_map_iff in Hin as ([q j] & <- & Hin).
      now apply schedule_files in Hin.
    + exists n. split; [lia | exact Hb].
  - assert (Hs : (length (schedule analysis) <= 5 * length analysis)%nat).
    { rewrite FixLoop.schedule_length. clear.
      assert (Hcons : forall a k, list_sum (a :: k) = (a + list_sum k)%nat)
        by reflexivity.
      induction analysis as [|fi l IH]; [cbn; lia |].
      cbn [map length]. rewrite Hcons. lia. }
    lia.
Qed.

(** ** What the loop leaves alone *)

Lemma run_frame (W : world) (dry_run : bool) (q : string)
    (sched : list (string * ranked)) (st : loop_state) :
  (forall p i, In (p, i) sched -> q <> p) ->
  (forall n p i, In (p, i) sched ->
                 q <> backup_path_for (sw_env (at_step W n)) p) ->
  disk (run W dry_run st sched) !! q = disk st !! q.
Proof.
  intros Hq Hb. revert st.
  induction sched as [|[p i] sched IH]; intros st; [reflexivity |].
  rewrite run_cons, IH.
  - destruct (fix_issue_cases W dry_run p st i)
      as [[-> _] | (_ & r & c & _ & _ & _ & _ & -> & _)]; [reflexivity |].
    apply EditorMore.apply_edit_frame.
    + apply (Hq p i). now left.
    + apply (Hb _ p i). now left.
  - intros p' j Hin. apply (Hq p' j). now right.
  - intros n p' j Hin. apply (Hb n p' j). now right.
Qed.

Lemma drop_chars_past (a b : string) (k : nat) :
  drop_chars (len a + k) (a +:+ b) = drop_chars k b.
Proof. induction a as [|x a IH]; [reflexivity | exact IH]. Qed.

Lemma not_py_after_bak (y : string) : endswith ".py" (y +:+ ".bak") = false.
Proof.
  unfold endswith. rewrite len_app.
  replace (len y + len ".bak" - len ".py")%nat with (len y + 1)%nat
    by (cbn; lia).
  rewrite drop_chars_past. apply andb_false_iff. right. reflexivity.
Qed.

(** A backup path ends with [.bak], not with [.py]. *)
Lemma backup_path_not_py (E : env) (p : string) :
  endswith ".py" (backup_path_for E p) = false.
Proof.
  unfold backup_path_for. cbv zeta.
  set (name := PosixPath.basename p +:+ "." +:+ strftime (now E)).
  set (dir := PosixPath.join (backup_dir E) _).
  replace (PosixPath.basename p +:+ "." +:+ strftime (now E) +:+ ".bak")
    with (name +:+ ".bak")
    by (subst name; now rewrite !PyStrFacts.app_assoc).
  unfold PosixPath.join.
  destruct (startswith "/" (name +:+ ".bak")); [apply not_py_after_bak |].
  destruct (negb (truthy dir) || endswith "/" dir).
  - rewrite <- PyStrFacts.app_assoc. apply not_py_after_bak.
  - rewrite <- !PyStrFacts.app_assoc. apply not_py_after_bak.
Qed.

Lemma py_is_no_backup_path (E : env) (p q : string) :
  endswith ".py" q = true -> q <> backup_path_for E p.
Proof. intros Hq ->. rewrite backup_path_not_py in Hq. discriminate. Qed.

(** X20.  A Python file that is not among the files of the analysis
    is left alone by the fix loop: it holds after the loop of
    [fix_repository] what it held before, whatever the collaborators
    answer and whichever writes fail.  The editor writes to the files
    of the analysis and to backup paths only, and a backup path ends
    with [.bak]. *)
Theorem python_files_without_issues_are_left_alone
    (W : world) (dry_run : bool) (fs : filesystem)
    (analysis : list file_issues) (q : string) :
  endswith ".py" q = true ->
  ~ In q (map file analysis) ->
  disk (fix_repository W dry_run fs analysis).1 !! q = fs !! q.
Proof.
  intros Hpy Hq. rewrite fix_repository_run, run_frame; [reflexivity | |].
  - intros p i Hin -> . apply schedule_files in Hin. contradiction.
  - intros n p i _. now apply py_is_no_backup_path.
Qed.

(** ** What the loop writes *)

Lemma gate_passed_parses (E : env) (p c : string) :
  endswith ".py" p = true -> gate_rejects E p c true = false ->
  exists tree, parse E c = Parsed tree.
Proof.
  unfold gate_rejects, validate_python_syntax. intros ->. cbn [andb].
  destruct (parse E c); cbn; eauto; discriminate.
Qed.

(** The target of [apply_edit] afterwards: what it held, or the new
    content if the gate let it pass. *)
Lemma apply_edit_target (E : env) (fs : filesystem) (p c : string) :
  write_fault E = None \/ restore_fault E = None ->
  (apply_edit E fs p c true true).1 !! p = fs !! p \/
  ((apply_edit E fs p c true true).1 !! p = Some c /\
   gate_rejects E p c true = false).
Proof.
  intros Hfault.
  destruct (gate_rejects E p c true) eqn:Hg.
  - left. now apply apply_edit_rejected_unchanged.
  - rewrite (apply_edit_admitted _ _ _ _ _ _ Hg).
    destruct (fs !! p) as [c0|] eqn:Hp; cbn [fst]; [| now left].
    cbv zeta. unfold write_text.
    assert (Hbp : backup_path_for E p <> p) by apply backup_path_neq.
    destruct (write_fault E) as [w|] eqn:Hw.
    + destruct Hfault as [Hf | Hr]; [discriminate |]. left.
      unfold apply_edit_handler.
      replace (backup_path _) with (Some (backup_path_for E p))
        by now destruct (endswith ".py" p).
      rewrite backup_path_truthy. unfold path_exists, copy2.
      set (fs2 := match wf_left w with
                  | Some c1 => <[p := c1]> (<[backup_path_for E p := c0]> fs)
                  | None => <[backup_path_for E p := c0]> fs
                  end).
      assert (H2 : fs2 !! backup_path_for E p = Some c0).
      { subst fs2. destruct (wf_left w).
        - rewrite lookup_insert_ne by congruence. apply lookup_insert_eq.
        - apply lookup_insert_eq. }
      rewrite H2, Hr. cbn [andb fst]. apply lookup_insert_eq.
    + right. cbn [fst]. split; [apply lookup_insert_eq | reflexivity].
Qed.

Lemma run_validated (W : world) (dry_run : bool) (q : string)
    (original : option string)
    (sched : list (string * ranked)) (st : loop_state) :
  (forall n, write_fault (sw_env (at_step W n)) = None \/
             restore_fault (sw_env (at_step W n)) = None) ->
  endswith ".py" q = true ->
  (disk st !! q = original \/
   exists n r c tree,
     sw_llm (at_step W n) = inr r /\ code r = Some c /\
     parse (sw_env (at_step W n)) c = Parsed tree /\
     disk st !! q = Some c) ->
  disk (run W dry_run st sched) !! q = original \/
  exists n r c tree,
    sw_llm (at_step W n) = inr r /\ code r = Some c /\
    parse (sw_env (at_step W n)) c = Parsed tree /\
    disk (run W dry_run st sched) !! q = Some c.
Proof.
  intros Hfault Hpy. revert st.
  induction sched as [|[p i] sched IH]; intros st Hinv; [exact Hinv |].
  rewrite run_cons. apply IH.
  destruct (fix_issue_cases W dry_run p st i)
    as [[-> _] | (_ & r & c & Hllm & Hcode & _ & _ & -> & _)];
    [exact Hinv |].
  destruct (decide (q = p)) as [-> | Hqp].
  - destruct (apply_edit_target (sw_env (at_step W (progress st))) (disk st)
                p c (Hfault (progress st))) as [-> | [-> Hg]];
      [exact Hinv |].
    right. destruct (gate_passed_parses _ p c Hpy Hg) as [tree Htree].
    exists (progress st), r, c, tree. now repeat split.
  - rewrite EditorMore.apply_edit_frame;
      [exact Hinv | exact Hqp | now apply py_is_no_backup_path].
Qed.

(** X21.  After the loop of [fix_repository], a Python file holds
    what it held before the run, or code that the generator returned
    in some iteration and that [ast.parse] accepted there, provided no
    iteration has both its write and its rollback fail: the fix loop
    leaves no Python file with text that was not validated. *)
Theorem fix_repository_writes_validated_code
    (W : world) (dry_run : bool) (fs : filesystem)
    (analysis : list file_issues) (q : string) :
  (forall n, write_fault (sw_env (at_step W n)) = None \/
             restore_fault (sw_env (at_step W n)) = None) ->
  endswith ".py" q = true ->
  disk (fix_repository W dry_run fs analysis).1 !! q = fs !! q \/
  exists n r c tree,
    sw_llm (at_step W n) = inr r /\ code r = Some c /\
    parse (sw_env (at_step W n)) c = Parsed tree /\
    disk (fix_repository W dry_run fs analysis).1 !! q = Some c.
Proof.
  intros Hfault Hpy. rewrite fix_repository_run.
  apply run_validated; [exact Hfault | exact Hpy | now left].
Qed.

(** ** These theorems at concrete inputs *)

Lemma dry_run_makes_no_mutation_witness :
  let fs := Examples.one_file "m.py" Examples.src_assign in
  let out := fix_repository Examples.one_bad_answer true fs Examples.analysis_m in
  In (hd {| file := EmptyString; issues := [] |} Examples.analysis_m)
    Examples.analysis_m /\
  disk out.1 !! "m.py" = Some Examples.src_assign /\
  fixes_applied out.1 = [] /\ progress out.1 = 5%nat.
Proof.
  intros fs out.
  assert (h0 : In (hd {| file := EmptyString; issues := [] |}
                     Examples.analysis_m) Examples.analysis_m)
    by (left; reflexivity).
  destruct (dry_run_makes_no_mutation Examples.one_bad_answer fs
              Examples.analysis_m) as (_ & Hd & _ & Ha & _ & Hp).
  split; [exact h0 |].
  split; [etransitivity; [exact (Hd _ h0) | vm_compute; reflexivity] |].
  split; [exact Ha | exact Hp].
Defined.

Lemma answers_without_code_are_skipped_witness :
  let fs := Examples.one_file "m.py" Examples.src_assign in
  let out := fix_repository MoreExamples.no_code false fs Examples.analysis_m in
  (forall fi, In fi Examples.analysis_m -> is_Some (fs !! file fi)) /\
  disk out.1 !! "m.py" = Some Examples.src_assign /\
  fixes_applied out.1 = [] /\ fixes_failed out.1 = [] /\
  r_success out.2 = true.
Proof.
  intros fs out.
  assert (h0 : forall fi, In fi Examples.analysis_m -> is_Some (fs !! file fi)).
  { intros fi [<- | []]. exists Examples.src_assign. vm_compute. reflexivity. }
  assert (h1 : forall n, exists ctx r,
             sw_context (at_step MoreExamples.no_code n) = inr ctx /\
             sw_llm (at_step MoreExamples.no_code n) = inr r /\
             (code r = None \/ code r = Some EmptyString) /\
             sw_log_llm (at_step MoreExamples.no_code n) = None).
  { intros n. eexists _, _. split; [reflexivity |]. split; [reflexivity |].
    split; [left |]; reflexivity. }
  destruct (answers_without_code_are_skipped MoreExamples.no_code fs
              Examples.analysis_m h0 h1) as (Hd & Ha & Hf & _ & _ & Hs).
  split; [exact h0 |].
  split; [etransitivity;
            [exact (Hd _ (or_introl eq_refl)) | vm_compute; reflexivity] |].
  split; [exact Ha |]. split; [exact Hf | exact Hs].
Defined.

Lemma logger_exception_after_edit_witness :
  let fs := Examples.one_file "m.py" Examples.src_assign in
  let st := {| disk := fs; fixes_applied := []; fixes_failed := [];
               progress := O |} in
  let i := Ranked Examples.style_warning_3 2 in
  let st' := fix_issue MoreExamples.edit_log_fails false "m.py" st i in
  success (apply_edit Examples.calm fs "m.py" Examples.src_assign_two
             true true).2 = true /\
  disk st' !! "m.py" = Some Examples.src_assign_two /\
  fixes_applied st' = [] /\
  fixes_failed st'
  = [ {| ff_file := "m.py"; ff_issue := "unused import";
         ff_error := Some "[Errno 28] No space left on device" |} ].
Proof.
  intros fs st i st'.
  assert (h0 : is_Some (disk st !! "m.py"))
    by (exists Examples.src_assign; vm_compute; reflexivity).
  assert (h1 : success (apply_edit Examples.calm fs "m.py"
                          Examples.src_assign_two true true).2 = true)
    by (vm_compute; reflexivity).
  destruct (logger_exception_after_edit MoreExamples.edit_log_fails "m.py"
              st i EmptyString Examples.src_assign_two
              {| code := Some Examples.src_assign_two; explanation := None |}
              h0 eq_refl eq_refl eq_refl eq_refl eq_refl h1) as [Hedit _].
  destruct (Hedit MoreExamples.log_full eq_refl) as (Hd & Ha & Hf).
  split; [exact h1 |]. split; [exact Hd |]. split; [exact Ha | exact Hf].
Defined.

Lemma applied_fixes_carry_backups_witness :
  let fs := Examples.one_file "m.py" Examples.src_assign in
  let out := fix_repository Examples.one_bad_answer false fs
               Examples.analysis_m in
  length (fixes_applied out.1) = 4%nat /\
  Forall (fun a =>
            In (af_file a) (map file Examples.analysis_m) /\
            exists n,
              (n < length (schedule Examples.analysis_m))%nat /\
              af_backup a
              = Some (backup_path_for
                        (sw_env (at_step Examples.one_bad_answer n))
                        (af_file a)))
    (fixes_applied out.1).
Proof.
  intros fs out. split; [vm_compute; reflexivity |].
  exact (proj1 (applied_fixes_carry_backups Examples.one_bad_answer false fs
                  Examples.analysis_m)).
Defined.

Lemma python_files_without_issues_are_left_alone_witness :
  let W := Examples.one_bad_answer in
  let fs := <["other.py" := Examples.src_two_f]>
              (Examples.one_file "m.py" Examples.src_assign) in
  endswith ".py" "other.py" = true /\
  ~ In "other.py" (map file Examples.analysis_m) /\
  disk (fix_repository W false fs Examples.analysis_m).1 !! "other.py"
  = Some Examples.src_two_f.
Proof.
  intros W fs.
  assert (h0 : endswith ".py" "other.py" = true) by reflexivity.
  assert (h1 : ~ In "other.py" (map file Examples.analysis_m))
    by (intros [H | []]; discriminate).
  split; [exact h0 |]. split; [exact h1 |].
  etransitivity;
    [exact (python_files_without_issues_are_left_alone W false fs
              Examples.analysis_m "other.py" h0 h1) |].
  vm_compute. reflexivity.
Defined.

Lemma fix_repository_writes_validated_code_witness :
  let W := Examples.one_bad_answer in
  let fs := Examples.one_file "m.py" Examples.src_assign in
  (forall n, write_fault (sw_env (at_step W n)) = None \/
             restore_fault (sw_env (at_step W n)) = None) /\
  endswith ".py" "m.py" = true /\
  disk (fix_repository W false fs Examples.analysis_m).1 !! "m.py"
  = Some Examples.src_assign_two /\
  exists n r tree,
    sw_llm (at_step W n) = inr r /\
    code r = Some Examples.src_assign_two /\
    parse (sw_env (at_step W n)) Examples.src_assign_two = Parsed tree.
Proof.
  intros W fs.
  assert (h0 : forall n, write_fault (sw_env (at_step W n)) = None \/
                         restore_fault (sw_env (at_step W n)) = None)
    by (intros n; left; now destruct n).
  assert (h1 : endswith ".py" "m.py" = true) by reflexivity.
  assert (h2 : disk (fix_repository W false fs Examples.analysis_m).1 !! "m.py"
               = Some Examples.src_assign_two) by (vm_compute; reflexivity).
  split; [exact h0 |]. split; [exact h1 |]. split; [exact h2 |].
  destruct (fix_repository_writes_validated_code W false fs
              Examples.analysis_m "m.py" h0 h1)
    as [Hsame | (n & r & c & tree & Hllm & Hcode & Hparse & Hd)].
  - rewrite h2 in Hsame. vm_compute in Hsame. discriminate.
  - rewrite h2 in Hd. injection Hd as Hc. subst c.
    exists n, r, tree. now repeat split.
Defined.

End LoopMore.

(* ===================================================================== *)
(** * The exclusion patterns of the repository parser *)
(* ===================================================================== *)

Module RepoMore.
Import PyStr PyStrFacts PathFacts RepoParser.

#[local] Arguments String.append !_ _ / : simpl nomatch.

Lemma split_char_length (sep : ascii) (cur s : string) :
  length (split_char_from sep cur s) = S (count_char sep s).
Proof.
  revert cur. induction s as [|c s IH]; intros cur; simpl; [reflexivity |].
  destruct (Ascii.eqb c sep); simpl; now rewrite IH.
Qed.

Lemma split_char_none (sep : ascii) (cur s : string) :
  count_char sep s = O -> split_char_from sep cur s = [cur +:+ s].
Proof.
  revert cur. induction s as [|c s IH]; intros cur; simpl.
  - now rewrite PyStrFacts.app_nil_r.
  - destruct (Ascii.eqb c sep); [discriminate |]. intros H.
    rewrite IH by exact H. now rewrite PyStrFacts.app_assoc.
Qed.

Lemma split_char_one (sep : ascii) (cur pre suf : string) :
  count_char sep pre = O -> count_char sep suf = O ->
  split_char_from sep cur (pre +:+ String sep suf) = [cur +:+ pre; suf].
Proof.
  revert cur. induction pre as [|c pre IH]; intros cur; simpl.
  - intros _ Hs. rewrite Ascii.eqb_refl, PyStrFacts.app_nil_r.
    now rewrite (split_char_none sep EmptyString suf Hs).
  - destruct (Ascii.eqb c sep); [discriminate |]. intros Hp Hs.
    rewrite IH by assumption. now rewrite PyStrFacts.app_assoc.
Qed.

Lemma contains_star (s : string) :
  contains "*" s = negb (count_char star s =? 0)%nat.
Proof.
  unfold contains. induction s as [|c s IH]; [reflexivity |].
  cbn [find startswith count_char]. rewrite (Ascii.eqb_sym "*" c).
  fold star. destruct (Ascii.eqb c star).
  - now destruct s.
  - change (0 + count_char star s)%nat with (count_char star s).
    rewrite <- IH. change (String star EmptyString) with "*"%string.
    now destruct (find "*" s).
Qed.

(** X22.  [_matches_pattern] knows one wildcard only: a pattern
    without a star matches the file name equal to it; a pattern with
    exactly one star matches the names that start with what stands
    before it and end with what stands after it, the two being allowed
    to overlap in the name; a pattern with two or more stars is
    compared literally. *)
Theorem matches_pattern_spec :
  (forall filename pattern,
     count_char star pattern = O ->
     matches_pattern filename pattern = String.eqb filename pattern) /\
  (forall filename pre suf,
     count_char star pre = O -> count_char star suf = O ->
     matches_pattern filename (pre +:+ "*" +:+ suf)
     = startswith pre filename && endswith suf filename) /\
  (forall pre mid suf,
     count_char star pre = O -> count_char star suf = O ->
     matches_pattern (pre +:+ mid +:+ suf) (pre +:+ "*" +:+ suf) = true) /\
  (forall name,
     count_char star name = O ->
     matches_pattern name (name +:+ "*" +:+ name) = true) /\
  (forall filename pattern,
     (2 <= count_char star pattern)%nat ->
     matches_pattern filename pattern = String.eqb filename pattern).
Proof.
  assert (Hone : forall filename pre suf,
             count_char star pre = O -> count_char star suf = O ->
             matches_pattern filename (pre +:+ "*" +:+ suf)
             = startswith pre filename && endswith suf filename).
  { intros f pre suf Hp Hs. unfold matches_pattern, split_char.
    change (pre +:+ "*" +:+ suf) with (pre +:+ String star suf).
    rewrite (split_char_one star EmptyString pre suf Hp Hs).
    cbn [String.append].
    assert (Hc : contains "*" (pre +:+ String star suf) = true).
    { apply contains_iff. exists pre, suf. reflexivity. }
    now rewrite Hc. }
  split; [| split; [exact Hone | split; [| split]]].
  - intros f pat H. unfold matches_pattern.
    rewrite contains_star, H. reflexivity.
  - intros pre mid suf Hp Hs. rewrite (Hone _ _ _ Hp Hs).
    rewrite startswith_app. rewrite endswith_app_r by apply endswith_app.
    reflexivity.
  - intros name Hn. rewrite (Hone _ _ _ Hn Hn).
    rewrite <- (PyStrFacts.app_nil_r name) at 2. rewrite startswith_app.
    change name with (EmptyString +:+ name) at 2. now rewrite endswith_app.
  - intros f pat H. unfold matches_pattern, split_char.
    pose proof (split_char_length star EmptyString pat) as Hlen.
    destruct (contains "*" pat); [| reflexivity].
    destruct (split_char_from star EmptyString pat) as [|a [|b [|c l]]];
      try reflexivity.
    cbn [length] in Hlen. lia.
Qed.

Lemma matches_pattern_spec_witness :
  count_char star "test_" = O /\
  count_char star ".py" = O /\
  matches_pattern "test_editor.py" "test_*.py" = true /\
  matches_pattern "a" "a*a" = true /\
  (2 <= count_char star "*_*.py")%nat /\
  matches_pattern "x_y.py" "*_*.py" = false.
Proof.
  destruct matches_pattern_spec as (_ & _ & Hmid & Hover & Htwo).
  assert (h0 : count_char star "test_" = O) by reflexivity.
  assert (h1 : count_char star ".py" = O) by reflexivity.
  assert (h2 : count_char star "a" = O) by reflexivity.
  assert (h3 : (2 <= count_char star "*_*.py")%nat) by (vm_compute; lia).
  split; [exact h0 |]. split; [exact h1 |].
  split; [exact (Hmid "test_" "editor" ".py" h0 h1) |].
  split; [exact (Hover "a" h2) |]. split; [exact h3 |].
  etransitivity; [exact (Htwo "x_y.py" "*_*.py" h3) | reflexivity].
Defined.

End RepoMore.

(* ===================================================================== *)
(** * The chunks of the embedding index *)
(* ===================================================================== *)

Module EmbeddingMore.
Import PyStr PyStrFacts EmbeddingIndex.

Lemma chunk_loop_S (fuel : nat) (size overlap : Z) (path : string)
    (lines : list string) (i cid : Z) (acc : list chunk) :
  chunk_loop (S fuel) size overlap path lines i cid acc
  = if i <? Z.of_nat (length lines) then
      let chunk_end := Z.min (i + size) (Z.of_nat (length lines)) in
      chunk_loop fuel size overlap path lines (i + (size - overlap)) (cid + 1)
        (acc ++ [ {| ch_id := path +:+ ":chunk_" +:+ pretty cid;
                     ch_text := join LF (PySeq.slice i chunk_end lines);
                     ch_file_path := path;
                     ch_start_line := i + 1;
                     ch_end_line := chunk_end;
                     ch_chunk_id := cid |} ])
    else Some acc.
Proof. reflexivity. Qed.

Lemma chunk_loop_mono (size overlap : Z) (path : string)
    (lines : list string) (fuel fuel' : nat) (i cid : Z)
    (acc r : list chunk) :
  (fuel <= fuel')%nat ->
  chunk_loop fuel size overlap path lines i cid acc = Some r ->
  chunk_loop fuel' size overlap path lines i cid acc = Some r.
Proof.
  revert fuel' i cid acc. induction fuel as [|fuel IH]; intros fuel' i cid acc Hle.
  - discriminate.
  - destruct fuel' as [|fuel']; [lia |]. rewrite !chunk_loop_S.
    destruct (i <? Z.of_nat (length lines)); [| trivial].
    cbv zeta. apply IH. lia.
Qed.

Lemma well_formed_weaken (size : Z) (path : string) (lines : list string)
    (i j : Z) (c : chunk) :
  j <= i -> well_formed size path lines i c -> well_formed size path lines j c.
Proof. unfold well_formed. intuition lia. Qed.

Lemma chunk_loop_spec (size overlap : Z) (path : string)
    (lines : list string) :
  0 <= overlap < size ->
  forall (fuel : nat) (i cid : Z) (acc : list chunk),
    0 <= i -> (0 < fuel)%nat ->
    Z.of_nat (length lines) - i < Z.of_nat fuel ->
    exists new,
      chunk_loop fuel size overlap path lines i cid acc = Some (acc ++ new) /\
      Forall (well_formed size path lines i) new /\
      (forall line, i < line <= Z.of_nat (length lines) ->
                    Exists (fun c => contains_line line c = true) new) /\
      StronglySorted (fun a b => ch_start_line a < ch_start_line b) new /\
      map ch_start_line new
      = map (fun k => i + Z.of_nat k * (size - overlap) + 1)
          (seq 0 (length new)) /\
      map ch_chunk_id new
      = map (fun k => cid + Z.of_nat k) (seq 0 (length new)) /\
      Z.of_nat (length new)
      = if i <? Z.of_nat (length lines)
        then (Z.of_nat (length lines) - i + (size - overlap) - 1)
             / (size - overlap)
        else 0.
Proof.
  intros Hso. set (N := Z.of_nat (length lines)).
  set (step := size - overlap). assert (Hstep : 1 <= step) by (subst step; lia).
  induction fuel as [|fuel IH]; intros i cid acc Hi Hpos Hfuel; [lia |].
  rewrite chunk_loop_S. fold N. destruct (Z.ltb_spec i N) as [Hlt | Hge].
  - cbv zeta. fold step.
    set (c := {| ch_id := path +:+ ":chunk_" +:+ pretty cid;
                 ch_text := join LF (PySeq.slice i (Z.min (i + size) N) lines);
                 ch_file_path := path; ch_start_line := i + 1;
                 ch_end_line := Z.min (i + size) N; ch_chunk_id := cid |}).
    destruct (IH (i + step) (cid + 1) (acc ++ [c]))
      as (new & Hrun & Hwf & Hcov & Hsort & Hstart & Hids & Hlen);
      [lia | lia | lia |].
    exists (c :: new). rewrite Hrun, <- List.app_assoc.
    split; [reflexivity |].
    assert (Hc : well_formed size path lines i c).
    { unfold well_formed. subst c. cbn.
      replace (i + 1 - 1) with i by lia. fold N. repeat split; try lia. }
    split; [constructor; [exact Hc |] |].
    { eapply List.Forall_impl; [| exact Hwf]. intros d.
      apply well_formed_weaken. lia. }
    split; [| split; [| split; [| split]]].
    + intros line Hline.
      destruct (Z.le_gt_cases line (Z.min (i + size) N)) as [Hin | Hout].
      * apply Exists_cons_hd. unfold contains_line. subst c. cbn.
        apply andb_true_iff. split; apply Z.leb_le; lia.
      * apply Exists_cons_tl. apply Hcov. lia.
    + constructor; [exact Hsort |].
      eapply List.Forall_impl; [| exact Hwf]. intros d (Hd & _).
      subst c. cbn. lia.
    + cbn [map length seq]. f_equal; [subst c; cbn; lia |].
      rewrite Hstart, <- List.seq_shift, List.map_map.
      apply List.map_ext. intros k. lia.
    + cbn [map length seq]. f_equal; [subst c; cbn; lia |].
      rewrite Hids, <- List.seq_shift, List.map_map.
      apply List.map_ext. intros k. lia.
    + cbn [length]. rewrite Nat2Z.inj_succ, Hlen.
      destruct (Z.ltb_spec (i + step) N) as [Hlt' | Hge'].
      * replace (N - i + step - 1) with ((N - (i + step) + step - 1) + 1 * step)
          by lia.
        rewrite Z.div_add by lia. lia.
      * change (Z.succ 0) with 1.
        assert (Hq : 1 = (N - i + step - 1) / step)
          by (apply (Z.div_unique_pos _ _ 1 (N - i - 1)); lia).
        now rewrite <- Hq.
  - exists []. rewrite List.app_nil_r. split; [reflexivity |].
    split; [constructor |]. split; [intros line Hline; lia |].
    split; [constructor |]. repeat split; reflexivity.
Qed.

Lemma chunk_loop_diverges (size overlap : Z) (path : string)
    (lines : list string) :
  size <= overlap -> lines <> [] ->
  forall (fuel : nat) (i cid : Z) (acc : list chunk),
    i <= 0 -> chunk_loop fuel size overlap path lines i cid acc = None.
Proof.
  intros Hso Hne. induction fuel as [|fuel IH]; intros i cid acc Hi;
    [reflexivity |].
  rewrite chunk_loop_S.
  assert (Hn : 0 < Z.of_nat (length lines)) by (destruct lines; [congruence | cbn; lia]).
  destruct (Z.ltb_spec i (Z.of_nat (length lines))); [| lia].
  cbv zeta. apply IH. lia.
Qed.

Lemma filter_sorted {A} (R : A -> A -> Prop) (f : A -> bool) (l : list A) :
  StronglySorted R l -> StronglySorted R (List.filter f l).
Proof.
  induction 1 as [|x l Hl IH Hx]; [constructor |]. cbn [List.filter].
  destruct (f x); [| exact IH]. constructor; [exact IH |].
  rewrite List.Forall_forall in *. intros y Hy.
  apply List.filter_In in Hy as [Hy _]. now apply Hx.
Qed.

Lemma list_sort_sorted_id {A} (key : A -> Z * Z) (l : list A) :
  StronglySorted (IssueDetector.key_le key) l ->
  IssueDetector.list_sort key l = l.
Proof.
  intros H. apply (Ranking.stable_sort_unique key).
  - apply Ranking.list_sort_sorted.
  - exact H.
  - intros k. apply Ranking.list_sort_stable.
Qed.

Lemma sorted_by_start (l : list chunk) :
  StronglySorted (fun a b => ch_start_line a < ch_start_line b) l ->
  StronglySorted (IssueDetector.key_le (fun c => (ch_start_line c, 0))) l.
Proof.
  induction 1 as [|x l Hl IH Hx]; constructor; [exact IH |].
  eapply List.Forall_impl; [| exact Hx]. intros y Hy.
  unfold IssueDetector.key_le. apply Ranking.tuple_lt_false.
  cbn [fst snd] in *. left. exact Hy.
Qed.

(** The chunks of a text, for sizes that let the loop end. *)
Lemma chunk_code_spec (size overlap : Z) (content path : string) :
  0 <= overlap < size ->
  let lines := split_nl content in
  exists chunks,
    (forall fuel, (length lines < fuel)%nat ->
       chunk_code fuel size overlap content path = Some chunks) /\
    (forall fuel other,
       chunk_code fuel size overlap content path = Some other ->
       other = chunks) /\
    Forall (well_formed size path lines 0) chunks /\
    (forall line, 1 <= line <= Z.of_nat (length lines) ->
                  Exists (fun c => contains_line line c = true) chunks) /\
    StronglySorted (fun a b => ch_start_line a < ch_start_line b) chunks /\
    map ch_start_line chunks
    = map (fun k => Z.of_nat k * (size - overlap) + 1)
        (seq 0 (length chunks)) /\
    map ch_chunk_id chunks = map Z.of_nat (seq 0 (length chunks)) /\
    Z.of_nat (length chunks)
    = (Z.of_nat (length lines) + (size - overlap) - 1) / (size - overlap).
Proof.
  intros Hso lines.
  assert (Hn : 0 < Z.of_nat (length lines)).
  { pose proof (GranularMore.split_from_nonempty EmptyString content) as Hne.
    fold (split_nl content) in Hne. fold lines in Hne.
    destruct lines; [congruence | cbn; lia]. }
  destruct (chunk_loop_spec size overlap path lines Hso
              (S (length lines)) 0 0 [])
    as (chunks & Hrun & Hwf & Hcov & Hsort & Hstart & Hids & Hlen);
    [lia | lia | lia |].
  cbn [app] in Hrun. exists chunks.
  split; [| split; [| split; [exact Hwf | split; [| split; [exact Hsort |]]]]].
  - intros fuel Hfuel. unfold chunk_code. fold lines.
    apply (chunk_loop_mono _ _ _ _ (S (length lines))); [lia | exact Hrun].
  - intros fuel other Hother. unfold chunk_code in Hother. fold lines in Hother.
    apply (chunk_loop_mono _ _ _ _ _ (Nat.max fuel (S (length lines))))
      in Hother; [| lia].
    apply (chunk_loop_mono _ _ _ _ _ (Nat.max fuel (S (length lines))))
      in Hrun; [| lia].
    congruence.
  - intros line Hline. apply Hcov. lia.
  - split; [| split].
    + rewrite Hstart. apply List.map_ext. intros k. lia.
    + rewrite Hids. apply List.map_ext. intros k. lia.
    + rewrite Hlen. destruct (Z.ltb_spec 0 (Z.of_nat (length lines))); [| lia].
      f_equal. lia.
Qed.

(** X23.  [chunk_code] with [0 <= chunk_overlap < chunk_size] ends
    after at most one iteration per line and returns at least one
    chunk; the chunks are numbered from 0, start
    [chunk_size - chunk_overlap] lines apart from line 1, hold at most
    [chunk_size] lines each, carry the text of their lines, and
    together contain every line of the file. *)
Theorem chunk_code_covers_every_line
    (chunk_size chunk_overlap : Z) (content file_path : string) :
  0 <= chunk_overlap < chunk_size ->
  let lines := split_nl content in
  exists chunks,
    (forall fuel, (length lines < fuel)%nat ->
       chunk_code fuel chunk_size chunk_overlap content file_path
       = Some chunks) /\
    chunks <> [] /\
    Forall (well_formed chunk_size file_path lines 0) chunks /\
    (forall line, 1 <= line <= Z.of_nat (length lines) ->
                  Exists (fun c => contains_line line c = true) chunks) /\
    map ch_start_line chunks
    = map (fun k => Z.of_nat k * (chunk_size - chunk_overlap) + 1)
        (seq 0 (length chunks)) /\
    map ch_chunk_id chunks = map Z.of_nat (seq 0 (length chunks)) /\
    Z.of_nat (length chunks)
    = (Z.of_nat (length lines) + (chunk_size - chunk_overlap) - 1)
      / (chunk_size - chunk_overlap).
Proof.
  intros Hso lines.
  destruct (chunk_code_spec chunk_size chunk_overlap content file_path Hso)
    as (chunks & Hrun & _ & Hwf & Hcov & _ & Hstart & Hids & Hlen).
  exists chunks. split; [exact Hrun |].
  split; [| now repeat split].
  intros ->.
  pose proof (GranularMore.split_from_nonempty EmptyString content) as Hne.
  fold (split_nl content) in Hne.
  specialize (Hcov 1). fold lines in Hcov.
  assert (H1 : 1 <= 1 <= Z.of_nat (length lines))
    by (subst lines; destruct (split_nl content); [congruence | cbn; lia]).
  apply Hcov in H1. inversion H1.
Qed.

(** X24.  [chunk_code] with [chunk_overlap >= chunk_size] never
    returns: the position does not move forward, and every text has a
    first line, so the loop condition stays true however long the loop
    runs. *)
Theorem chunk_code_never_returns
    (chunk_size chunk_overlap : Z) (content file_path : string) (fuel : nat) :
  chunk_size <= chunk_overlap ->
  chunk_code fuel chunk_size chunk_overlap content file_path = None.
Proof.
  intros Hso. unfold chunk_code.
  apply chunk_loop_diverges; [exact Hso | | lia].
  apply GranularMore.split_from_nonempty.
Qed.

(** X25.  [get_file_context] on the chunks [chunk_code] made of a file:
    for a line of the file it returns the texts of all chunks that
    contain the line, in the order of the file, so a line in the
    overlap of two chunks comes with both; for a line number outside
    the file, 0 included, it returns the empty string; the parameter
    [context_lines] has no influence. *)
Theorem context_of_a_line
    (chunk_size chunk_overlap : Z) (content file_path : string)
    (fuel : nat) (chunks : list chunk) (line_number context_lines : Z) :
  0 <= chunk_overlap < chunk_size ->
  chunk_code fuel chunk_size chunk_overlap content file_path = Some chunks ->
  let n := Z.of_nat (length (split_nl content)) in
  (line_number < 1 \/ n < line_number ->
     get_file_context chunks line_number context_lines = EmptyString) /\
  (1 <= line_number <= n ->
     List.filter (contains_line line_number) chunks <> [] /\
     get_file_context chunks line_number context_lines
     = join LF (map ch_text (List.filter (contains_line line_number) chunks))) /\
  get_file_context chunks line_number context_lines
  = get_file_context chunks line_number 50.
Proof.
  intros Hso Hrun n.
  destruct (chunk_code_spec chunk_size chunk_overlap content file_path Hso)
    as (chunks' & _ & Huniq & Hwf & Hcov & Hsort & _).
  rewrite (Huniq _ _ Hrun) in *. clear Huniq Hrun chunks.
  split; [| split; [| reflexivity]].
  - intros Hout. unfold get_file_context.
    destruct chunks' as [|c l] eqn:Hch; [reflexivity |]. rewrite <- Hch in *.
    rewrite DetectorMore.filter_none; [reflexivity |].
    eapply List.Forall_impl; [| exact Hwf].
    intros d (H1 & H2 & _). unfold contains_line. fold n in H2.
    apply andb_false_iff.
    destruct Hout; [left | right]; apply Z.leb_gt; lia.
  - intros Hin. specialize (Hcov line_number Hin).
    assert (Hne : List.filter (contains_line line_number) chunks' <> []).
    { apply List.Exists_exists in Hcov as (c & Hc & Hcl).
      intros Hnil. assert (Hf : In c (List.filter (contains_line line_number) chunks'))
        by (apply List.filter_In; now split).
      rewrite Hnil in Hf. destruct Hf. }
    split; [exact Hne |]. unfold get_file_context.
    destruct chunks' as [|c l] eqn:Hch; [now destruct Hne |]. rewrite <- Hch in *.
    destruct (List.filter (contains_line line_number) chunks') as [|r rs] eqn:Hf;
      [now destruct Hne |].
    rewrite <- Hf. rewrite list_sort_sorted_id; [reflexivity |].
    apply sorted_by_start, filter_sorted, Hsort.
Qed.

(** ** These theorems at concrete inputs *)

Lemma chunk_code_covers_every_line_witness :
  0 <= 1 < 2 /\
  exists chunks,
    chunk_code 6 2 1 ChunkExamples.five_lines "m.py" = Some chunks /\
    Z.of_nat (length chunks) = 5 /\
    Exists (fun c => contains_line 3 c = true) chunks.
Proof.
  assert (h0 : 0 <= 1 < 2) by lia.
  split; [exact h0 |].
  destruct (chunk_code_covers_every_line 2 1 ChunkExamples.five_lines "m.py" h0)
    as (chunks & Hrun & _ & _ & Hcov & _ & _ & Hlen).
  exists chunks.
  split; [apply Hrun; vm_compute; lia |].
  split; [etransitivity; [exact Hlen | vm_compute; reflexivity] |].
  apply Hcov. vm_compute. split; discriminate.
Defined.

Lemma chunk_code_never_returns_witness :
  2 <= 2 /\ chunk_code 1000 2 2 ChunkExamples.five_lines "m.py" = None.
Proof.
  assert (h0 : 2 <= 2) by lia.
  split; [exact h0 |].
  exact (chunk_code_never_returns 2 2 ChunkExamples.five_lines "m.py" 1000 h0).
Defined.

Lemma context_of_a_line_witness :
  0 <= 1 < 2 /\
  chunk_code 6 2 1 ChunkExamples.five_lines "m.py"
  = Some ChunkExamples.chunks_2_1 /\
  get_file_context ChunkExamples.chunks_2_1 0 50 = EmptyString /\
  get_file_context ChunkExamples.chunks_2_1 3 50
  = Examples.text ["b"; "c"; "c"; "d"].
Proof.
  assert (h0 : 0 <= 1 < 2) by lia.
  assert (h1 : chunk_code 6 2 1 ChunkExamples.five_lines "m.py"
               = Some ChunkExamples.chunks_2_1) by (vm_compute; reflexivity).
  split; [exact h0 |]. split; [exact h1 |].
  destruct (context_of_a_line 2 1 ChunkExamples.five_lines "m.py" 6
              ChunkExamples.chunks_2_1 0 50 h0 h1) as (Hout & _ & _).
  destruct (context_of_a_line 2 1 ChunkExamples.five_lines "m.py" 6
              ChunkExamples.chunks_2_1 3 50 h0 h1) as (_ & Hin & _).
  split; [apply Hout; left; lia |].
  destruct Hin as [_ Heq]; [vm_compute; split; discriminate |].
  etransitivity; [exact Heq | vm_compute; reflexivity].
Defined.

End EmbeddingMore.

(* ===================================================================== *)
(** * The batches of the commit manager *)
(* ===================================================================== *)

Module CommitMore.
Import PyStr PyStrFacts CommitManager.

#[local] Arguments String.append !_ _ / : simpl nomatch.

Lemma slice_window {A} (i k : Z) (l : list A) :
  0 <= i -> 0 <= k ->
  PySeq.slice i (i + k) l = take (Z.to_nat k) (drop (Z.to_nat i) l).
Proof.
  intros Hi Hk. unfold PySeq.slice, PySeq.clamp.
  destruct (Z.ltb_spec i 0); [lia |].
  destruct (Z.ltb_spec (i + k) 0); [lia |].
  destruct (Nat.le_gt_cases (Z.to_nat i) (length l)) as [Hin | Hout].
  - rewrite (Nat.min_l (Z.to_nat i)) by exact Hin.
    destruct (Nat.le_gt_cases (Z.to_nat (i + k)) (length l)) as [Hin' | Hout'].
    + rewrite Nat.min_l by exact Hin'. f_equal. lia.
    + rewrite Nat.min_r by lia.
      rewrite (take_ge (drop (Z.to_nat i) l) (Z.to_nat k))
        by (rewrite length_drop; lia).
      apply take_ge. rewrite length_drop. lia.
  - rewrite !Nat.min_r by lia. rewrite Nat.sub_diag.
    rewrite (drop_ge l (Z.to_nat i)) by lia. now rewrite take_nil.
Qed.

Lemma concat_windows {A} (k : nat) (m : nat) (l : list A) :
  (length l <= m * k)%nat ->
  concat (map (fun j => take k (drop (j * k) l)) (seq 0 m)) = l.
Proof.
  revert l. induction m as [|m IH]; intros l Hlen.
  - destruct l; [reflexivity | cbn in Hlen; lia].
  - cbn [seq map concat]. rewrite <- List.seq_shift, List.map_map.
    etransitivity; [| exact (take_drop k l)]. f_equal.
    etransitivity;
      [| apply (IH (drop k l)); rewrite length_drop; lia].
    f_equal. apply List.map_ext. intros j.
    rewrite drop_drop. reflexivity.
Qed.

Lemma range_len_pos (n : nat) (k : Z) :
  1 <= k ->
  let m := PySeq.range_len 0 (Z.of_nat n) k in
  (n <= m * Z.to_nat k)%nat /\
  (forall j, (j < m)%nat -> (j * Z.to_nat k < n)%nat) /\
  Z.of_nat m = (Z.of_nat n + k - 1) / k.
Proof.
  intros Hk m. subst m. unfold PySeq.range_len.
  destruct (Z.ltb_spec 0 k); [| lia]. cbn [andb].
  destruct (Z.ltb_spec 0 (Z.of_nat n)) as [Hn | Hn].
  - replace (Z.of_nat n - 1 - 0) with (Z.of_nat n - 1) by lia.
    pose proof (Z.div_pos (Z.of_nat n - 1) k ltac:(lia) ltac:(lia)) as Hq.
    pose proof (Z.mul_div_le (Z.of_nat n - 1) k ltac:(lia)) as Hle.
    pose proof (Z.mul_succ_div_gt (Z.of_nat n - 1) k ltac:(lia)) as Hgt.
    set (q := (Z.of_nat n - 1) / k) in *.
    split; [nia |]. split; [intros j Hj; nia |].
    replace (Z.of_nat n + k - 1) with (Z.of_nat n - 1 + 1 * k) by lia.
    rewrite Z.div_add by lia. fold q. lia.
  - assert (n = O) by lia. subst n. cbn [Z.of_nat].
    destruct (Z.ltb_spec k 0); [lia |]. cbn [andb].
    split; [lia |]. split; [intros j Hj; lia |].
    replace (0 + k - 1) with (k - 1) by lia.
    rewrite Z.div_small by lia. reflexivity.
Qed.

Lemma batches_windows {A} (k : Z) (l : list A) :
  1 <= k ->
  batches k l
  = Some (map (fun j => take (Z.to_nat k) (drop (j * Z.to_nat k) l))
            (seq 0 (PySeq.range_len 0 (Z.of_nat (length l)) k))).
Proof.
  intros Hk. unfold batches, PySeq.range.
  destruct (Z.eqb_spec k 0); [lia |]. rewrite List.map_map. f_equal.
  apply List.map_ext. intros j.
  rewrite slice_window by lia. do 2 f_equal. lia.
Qed.

(** ** Staging and the loop over the batches *)

Lemma stage_loop_quiet (G : git) (n : nat) (file_paths : list string) :
  (forall j e, index_add G n j <> Raised e) ->
  forall j staged failed,
    stage_loop G n j file_paths staged failed
    = inr (staged ++ entries_where (is_added G n) j file_paths,
           failed ++ entries_where (fun j => negb (is_added G n j)) j
                       file_paths).
Proof.
  intros Hq. induction file_paths as [|p rest IH]; intros j staged failed.
  - cbn. now rewrite !List.app_nil_r.
  - cbn [stage_loop entries_where]. unfold stage_file, is_added.
    destruct (index_add G n j) as [[]|m|e] eqn:Hj.
    + rewrite IH. cbn [negb]. now rewrite <- List.app_assoc.
    + rewrite IH. cbn [negb]. now rewrite <- List.app_assoc.
    + now apply Hq in Hj.
Qed.

Lemma stage_loop_returns (G : git) (n : nat) (file_paths : list string) :
  forall j staged failed out,
    stage_loop G n j file_paths staged failed = inr out ->
    forall i e, (i < length file_paths)%nat ->
      index_add G n (j + i) <> Raised e.
Proof.
  induction file_paths as [|p rest IH]; intros j staged failed out Hout i e Hi;
    [cbn in Hi; lia |].
  cbn [stage_loop] in Hout. unfold stage_file in Hout.
  destruct i as [|i].
  - rewrite Nat.add_0_r. intros Hr. rewrite Hr in Hout. discriminate.
  - replace (j + S i)%nat with (S j + i)%nat by lia.
    cbn [length] in Hi.
    destruct (index_add G n j) as [[]|m|e'];
      [| | discriminate]; eapply IH; eauto; lia.
Qed.

Lemma create_commit_quiet (G : git) (n : nat) (message : string) :
  raises_git_errors_only G ->
  exists cr, create_commit G n message = inr cr.
Proof.
  intros (_ & Hc & Hi). unfold create_commit.
  destruct (has_changes G n) as [[]|m|e] eqn:Hh; eauto;
    [| now apply Hc in Hh].
  destruct (index_commit G n) as [h|m|e] eqn:Hx; eauto.
  now apply Hi in Hx.
Qed.

(** What the n-th batch adds to the results when nothing but
    [GitCommandError] is raised. *)
Lemma commit_loop_quiet (G : git) (template : string -> string -> string)
    (bs : list (list fix_entry)) :
  raises_git_errors_only G ->
  forall n results,
  exists rs,
    commit_loop G template n bs results = inr (results ++ rs) /\
    length rs = length bs /\
    forall i b, bs !! i = Some b ->
      let file_paths := map fix_file_path b in
      let failed :=
        entries_where (fun j => negb (is_added G (n + i) j)) O file_paths in
      match failed with
      | [] =>
          exists cr,
            create_commit G (n + i) (batch_message template b) = inr cr /\
            rs !! i = Some (Commit cr)
      | _ :: _ =>
          rs !! i
          = Some (Staging
                    {| sr_success := false;
                       staged_files :=
                         entries_where (is_added G (n + i)) O file_paths;
                       failed_files := failed;
                       sr_error := None |})
      end.
Proof.
  intros Hq. pose proof Hq as (Ha & _ & _).
  induction bs as [|b rest IH]; intros n results.
  - exists []. cbn. rewrite List.app_nil_r. repeat split. intros i b [=].
  - cbn [commit_loop]. unfold stage_files.
    rewrite (stage_loop_quiet G n _ (Ha n)). cbn [List.app].
    set (failed := entries_where (fun j => negb (is_added G n j)) O
                     (map fix_file_path b)).
    destruct failed as [|f failed'] eqn:Hf.
    + cbn [length Nat.eqb negb sr_success].
      destruct (create_commit_quiet G n (batch_message template b) Hq)
        as [cr Hcr].
      rewrite Hcr.
      destruct (IH (S n) (results ++ [Commit cr])) as (rs & Hrs & Hlen & Hat).
      exists (Commit cr :: rs). rewrite Hrs, <- List.app_assoc.
      split; [reflexivity |]. split; [cbn; now rewrite Hlen |].
      intros [|i] b' Hb'; cbv zeta.
      * injection Hb' as <-. rewrite Nat.add_0_r. fold failed. rewrite Hf.
        exists cr. now split.
      * specialize (Hat i b' Hb'). cbv zeta in Hat.
        replace (n + S i)%nat with (S n + i)%nat by lia. exact Hat.
    + cbn [length Nat.eqb negb sr_success].
      set (sr := {| sr_success := false; staged_files := _;
                    failed_files := _; sr_error := None |}).
      destruct (IH (S n) (results ++ [Staging sr])) as (rs & Hrs & Hlen & Hat).
      exists (Staging sr :: rs). rewrite Hrs, <- List.app_assoc.
      split; [reflexivity |]. split; [cbn; now rewrite Hlen |].
      intros [|i] b' Hb'; cbv zeta.
      * injection Hb' as <-. rewrite Nat.add_0_r. fold failed. rewrite Hf.
        reflexivity.
      * specialize (Hat i b' Hb'). cbv zeta in Hat.
        replace (n + S i)%nat with (S n + i)%nat by lia. exact Hat.
Qed.

(** A loop that returns a list has met no other exception while
    staging: every file of every batch was handed to Git. *)
Lemma commit_loop_returns (G : git) (template : string -> string -> string)
    (bs : list (list fix_entry)) :
  forall n results out,
    commit_loop G template n bs results = inr out ->
    forall i b j e, bs !! i = Some b -> (j < length b)%nat ->
      index_add G (n + i) j <> Raised e.
Proof.
  induction bs as [|b rest IH]; intros n results out Hout i b' j e Hb' Hj;
    [discriminate |].
  cbn [commit_loop] in Hout. unfold stage_files in Hout.
  destruct (stage_loop G n 0 (map fix_file_path b) [] []) as [e'|[staged failed]]
    eqn:Hs; [discriminate |].
  destruct i as [|i].
  - injection Hb' as <-. rewrite Nat.add_0_r.
    apply (stage_loop_returns G n _ _ _ _ _ Hs j e).
    now rewrite List.length_map.
  - replace (n + S i)%nat with (S n + i)%nat by lia.
    cbn [sr_success] in Hout.
    destruct (negb (length failed =? 0)%nat).
    + eapply IH; eauto.
    + destruct (create_commit G n (batch_message template b));
        [discriminate |]. eapply IH; eauto.
Qed.

(** X26.  [commit_batch_fixes] with [max_changes_per_commit >= 1] cuts
    the fixes into consecutive batches of at most that many entries,
    none of them empty, which together are the list of fixes in its
    order.  If Git raises nothing but [GitCommandError], the call
    returns one result per batch: for a batch with a file that Git
    refused, the stage result with the staged and the failed files and
    no commit, and the result of [create_commit] otherwise.  Any other
    exception is not caught: a call that returns a list has met none
    while staging, and if adding the first file raises, the call
    raises that exception and returns no list.  With 0 the call raises
    the [ValueError] of [range], and with a negative number it commits
    nothing. *)
Theorem commit_batches_partition_fixes
    (G : git) (template : string -> string -> string)
    (max_changes_per_commit : Z) (fixes : list fix_entry) :
  (1 <= max_changes_per_commit ->
   exists bs,
     batches max_changes_per_commit fixes = Some bs /\
     concat bs = fixes /\
     Forall (fun b => 1 <= Z.of_nat (length b) <= max_changes_per_commit) bs /\
     Z.of_nat (length bs)
     = (Z.of_nat (length fixes) + max_changes_per_commit - 1)
       / max_changes_per_commit /\
     (raises_git_errors_only G ->
      exists results,
        commit_batch_fixes G template max_changes_per_commit fixes
        = inr results /\
        length results = length bs /\
        forall n b, bs !! n = Some b ->
          let file_paths := map fix_file_path b in
          let failed :=
            entries_where (fun j => negb (is_added G n j)) O file_paths in
          match failed with
          | [] =>
              exists cr,
                create_commit G n (batch_message template b) = inr cr /\
                results !! n = Some (Commit cr)
          | _ :: _ =>
              results !! n
              = Some (Staging
                        {| sr_success := false;
                           staged_files :=
                             entries_where (is_added G n) O file_paths;
                           failed_files := failed;
                           sr_error := None |})
          end) /\
     (forall results,
        commit_batch_fixes G template max_changes_per_commit fixes
        = inr results ->
        forall n b j e, bs !! n = Some b -> (j < length b)%nat ->
          index_add G n j <> Raised e) /\
     (forall e, fixes <> [] -> index_add G O O = Raised e ->
        commit_batch_fixes G template max_changes_per_commit fixes
        = inl (Propagated e))) /\
  (max_changes_per_commit = 0 ->
   commit_batch_fixes G template max_changes_per_commit fixes
   = inl RangeStepZero) /\
  (max_changes_per_commit < 0 ->
   commit_batch_fixes G template max_changes_per_commit fixes = inr []).
Proof.
  split; [| split].
  - intros Hk. set (K := Z.to_nat max_changes_per_commit).
    destruct (range_len_pos (length fixes) max_changes_per_commit Hk)
      as (Hcover & Hin & Hcount).
    set (m := PySeq.range_len 0 (Z.of_nat (length fixes))
                max_changes_per_commit) in *.
    eexists. rewrite (batches_windows _ _ Hk). fold K m.
    split; [reflexivity |].
    split; [apply concat_windows; exact Hcover |].
    split; [| split; [now rewrite List.length_map, List.length_seq |]].
    { apply List.Forall_forall. intros b Hb.
      apply List.in_map_iff in Hb as (j & <- & Hj).
      apply List.in_seq in Hj. specialize (Hin j ltac:(lia)). fold K in Hin.
      rewrite length_take, length_drop. lia. }
    unfold commit_batch_fixes. rewrite (batches_windows _ _ Hk). fold K m.
    set (bs := map _ (seq 0 m)).
    split; [| split].
    + intros Hq.
      destruct (commit_loop_quiet G template bs Hq O []) as (rs & Hrs & Hlen & Hat).
      exists rs. rewrite Hrs. split; [reflexivity |].
      split; [exact Hlen |]. exact Hat.
    + intros results Hres n b j e Hb Hj.
      destruct (commit_loop G template 0 bs []) as [e'|out] eqn:Hloop;
        [discriminate |].
      exact (commit_loop_returns G template bs O [] out Hloop n b j e Hb Hj).
    + intros e Hne Hadd.
      destruct fixes as [|f fixes']; [contradiction |].
      assert (Hm : (1 <= m)%nat) by (cbn [length] in Hcover; lia).
      subst bs. destruct m as [|m']; [lia |].
      cbn [seq map commit_loop]. rewrite Nat.mul_0_l. cbn [drop].
      assert (HK : (1 <= K)%nat) by (subst K; lia).
      destruct K as [|K']; [lia |]. cbn [take map].
      unfold stage_files. cbn [stage_loop]. unfold stage_file.
      now rewrite Hadd.
  - intros ->. reflexivity.
  - intros Hk. unfold commit_batch_fixes, batches, PySeq.range, PySeq.range_len.
    destruct (Z.eqb_spec max_changes_per_commit 0); [lia |].
    destruct (Z.ltb_spec 0 max_changes_per_commit); [lia |].
    destruct (Z.ltb_spec max_changes_per_commit 0); [| lia]. cbn [andb].
    destruct (Z.ltb_spec (Z.of_nat (length fixes)) 0); [lia |]. reflexivity.
Qed.

Lemma commit_batches_partition_fixes_witness :
  1 <= 2 /\
  raises_git_errors_only CommitExamples.first_stage_fails /\
  CommitExamples.three_fixes <> [] /\
  (exists bs results,
     batches 2 CommitExamples.three_fixes = Some bs /\
     concat bs = CommitExamples.three_fixes /\
     Z.of_nat (length bs) = 2 /\
     commit_batch_fixes CommitExamples.first_stage_fails
       CommitExamples.template 2 CommitExamples.three_fixes = inr results /\
     length results = length bs /\
     results !! O
     = Some (Staging {| sr_success := false; staged_files := [];
                        failed_files := ["src/a.py"; "src/b.py"];
                        sr_error := None |})) /\
  commit_batch_fixes CommitExamples.first_file_missing
    CommitExamples.template 2 CommitExamples.three_fixes
  = inl (Propagated CommitExamples.no_such_file).
Proof.
  assert (h0 : 1 <= 2) by lia.
  assert (h1 : raises_git_errors_only CommitExamples.first_stage_fails).
  { split; [| split]; [intros [|n] j e | intros n e | intros n e];
      discriminate. }
  assert (h2 : CommitExamples.three_fixes <> []) by discriminate.
  split; [exact h0 |]. split; [exact h1 |]. split; [exact h2 |]. split.
  - destruct (commit_batches_partition_fixes CommitExamples.first_stage_fails
                CommitExamples.template 2 CommitExamples.three_fixes)
      as [Hpos _].
    destruct (Hpos h0) as (bs & Hb & Hcat & _ & Hcount & Hquiet & _).
    destruct (Hquiet h1) as (results & Hr & Hlen & Hat).
    exists bs, results.
    split; [exact Hb |]. split; [exact Hcat |].
    split; [etransitivity; [exact Hcount | vm_compute; reflexivity] |].
    split; [exact Hr |]. split; [exact Hlen |].
    injection Hb as <-. exact (Hat O _ eq_refl).
  - destruct (commit_batches_partition_fixes CommitExamples.first_file_missing
                CommitExamples.template 2 CommitExamples.three_fixes)
      as [Hpos _].
    destruct (Hpos h0) as (bs & _ & _ & _ & _ & _ & _ & Hraise).
    exact (Hraise CommitExamples.no_such_file h2 eq_refl).
Defined.

End CommitMore.

(* ===================================================================== *)
(** * The generated code and the extracted function *)
(* ===================================================================== *)

Module GeneratedCode.
Import PyStr PyStrFacts PathFacts CodeEditor ApplyEditFacts.
Import IssueDetector Orchestrator Detector.

#[local] Arguments String.append !_ _ / : simpl nomatch.

Lemma rstrip_idem (s : string) : rstrip (rstrip s) = rstrip s.
Proof.
  induction s as [|c s IH]; [reflexivity |]. cbn [rstrip].
  destruct (truthy (rstrip s)) eqn:Ht.
  - cbn [rstrip]. now rewrite IH, Ht.
  - destruct (is_space c) eqn:Hc; [reflexivity |].
    cbn [rstrip]. cbn [truthy String.eqb negb]. now rewrite Hc.
Qed.

Lemma rstrip_last (s : string) :
  rstrip s = EmptyString \/
  exists a c, rstrip s = a +:+ String c EmptyString /\ is_space c = false.
Proof.
  induction s as [|c s IH]; [now left |]. cbn [rstrip].
  destruct (truthy (rstrip s)) eqn:Ht.
  - right. destruct IH as [He | (a & d & He & Hd)].
    + rewrite He in Ht. discriminate.
    + exists (String c a), d. rewrite He. now split.
  - destruct (is_space c) eqn:Hc; [now left |].
    right. exists EmptyString, c. now split.
Qed.

Lemma lstrip_first (s : string) :
  lstrip s = EmptyString \/
  exists c r, lstrip s = String c r /\ is_space c = false.
Proof.
  induction s as [|c s IH]; [now left |]. cbn [lstrip].
  destruct (is_space c) eqn:Hc; [exact IH |]. right. eauto.
Qed.

Lemma strip_first (s : string) :
  strip s = EmptyString \/
  exists c r, strip s = String c r /\ is_space c = false.
Proof.
  unfold strip. destruct (lstrip_first s) as [-> | (c & r & -> & Hc)];
    [now left |].
  right. destruct (DetectorMore.rstrip_head c r Hc) as [r' ->]. eauto.
Qed.

Lemma strip_idem (s : string) : strip (strip s) = strip s.
Proof.
  destruct (strip_first s) as [-> | (c & r & He & Hc)]; [reflexivity |].
  unfold strip at 1. rewrite He. cbn [lstrip]. rewrite Hc, <- He.
  unfold strip. apply rstrip_idem.
Qed.

Lemma no_final_line_feed (a : string) (c : ascii) :
  is_space c = false -> endswith LF (a +:+ String c EmptyString) = false.
Proof.
  intros Hc. unfold endswith. rewrite len_app.
  replace (len a + len (String c EmptyString) - len LF)%nat with (len a)
    by (cbn; lia).
  rewrite drop_chars_app. apply andb_false_iff. right.
  cbn [String.eqb LF]. destruct (Ascii.eqb_spec c nl) as [-> | _];
    [discriminate | reflexivity].
Qed.

(** The code entry of a parsed response has no white space at either
    end. *)
Lemma parse_response_code_stripped (code_blocks : list string) :
  strip (LLMAgent.parse_response_code code_blocks)
  = LLMAgent.parse_response_code code_blocks /\
  endswith LF (LLMAgent.parse_response_code code_blocks) = false.
Proof.
  unfold LLMAgent.parse_response_code.
  destruct code_blocks as [|block rest]; [now split |].
  split; [apply strip_idem |]. unfold strip.
  destruct (rstrip_last (lstrip block)) as [-> | (a & c & -> & Hc)];
    [reflexivity | now apply no_final_line_feed].
Qed.

(** X27.  The code of an answer is the first fenced block of the
    response with the white space at its ends stripped off, and the
    fix loop writes it as the whole file: after an iteration that
    applied a fix, the file holds exactly that stripped text, which has
    no white space at either end and so does not end with a line
    feed. *)
Theorem fixed_file_holds_stripped_code
    (W : world) (p : string) (st : loop_state) (i : ranked)
    (r : llm_response) (code_blocks : list string) :
  let sw := at_step W (progress st) in
  let st' := fix_issue W false p st i in
  let c := LLMAgent.parse_response_code code_blocks in
  sw_llm sw = inr r ->
  code r = Some c ->
  fixes_applied st' <> fixes_applied st ->
  disk st' !! p = Some c /\
  c = strip (hd EmptyString code_blocks) /\
  strip c = c /\
  endswith LF c = false /\
  truthy c = true.
Proof.
  intros sw st' c Hllm Hcode Happlied. subst sw st'.
  destruct (LoopMore.fix_issue_cases W false p st i)
    as [[_ Ha] | (_ & r' & c' & Hllm' & Hcode' & Ht & _ & Hd & Happ)];
    [contradiction |].
  cbv zeta in Hd, Happ. rewrite Hllm in Hllm'. injection Hllm' as <-.
  rewrite Hcode in Hcode'. injection Hcode' as <-.
  destruct Happ as [Ha | [Hs _]]; [contradiction |].
  destruct (apply_edit_success _ _ _ _ _ _ Hs) as (Hfile & _).
  rewrite Hd. split; [exact Hfile |].
  split; [subst c; now destruct code_blocks |].
  destruct (parse_response_code_stripped code_blocks) as [H1 H2].
  now repeat split.
Qed.

Lemma fixed_file_holds_stripped_code_witness :
  let W := ResponseExamples.fenced_answer in
  let st := {| disk := Examples.one_file "m.py" Examples.src_assign;
               fixes_applied := []; fixes_failed := []; progress := O |} in
  let i := Ranked Examples.style_warning_3 2 in
  let st' := fix_issue W false "m.py" st i in
  fixes_applied st' <> fixes_applied st /\
  disk st' !! "m.py" = Some (Examples.text ["x = 1"; "y = 2"]) /\
  endswith LF (Examples.text ["x = 1"; "y = 2"]) = false.
Proof.
  intros W st i st'.
  assert (h0 : fixes_applied st' <> fixes_applied st)
    by (vm_compute; discriminate).
  destruct (fixed_file_holds_stripped_code W "m.py" st i
              {| code := Some (LLMAgent.parse_response_code
                                 [ResponseExamples.block]);
                 explanation := Some EmptyString |}
              [ResponseExamples.block] eq_refl eq_refl h0)
    as (Hd & _ & _ & He & _).
  split; [exact h0 |]. split; [exact Hd | exact He].
Defined.

End GeneratedCode.

Module ExtractedFunction.
Import PyStr PyStrFacts CodeEditor.

(** X28.  [_extract_function] and [apply_function_edit] select the
    same text: both take the first [FunctionDef] of [ast.walk] with the
    name and the lines [lineno .. end_lineno], 1-indexed and inclusive.
    So putting back into a file, with [apply_function_edit], the text
    that [_extract_function] returns for a function hands the unchanged
    content of the file to [apply_edit]. *)
Theorem extract_then_edit_keeps_content
    (E : env) (fs : filesystem) (file_path function_name : string)
    (validate create_backup_ : bool) (content : string) (tree node : ast) :
  fs !! file_path = Some content ->
  parse E content = Parsed tree ->
  locate tree function_name = Some node ->
  let lines := split_nl content in
  1 <= (span node).1 <= (span node).2 ->
  (span node).2 <= Z.of_nat (length lines) ->
  exists function_code,
    TestGenerator.extract_function E fs file_path function_name
    = Some function_code /\
    function_code
    = join LF (firstn (Z.to_nat ((span node).2 - (span node).1 + 1))
                 (skipn (Z.to_nat ((span node).1 - 1)) lines)) /\
    let edit := apply_edit E fs file_path content validate create_backup_ in
    apply_function_edit E fs file_path function_name function_code validate
      create_backup_
    = (edit.1, update initial_result edit.2).
Proof.
  intros Hp Hparse Hloc lines Hse Hlen.
  eexists. split; [| split; [reflexivity |]].
  - unfold TestGenerator.extract_function, read_text.
    rewrite Hp, Hparse, Hloc. fold lines. do 2 f_equal.
    replace (span node).2
      with ((span node).1 - 1 + ((span node).2 - (span node).1 + 1)) at 1
      by lia.
    apply CommitMore.slice_window; lia.
  - exact (GranularMore.function_edit_own_text E fs file_path function_name
             validate create_backup_ content tree node Hp Hparse Hloc Hse Hlen).
Qed.

Lemma extract_then_edit_keeps_content_witness :
  let fs := Examples.one_file "m.py" Examples.src_two_f in
  let lines := split_nl Examples.src_two_f in
  let edit :=
    apply_edit Examples.calm fs "m.py" Examples.src_two_f true true in
  fs !! "m.py" = Some Examples.src_two_f /\
  parse Examples.calm Examples.src_two_f = Parsed Examples.tree_two_f /\
  locate Examples.tree_two_f "f" = Some Examples.function_f /\
  span Examples.function_f = (4, 5) /\
  5 <= Z.of_nat (length lines) /\
  TestGenerator.extract_function Examples.calm fs "m.py" "f"
  = Some (Examples.text ["def f():"; "    return 2"]) /\
  apply_function_edit Examples.calm fs "m.py" "f"
    (Examples.text ["def f():"; "    return 2"]) true true
  = (edit.1, update initial_result edit.2).
Proof.
  intros fs lines edit.
  assert (h0 : fs !! "m.py" = Some Examples.src_two_f)
    by (vm_compute; reflexivity).
  assert (h1 : parse Examples.calm Examples.src_two_f
               = Parsed Examples.tree_two_f) by (vm_compute; reflexivity).
  assert (h2 : locate Examples.tree_two_f "f" = Some Examples.function_f)
    by (vm_compute; reflexivity).
  assert (h3 : 1 <= (span Examples.function_f).1
               <= (span Examples.function_f).2)
    by (vm_compute; intuition congruence).
  assert (h4 : (span Examples.function_f).2
               <= Z.of_nat (length (split_nl Examples.src_two_f)))
    by (vm_compute; congruence).
  split; [exact h0 |]. split; [exact h1 |]. split; [exact h2 |].
  split; [reflexivity |]. split; [vm_compute; congruence |].
  destruct (extract_then_edit_keeps_content Examples.calm fs "m.py" "f"
              true true _ _ _ h0 h1 h2 h3 h4) as (fc & Hx & Hfc & Hedit).
  assert (Hval : fc = Examples.text ["def f():"; "    return 2"])
    by (rewrite Hfc; vm_compute; reflexivity).
  rewrite Hval in Hx, Hedit. split; [exact Hx | exact Hedit].
Defined.

End ExtractedFunction.

(* ===================================================================== *)
(** * Backups during a fix run *)
(* ===================================================================== *)

Module SharedBackups.
Import PyStr PyStrFacts PathFacts CodeEditor ApplyEditFacts.
Import IssueDetector Orchestrator LoopMore.

(** An iteration that appended to [fixes_applied]: what it wrote. *)
Lemma fix_issue_applied (W : world) (p : string) (st : loop_state)
    (i : ranked) :
  let sw := at_step W (progress st) in
  let st' := fix_issue W false p st i in
  let bp := backup_path_for (sw_env sw) p in
  fixes_applied st' <> fixes_applied st ->
  exists r c old,
    sw_llm sw = inr r /\ code r = Some c /\
    disk st !! p = Some old /\
    disk st' = <[p := c]> (<[bp := old]> (disk st)) /\
    fixes_applied st'
    = fixes_applied st
      ++ [ {| af_file := p;
              af_issue := default (str_issue W i) (message (issue_of i));
              af_backup := Some bp |} ].
Proof.
  intros sw st' bp Happlied. subst sw st' bp.
  destruct (fix_issue_cases W false p st i)
    as [[_ Ha] | (_ & r & c & Hllm & Hcode & _ & _ & Hd & Happ)];
    [contradiction |].
  cbv zeta in Hd, Happ. destruct Happ as [Ha | [Hs Ha]]; [contradiction |].
  destruct (EditorMore.apply_edit_success_with_backup _ _ _ _ _ Hs)
    as (old & Hold & He).
  exists r, c, old. rewrite Hd, Ha, He. cbn [fst snd].
  repeat split; try assumption.
  now destruct (endswith ".py" p).
Qed.

(** X29.  Two fixes applied to a file one after the other at the same
    clock reading share their backup: both entries of [fixes_applied]
    name the same path, which is not the path of the file, and after
    the second fix it holds the code of the first fix, not the content
    the file had before the two. *)
Theorem same_second_fixes_share_a_backup
    (W : world) (p : string) (st : loop_state) (i1 i2 : ranked) :
  let sw1 := at_step W (progress st) in
  let sw2 := at_step W (S (progress st)) in
  let st1 := fix_issue W false p st i1 in
  let st2 := fix_issue W false p st1 i2 in
  now (sw_env sw2) = now (sw_env sw1) ->
  backup_dir (sw_env sw2) = backup_dir (sw_env sw1) ->
  fixes_applied st1 <> fixes_applied st ->
  fixes_applied st2 <> fixes_applied st1 ->
  exists old r1 c1 c2 bp a1 a2,
    disk st !! p = Some old /\
    sw_llm sw1 = inr r1 /\ code r1 = Some c1 /\
    fixes_applied st2 = fixes_applied st ++ [a1; a2] /\
    af_backup a1 = Some bp /\ af_backup a2 = Some bp /\
    bp <> p /\
    disk st2 !! p = Some c2 /\
    disk st2 !! bp = Some c1.
Proof.
  intros sw1 sw2 st1 st2 Hnow Hdir H1 H2. subst sw1 sw2 st1 st2.
  destruct (fix_issue_applied W p st i1 H1)
    as (r1 & c1 & old & Hllm1 & Hcode1 & Hold & Hd1 & Ha1).
  destruct (fix_issue_applied W p _ i2 H2)
    as (r2 & c2 & old2 & _ & _ & Hold2 & Hd2 & Ha2).
  rewrite FixLoop.fix_issue_progress in Hd2, Ha2.
  assert (Hsame :
    backup_path_for (sw_env (at_step W (S (progress st)))) p
    = backup_path_for (sw_env (at_step W (progress st))) p)
    by (unfold backup_path_for; now rewrite Hnow, Hdir).
  rewrite Hsame in Hd2, Ha2.
  set (bp := backup_path_for (sw_env (at_step W (progress st))) p) in *.
  assert (Hbp : bp <> p) by apply backup_path_neq.
  rewrite Hd1, lookup_insert_eq in Hold2. injection Hold2 as <-.
  eexists old, r1, c1, c2, bp, _, _.
  split; [exact Hold |]. split; [exact Hllm1 |]. split; [exact Hcode1 |].
  split; [rewrite Ha2, Ha1, <- List.app_assoc; reflexivity |].
  split; [reflexivity |]. split; [reflexivity |].
  rewrite Hd2, Hd1. split; [exact Hbp |].
  split; [apply lookup_insert_eq |].
  rewrite lookup_insert_ne by congruence. apply lookup_insert_eq.
Qed.

Lemma same_second_fixes_share_a_backup_witness :
  let W := Examples.one_bad_answer in
  let st := {| disk := Examples.one_file "m.py" Examples.src_assign;
               fixes_applied := []; fixes_failed := []; progress := 1 |} in
  let i := Ranked Examples.style_warning_3 2 in
  let st1 := fix_issue W false "m.py" st i in
  let st2 := fix_issue W false "m.py" st1 i in
  now (sw_env (at_step W 2)) = now (sw_env (at_step W 1)) /\
  fixes_applied st1 <> fixes_applied st /\
  fixes_applied st2 <> fixes_applied st1 /\
  exists bp,
    map af_backup (fixes_applied st2) = [Some bp; Some bp] /\
    disk st2 !! bp = Some Examples.src_assign_two.
Proof.
  intros W st i st1 st2.
  assert (h0 : now (sw_env (at_step W 2)) = now (sw_env (at_step W 1)))
    by reflexivity.
  assert (h1 : backup_dir (sw_env (at_step W 2))
               = backup_dir (sw_env (at_step W 1))) by reflexivity.
  assert (h2 : fixes_applied st1 <> fixes_applied st)
    by (vm_compute; discriminate).
  assert (h3 : fixes_applied st2 <> fixes_applied st1)
    by (vm_compute; discriminate).
  split; [exact h0 |]. split; [exact h2 |]. split; [exact h3 |].
  destruct (same_second_fixes_share_a_backup W "m.py" st i i h0 h1 h2 h3)
    as (old & r1 & c1 & c2 & bp & a1 & a2 & _ & Hllm & Hcode & Ha & Hb1 & Hb2
        & _ & _ & Hbp).
  exists bp. unfold st2, st1. split.
  - rewrite Ha. cbn. now rewrite Hb1, Hb2.
  - rewrite Hbp. f_equal.
    assert (Hr : sw_llm (at_step W 1)
                 = inr {| code := Some Examples.src_assign_two;
                          explanation := Some EmptyString |}) by reflexivity.
    cbn [progress st] in Hllm. rewrite Hr in Hllm. injection Hllm as <-.
    cbn in Hcode. now injection Hcode as <-.
Defined.
End SharedBackups.
